(** * Big AI Chatbot: a shallow embedding of [new.py]

    The development follows the layout of the Python file: utilities,
    the safe calculator, sentiment, the knowledge base, the persisted
    memory, intent detection, the chatbot core with its router and the
    entry point.  The loop of [chat.py] follows.

    Conventions of the embedding.
    - The console is the list of the lines typed; [input] past its end
      meets the end of the input.  What is written is a list of lines.
    - Text is [string] (a sequence of bytes): the bytes of the UTF-8
      form of a Python [str]; a text with no UTF-8 form (one that holds
      a lone surrogate) is a sequence of bytes that is not UTF-8.
      Python's [str] methods and the [re] module are Unicode aware; the
      embedding gives them their ASCII meaning: a byte above 127 is
      neither whitespace, nor a word character, nor cased.
    - The clock, the random generator and the file system are the fields
      of an explicit [World] that every method threads through.
    - A Python exception is the [Raise] outcome of the [M] monad; the
      state reached before the exception is kept, as in Python.
    - [Memory.data] is a record with the three keys the program uses;
      the file holds its dump by a model of the [json] module, written
      piece by piece as [json.dump] does, so that a failure half-way
      leaves the file cut short.
    - The calculator computes on integers exactly; float and complex
      arithmetic is a parameter ([PyFloat]).  The CSV statistics work on
      exact binary64 values, as the [statistics] module of CPython 3.11
      does, whose [pstdev] raises on an infinity or a nan.
      [csv.DictReader] and the iteration order of a [set] are
      parameters ([PyLibs]). *)

From Stdlib Require Import Strings.String Strings.Ascii List ZArith QArith Qround Qabs Lia Lqa Bool.
From stdpp Require Import base option gmap strings.
Import ListNotations.

Local Open Scope list_scope.
Local Open Scope string_scope.

(* ================================================================= *)
(** ** Characters and [str] methods *)

Module Str.

Definition code (c : ascii) : N := N_of_ascii c.

Definition between (lo hi : N) (c : ascii) : bool :=
  (lo <=? code c)%N && (code c <=? hi)%N.

Definition is_upper : ascii -> bool := between 65 90.
Definition is_lower : ascii -> bool := between 97 122.
Definition is_digit : ascii -> bool := between 48 57.
Definition is_alpha (c : ascii) : bool := is_upper c || is_lower c.

(** [\w] of the [re] module. *)
Definition is_word (c : ascii) : bool :=
  is_alpha c || is_digit c || (code c =? 95)%N.

(** [str.isspace] and [\s]: tab, newline, vertical tab, form feed,
    carriage return, the four separators 0x1c-0x1f, and space. *)
Definition is_space (c : ascii) : bool :=
  between 9 13 c || between 28 32 c.

Definition lower_char (c : ascii) : ascii :=
  if is_upper c then ascii_of_N (code c + 32) else c.

Definition upper_char (c : ascii) : ascii :=
  if is_lower c then ascii_of_N (code c - 32) else c.

Fixpoint map (f : ascii -> ascii) (s : string) : string :=
  match s with
  | EmptyString => EmptyString
  | String c s' => String (f c) (map f s')
  end.

Definition lower : string -> string := map lower_char.
Definition upper : string -> string := map upper_char.

Fixpoint lstrip (s : string) : string :=
  match s with
  | EmptyString => EmptyString
  | String c s' => if is_space c then lstrip s' else s
  end.

Fixpoint rstrip (s : string) : string :=
  match s with
  | EmptyString => EmptyString
  | String c s' =>
      match rstrip s' with
      | EmptyString => if is_space c then EmptyString else String c EmptyString
      | r => String c r
      end
  end.

Definition strip (s : string) : string := rstrip (lstrip s).

(** [s.strip(chars)] for a one-character [chars]. *)
Fixpoint lstrip_char (x : ascii) (s : string) : string :=
  match s with
  | EmptyString => EmptyString
  | String c s' => if Ascii.eqb c x then lstrip_char x s' else s
  end.

Fixpoint rstrip_char (x : ascii) (s : string) : string :=
  match s with
  | EmptyString => EmptyString
  | String c s' =>
      match rstrip_char x s' with
      | EmptyString => if Ascii.eqb c x then EmptyString else String c EmptyString
      | r => String c r
      end
  end.

Definition strip_char (x : ascii) (s : string) : string :=
  rstrip_char x (lstrip_char x s).

Definition startswith (s p : string) : bool := String.prefix p s.

(** [s[n:]] *)
Fixpoint drop (n : nat) (s : string) : string :=
  match n, s with
  | O, _ => s
  | S n', String _ s' => drop n' s'
  | S _, EmptyString => EmptyString
  end.

(** [k in s] for strings. *)
Fixpoint contains (k s : string) : bool :=
  String.prefix k s ||
  match s with
  | EmptyString => false
  | String _ s' => contains k s'
  end.

(** [s.split()]: the maximal runs of non-whitespace characters. *)
Fixpoint split_ws_aux (cur : string) (s : string) : list string :=
  match s with
  | EmptyString => match cur with EmptyString => [] | _ => [cur] end
  | String c s' =>
      if is_space c
      then match cur with
           | EmptyString => split_ws_aux EmptyString s'
           | _ => cur :: split_ws_aux EmptyString s'
           end
      else split_ws_aux (cur ++ String c EmptyString) s'
  end.

Definition split (s : string) : list string := split_ws_aux EmptyString s.

(** [s.title()]: a cased character that follows a cased character is
    lowered, any other cased character is raised. *)
Fixpoint title_aux (prev_cased : bool) (s : string) : string :=
  match s with
  | EmptyString => EmptyString
  | String c s' =>
      if is_alpha c
      then String (if prev_cased then lower_char c else upper_char c)
                  (title_aux true s')
      else String c (title_aux false s')
  end.

Definition title : string -> string := title_aux false.

(** [sep.join(parts)]. *)
Fixpoint join (sep : string) (parts : list string) : string :=
  match parts with
  | [] => EmptyString
  | [p] => p
  | p :: ps => p ++ sep ++ join sep ps
  end.

(** Decimal rendering of a natural number, as [str(n)] gives it. *)
Definition digit_char (d : N) : ascii := ascii_of_N (48 + d).

(** The digits of [n] are put in front of [acc], the last one first. *)
Fixpoint to_digits (fuel : nat) (n : N) (acc : string) : string :=
  match fuel with
  | O => acc
  | S fuel' =>
      let acc' := String (digit_char (n mod 10)) acc in
      if (n / 10 =? 0)%N then acc' else to_digits fuel' (n / 10) acc'
  end.

Definition of_N (n : N) : string :=
  to_digits (S (N.to_nat (N.log2 n))) n EmptyString.

Definition of_nat (n : nat) : string := of_N (N.of_nat n).

Definition of_Z (z : Z) : string :=
  match z with
  | Zneg p => String "-" (of_N (Npos p))
  | _ => of_N (Z.to_N z)
  end.

(** *** Text that can be encoded

    The bytes of a text are those of its UTF-8 form.  A text that holds
    what has no such form (a lone surrogate) is a sequence of bytes that
    is not UTF-8; [str.encode] raises on it, and so does the writing to
    a file opened with [encoding="utf-8"]. *)

(** Where a decoder of UTF-8 stands: between characters; one, two or
    three bytes short of the end of a character; and, after the first
    byte of a character, the ranges its second byte is held to. *)
Inductive utf8_state := U0 | U1 | U2 | U2_from_A0 | U2_to_9F | U3 | U3_from_90 | U3_to_8F.

Definition utf8_step (st : utf8_state) (c : ascii) : option utf8_state :=
  match st with
  | U0 =>
      if (code c <? 128)%N then Some U0
      else if between 194 223 c then Some U1
      else if (code c =? 224)%N then Some U2_from_A0
      else if (code c =? 237)%N then Some U2_to_9F
      else if between 225 239 c then Some U2
      else if (code c =? 240)%N then Some U3_from_90
      else if between 241 243 c then Some U3
      else if (code c =? 244)%N then Some U3_to_8F
      else None
  | U1 => if between 128 191 c then Some U0 else None
  | U2 => if between 128 191 c then Some U1 else None
  | U2_from_A0 => if between 160 191 c then Some U1 else None
  | U2_to_9F => if between 128 159 c then Some U1 else None
  | U3 => if between 128 191 c then Some U2 else None
  | U3_from_90 => if between 144 191 c then Some U2 else None
  | U3_to_8F => if between 128 143 c then Some U2 else None
  end.

Fixpoint utf8_run (st : utf8_state) (s : string) : option utf8_state :=
  match s with
  | EmptyString => Some st
  | String c s' =>
      match utf8_step st c with
      | Some st' => utf8_run st' s'
      | None => None
      end
  end.

(** [s.encode("utf-8")] does not raise. *)
Definition encodable (s : string) : bool :=
  match utf8_run U0 s with
  | Some U0 => true
  | _ => false
  end.

End Str.

(* ================================================================= *)
(** ** Utilities *)

(** The regular expressions of the program, as data.  Only the
    constructs that occur in [new.py] are present. *)
Module Re.

Inductive cclass := Dot | Space.

Inductive regex :=
| Lit (s : string)            (* literal text *)
| Plus (cl : cclass)          (* [.+] and [\s+], greedy *)
| Seq (a b : regex)
| Alt (a b : regex)           (* [a|b], left alternative first *)
| Opt (a : regex)             (* [(a)?], greedy *)
| Group (i : nat) (a : regex) (* the i-th capturing group *)
| WordB                       (* [\b] *)
| Bol                         (* [^] *)
| Eol.                        (* [$] *)

(** A compiled pattern: the expression and whether [re.I] was given. *)
Record pattern := compile { expr : regex; ignorecase : bool }.

(** Position of the matcher in the subject: the character before it,
    the offset, the text still ahead and the text of group 1. *)
Record cursor := Cursor {
  prev : option ascii;
  pos : nat;
  rest : string;
  grp1 : option string
}.

(** What the program reads of a match object: [m.start()], [m.end()],
    [m.group(1)] and the text after the match. *)
Record Match := {
  m_start : nat;
  m_end : nat;
  m_group1 : option string;
  m_tail : string
}.

Definition in_class (cl : cclass) (ch : ascii) : bool :=
  match cl with
  | Dot => negb (Str.code ch =? 10)%N
  | Space => Str.is_space ch
  end.

Definition chr_eq (ic : bool) (a b : ascii) : bool :=
  if ic then Ascii.eqb (Str.lower_char a) (Str.lower_char b) else Ascii.eqb a b.

Definition advance (ch : ascii) (s' : string) (c : cursor) : cursor :=
  {| prev := Some ch; pos := S (pos c); rest := s'; grp1 := grp1 c |}.

Fixpoint lit (ic : bool) (p : string) (c : cursor) : option cursor :=
  match p with
  | EmptyString => Some c
  | String a p' =>
      match rest c with
      | String b s' => if chr_eq ic a b then lit ic p' (advance b s' c) else None
      | EmptyString => None
      end
  end.

(** One or more characters of a class: the longest run is tried first
    and given back one character at a time. *)
Fixpoint plus (cl : cclass) (k : cursor -> option cursor)
         (s : string) (c : cursor) : option cursor :=
  match s with
  | EmptyString => None
  | String ch s' =>
      if in_class cl ch
      then match plus cl k s' (advance ch s' c) with
           | Some r => Some r
           | None => k (advance ch s' c)
           end
      else None
  end.

Definition is_word_opt (o : option ascii) : bool :=
  match o with Some ch => Str.is_word ch | None => false end.

Definition next_char (s : string) : option ascii :=
  match s with String ch _ => Some ch | EmptyString => None end.

Definition at_boundary (c : cursor) : bool :=
  xorb (is_word_opt (prev c)) (is_word_opt (next_char (rest c))).

(** [$] without [re.M]: the end, or just before a final newline. *)
Definition at_end (c : cursor) : bool :=
  match rest c with
  | EmptyString => true
  | String ch EmptyString => (Str.code ch =? 10)%N
  | _ => false
  end.

Definition capture (i : nat) (c0 c1 : cursor) : cursor :=
  if Nat.eqb i 1
  then {| prev := prev c1; pos := pos c1; rest := rest c1;
          grp1 := Some (String.substring 0 (pos c1 - pos c0) (rest c0)) |}
  else c1.

(** Backtracking matcher in continuation-passing style: [rx ic r k c]
    matches [r] at [c] and hands the cursor after it to [k]. *)
Fixpoint rx (ic : bool) (r : regex) (k : cursor -> option cursor)
         (c : cursor) : option cursor :=
  match r with
  | Lit p => match lit ic p c with Some c' => k c' | None => None end
  | Plus cl => plus cl k (rest c) c
  | Seq a b => rx ic a (rx ic b k) c
  | Alt a b =>
      match rx ic a k c with
      | Some x => Some x
      | None => rx ic b k c
      end
  | Opt a =>
      match rx ic a k c with
      | Some x => Some x
      | None => k c
      end
  | Group i a => rx ic a (fun c' => k (capture i c c')) c
  | WordB => if at_boundary c then k c else None
  | Bol => if Nat.eqb (pos c) 0 then k c else None
  | Eol => if at_end c then k c else None
  end.

Definition match_at (p : pattern) (c : cursor) : option Match :=
  match rx (ignorecase p) (expr p) Some c with
  | Some c' => Some {| m_start := pos c; m_end := pos c';
                       m_group1 := grp1 c'; m_tail := rest c' |}
  | None => None
  end.

(** [pattern.search(text)]: the leftmost position with a match. *)
Fixpoint search_from (p : pattern) (s : string) (c : cursor) : option Match :=
  match match_at p c with
  | Some m => Some m
  | None =>
      match s with
      | EmptyString => None
      | String ch s' => search_from p s' (advance ch s' c)
      end
  end.

Definition start_of (text : string) : cursor :=
  {| prev := None; pos := 0; rest := text; grp1 := None |}.

Definition search (p : pattern) (text : string) : option Match :=
  search_from p text (start_of text).

(** [re.sub(pattern, repl, text)] for a replacement without group
    references.  After an empty match the scan moves one character on. *)
Fixpoint sub_from (fuel : nat) (p : pattern) (repl : string) (c : cursor) : string :=
  match fuel with
  | O => rest c
  | S fuel' =>
      match match_at p {| prev := prev c; pos := pos c; rest := rest c; grp1 := None |} with
      | Some m =>
          if Nat.eqb (m_end m) (pos c)
          then match rest c with
               | EmptyString => repl
               | String ch s' =>
                   repl ++ String ch (sub_from fuel' p repl (advance ch s' c))
               end
          else repl ++
               sub_from fuel' p repl
                 {| prev := String.get (m_end m - pos c - 1) (rest c);
                    pos := m_end m; rest := m_tail m; grp1 := None |}
      | None =>
          match rest c with
          | EmptyString => EmptyString
          | String ch s' => String ch (sub_from fuel' p repl (advance ch s' c))
          end
      end
  end.

Definition sub (p : pattern) (repl text : string) : string :=
  sub_from (S (String.length text)) p repl (start_of text).

(** [\b(w1|w2|...)\b] bodies are alternations of literal words. *)
Fixpoint words (ws : list string) : regex :=
  match ws with
  | [] => Lit EmptyString
  | [w] => Lit w
  | w :: ws' => Alt (Lit w) (words ws')
  end.

End Re.

(** [normalize]: trim, lower-case, then collapse each run of whitespace
    into one space. *)
Definition normalize (text : string) : string :=
  let text := Str.lower (Str.strip text) in
  Re.sub (Re.compile (Re.Plus Re.Space) false) " " text.

(* ================================================================= *)
(** ** Exceptions *)

(** The exception classes the program can meet, each with the text that
    [str(e)] gives. *)
Inductive exn :=
| ValueError (msg : string)
| ZeroDivisionError (msg : string)
| SyntaxError (msg : string)
| OverflowError (msg : string)
| TypeError (msg : string)
| IndexError (msg : string)
| OSError (msg : string)
| AttributeError (msg : string)
| StatisticsError (msg : string).

Definition exn_str (e : exn) : string :=
  match e with
  | ValueError m | ZeroDivisionError m | SyntaxError m | OverflowError m
  | TypeError m | IndexError m | OSError m | AttributeError m
  | StatisticsError m => m
  end.

Inductive Result (A : Type) :=
| Ok (a : A)
| Raise (e : exn).
Arguments Ok {A} a.
Arguments Raise {A} e.

Definition rbind {A B} (r : Result A) (f : A -> Result B) : Result B :=
  match r with
  | Ok a => f a
  | Raise e => Raise e
  end.

Definition is_raise {A} (r : Result A) : bool :=
  match r with Ok _ => false | Raise _ => true end.

(* ================================================================= *)
(** ** The syntax trees of [ast] *)

Module Ast.
#[local] Set Warnings "-register-all".

Inductive operator :=
| Add | Sub | Mult | Div | Mod | Pow
| FloorDiv | MatMult | LShift | RShift | BitOr | BitXor | BitAnd.

Inductive unaryop := UAdd | USub | Not | Invert.

Inductive cmpop := Eq | NotEq | Lt | LtE | Gt | GtE.

(** The value held by an [ast.Constant]. Float and imaginary literals
    keep their source text. *)
Inductive constant :=
| CInt (z : Z)
| CBool (b : bool)
| CFloat (lit : string)
| CImag (lit : string)
| CStr (s : string)
| CNone
| CEllipsis.

(** Expression nodes. [Other] stands for the node classes the program
    never names (BoolOp, IfExp, Lambda, List, Subscript, Attribute, ...),
    with the class name and the child expressions. *)
Inductive node :=
| Constant (value : constant)
| BinOp (left : node) (op : operator) (right : node)
| UnaryOp (op : unaryop) (operand : node)
| Name (id : string)
| Call (func : node) (args : list node)
| Compare (left : node) (ops : list cmpop) (comparators : list node)
| Other (kind : string) (children : list node).

End Ast.

(** Python numbers as the calculator sees them.  Integers and booleans
    are exact; floats and complex numbers are values of a type [F] that
    the interpreter provides. *)
Inductive number (F : Type) :=
| Int (z : Z)
| Boolean (b : bool)
| Inexact (x : F).
Arguments Int {F} z.
Arguments Boolean {F} b.
Arguments Inexact {F} x.

(** What the embedding needs of the interpreter's floating-point and
    complex arithmetic.  Nothing is assumed about these operations. *)
Class PyFloat := {
  inexact : Type;
  (** value of a float or imaginary literal, such as [3.14] or [2j] *)
  of_literal : string -> inexact;
  (** [a / b] on integers with [b <> 0] *)
  int_truediv : Z -> Z -> Result inexact;
  (** [a ** b] on integers with [b < 0] *)
  int_pow_neg : Z -> Z -> Result inexact;
  (** a binary operation with at least one float or complex operand *)
  inexact_binop : Ast.operator -> number inexact -> number inexact -> Result inexact;
  (** [-x] *)
  inexact_neg : inexact -> inexact;
  (** [str(x)] *)
  inexact_str : inexact -> string;
  (** text of the error of [a % 0] on integers *)
  int_mod_zero : string
}.

(* ================================================================= *)
(** ** A model of [ast.parse(expr, mode='eval')]

    The parser of the interpreter is not part of the program.  The model
    covers one-line expressions made of decimal literals (integer,
    float and imaginary, without digit separators), names, parentheses,
    calls, the unary operators [+ - ~], the binary arithmetic operators
    and comparisons; any other text is reported as a syntax error. *)
Module Parser.
Import Ast.

Inductive token :=
| TNum (c : constant)
| TName (s : string)
| TOp (s : string)
| TLParen | TRParen | TComma.

Fixpoint span (p : ascii -> bool) (s : string) : string * string :=
  match s with
  | EmptyString => (EmptyString, EmptyString)
  | String c s' =>
      if p c then let '(a, b) := span p s' in (String c a, b)
      else (EmptyString, s)
  end.

Fixpoint int_of_digits (acc : Z) (s : string) : Z :=
  match s with
  | EmptyString => acc
  | String c s' => int_of_digits (10 * acc + Z.of_N (Str.code c - 48)) s'
  end.

Fixpoint all_zero (s : string) : bool :=
  match s with
  | EmptyString => true
  | String c s' => (Str.code c =? 48)%N && all_zero s'
  end.

Definition keywords : list string :=
  ["and"; "as"; "assert"; "async"; "await"; "break"; "class"; "continue";
   "def"; "del"; "elif"; "else"; "except"; "finally"; "for"; "from";
   "global"; "if"; "import"; "in"; "is"; "lambda"; "nonlocal"; "not";
   "or"; "pass"; "raise"; "return"; "try"; "while"; "with"; "yield"].

Definition is_name_start (c : ascii) : bool :=
  Str.is_alpha c || (Str.code c =? 95)%N.

Definition operators2 : list string := ["**"; "//"; "<="; ">="; "=="; "!="; "<<"; ">>"].
Definition operators1 : list string := ["+"; "-"; "*"; "/"; "%"; "~"; "<"; ">"; "@"; "&"; "|"; "^"].

Definition is_blank (c : ascii) : bool :=
  (Str.code c =? 32)%N || (Str.code c =? 9)%N.

(** The exponent of a float literal: [e] or [E], an optional sign and
    digits. *)
Definition lex_exponent (s : string) : option (string * string) :=
  match s with
  | String c r =>
      if (Str.code c =? 101)%N || (Str.code c =? 69)%N then
        let '(sgn, r1) :=
          match r with
          | String x r' =>
              if (Str.code x =? 43)%N || (Str.code x =? 45)%N
              then (String x EmptyString, r') else (EmptyString, r)
          | EmptyString => (EmptyString, r)
          end in
        let '(ds, r2) := span Str.is_digit r1 in
        match ds with
        | EmptyString => None
        | _ => Some (String c (sgn ++ ds), r2)
        end
      else None
  | EmptyString => None
  end.

Definition int_literal (ds : string) : option constant :=
  match ds with
  | String "0" (String _ _) => if all_zero ds then Some (CInt 0) else None
  | _ => Some (CInt (int_of_digits 0 ds))
  end.

(** A decimal literal: digits, an optional fraction, an optional
    exponent and an optional imaginary suffix.  An integer literal has
    no leading zero unless it is all zeros. *)
Definition lex_number (s : string) : option (token * string) :=
  let '(ds, r) := span Str.is_digit s in
  let '(frac, r1) :=
    match r with
    | String "." r' => let '(fs, r'') := span Str.is_digit r' in ("." ++ fs, r'')
    | _ => (EmptyString, r)
    end in
  let '(expo, r2) :=
    match lex_exponent r1 with
    | Some (e, r') => (e, r')
    | None => (EmptyString, r1)
    end in
  let text := ds ++ frac ++ expo in
  let plain :=
    match frac ++ expo with
    | EmptyString => int_literal ds
    | _ => Some (CFloat text)
    end in
  match r2 with
  | String c r3 =>
      if (Str.code c =? 106)%N || (Str.code c =? 74)%N then
        match r3 with
        | String d _ =>
            if Str.is_word d then None
            else Some (TNum (CImag (text ++ String c EmptyString)), r3)
        | EmptyString => Some (TNum (CImag (text ++ String c EmptyString)), r3)
        end
      else if Str.is_word c then None
      else match plain with Some k => Some (TNum k, r2) | None => None end
  | EmptyString => match plain with Some k => Some (TNum k, r2) | None => None end
  end.

Definition lex_name (s : string) : option (token * string) :=
  let '(w, r) := span Str.is_word s in
  if String.eqb w "True" then Some (TNum (CBool true), r)
  else if String.eqb w "False" then Some (TNum (CBool false), r)
  else if String.eqb w "None" then Some (TNum CNone, r)
  else if existsb (String.eqb w) keywords then None
  else Some (TName w, r).

Definition lex_operator (s : string) : option (token * string) :=
  match find (fun o => String.prefix o s) operators2 with
  | Some o => Some (TOp o, String.substring 2 (String.length s - 2) s)
  | None =>
      match find (fun o => String.prefix o s) operators1 with
      | Some o => Some (TOp o, String.substring 1 (String.length s - 1) s)
      | None => None
      end
  end.

Fixpoint all_blank_lines (s : string) : bool :=
  match s with
  | EmptyString => true
  | String c s' =>
      (is_blank c || (Str.code c =? 10)%N || (Str.code c =? 13)%N) && all_blank_lines s'
  end.

Fixpoint lex (fuel : nat) (s : string) : option (list token) :=
  match fuel with
  | O => None
  | S fuel' =>
      match s with
      | EmptyString => Some []
      | String c s' =>
          if is_blank c then lex fuel' s'
          else if (Str.code c =? 10)%N || (Str.code c =? 13)%N then
            if all_blank_lines s' then Some [] else None
          else
            let one :=
              if Str.is_digit c then lex_number s
              else if (Str.code c =? 46)%N then
                match s' with
                | String d _ => if Str.is_digit d then lex_number s else None
                | EmptyString => None
                end
              else if is_name_start c then lex_name s
              else if (Str.code c =? 40)%N then Some (TLParen, s')
              else if (Str.code c =? 41)%N then Some (TRParen, s')
              else if (Str.code c =? 44)%N then Some (TComma, s')
              else lex_operator s in
            match one with
            | Some (t, r) =>
                match lex fuel' r with
                | Some ts => Some (t :: ts)
                | None => None
                end
            | None => None
            end
      end
  end.

(** The nonterminals of the grammar; the [..Rest] goals carry what was
    parsed to their left. *)
Inductive goal :=
| GComparison
| GCompareRest (l : node) (ops : list cmpop) (cs : list node)
| GArith
| GArithRest (l : node)
| GTerm
| GTermRest (l : node)
| GFactor
| GPower
| GPrimary
| GPrimaryRest (f : node)
| GArgs (f : node) (acc : list node).

Definition cmp_of (s : string) : option cmpop :=
  if String.eqb s "<" then Some Lt else if String.eqb s ">" then Some Gt
  else if String.eqb s "<=" then Some LtE else if String.eqb s ">=" then Some GtE
  else if String.eqb s "==" then Some Eq else if String.eqb s "!=" then Some NotEq
  else None.

Definition arith_of (s : string) : option operator :=
  if String.eqb s "+" then Some Add else if String.eqb s "-" then Some Sub
  else None.

Definition term_of (s : string) : option operator :=
  if String.eqb s "*" then Some Mult else if String.eqb s "/" then Some Div
  else if String.eqb s "%" then Some Mod else if String.eqb s "//" then Some FloorDiv
  else if String.eqb s "@" then Some MatMult
  else None.

Definition unary_of (s : string) : option unaryop :=
  if String.eqb s "+" then Some UAdd else if String.eqb s "-" then Some USub
  else if String.eqb s "~" then Some Invert
  else None.

Definition finish_compare (l : node) (ops : list cmpop) (cs : list node) : node :=
  match ops with
  | [] => l
  | _ => Compare l (List.rev ops) (List.rev cs)
  end.

Fixpoint parse (fuel : nat) (g : goal) (ts : list token) : option (node * list token) :=
  match fuel with
  | O => None
  | S f =>
      match g with
      | GComparison =>
          match parse f GArith ts with
          | Some (l, ts1) => parse f (GCompareRest l [] []) ts1
          | None => None
          end
      | GCompareRest l ops cs =>
          match ts with
          | TOp o :: ts1 =>
              match cmp_of o with
              | Some c =>
                  match parse f GArith ts1 with
                  | Some (r, ts2) => parse f (GCompareRest l (c :: ops) (r :: cs)) ts2
                  | None => None
                  end
              | None => Some (finish_compare l ops cs, ts)
              end
          | _ => Some (finish_compare l ops cs, ts)
          end
      | GArith =>
          match parse f GTerm ts with
          | Some (l, ts1) => parse f (GArithRest l) ts1
          | None => None
          end
      | GArithRest l =>
          match ts with
          | TOp o :: ts1 =>
              match arith_of o with
              | Some op =>
                  match parse f GTerm ts1 with
                  | Some (r, ts2) => parse f (GArithRest (BinOp l op r)) ts2
                  | None => None
                  end
              | None => Some (l, ts)
              end
          | _ => Some (l, ts)
          end
      | GTerm =>
          match parse f GFactor ts with
          | Some (l, ts1) => parse f (GTermRest l) ts1
          | None => None
          end
      | GTermRest l =>
          match ts with
          | TOp o :: ts1 =>
              match term_of o with
              | Some op =>
                  match parse f GFactor ts1 with
                  | Some (r, ts2) => parse f (GTermRest (BinOp l op r)) ts2
                  | None => None
                  end
              | None => Some (l, ts)
              end
          | _ => Some (l, ts)
          end
      | GFactor =>
          match ts with
          | TOp o :: ts1 =>
              match unary_of o with
              | Some u =>
                  match parse f GFactor ts1 with
                  | Some (e, ts2) => Some (UnaryOp u e, ts2)
                  | None => None
                  end
              | None => None
              end
          | _ => parse f GPower ts
          end
      | GPower =>
          match parse f GPrimary ts with
          | Some (b, TOp "**" :: ts1) =>
              match parse f GFactor ts1 with
              | Some (e, ts2) => Some (BinOp b Pow e, ts2)
              | None => None
              end
          | r => r
          end
      | GPrimary =>
          match ts with
          | TNum c :: ts1 => parse f (GPrimaryRest (Constant c)) ts1
          | TName x :: ts1 => parse f (GPrimaryRest (Name x)) ts1
          | TLParen :: ts1 =>
              match parse f GComparison ts1 with
              | Some (e, TRParen :: ts2) => parse f (GPrimaryRest e) ts2
              | _ => None
              end
          | _ => None
          end
      | GPrimaryRest fn =>
          match ts with
          | TLParen :: TRParen :: ts1 => parse f (GPrimaryRest (Call fn [])) ts1
          | TLParen :: ts1 => parse f (GArgs fn []) ts1
          | _ => Some (fn, ts)
          end
      | GArgs fn acc =>
          match parse f GComparison ts with
          | Some (a, TComma :: TRParen :: ts1)
          | Some (a, TRParen :: ts1) =>
              parse f (GPrimaryRest (Call fn (List.rev (a :: acc)))) ts1
          | Some (a, TComma :: ts1) => parse f (GArgs fn (a :: acc)) ts1
          | _ => None
          end
      end
  end.

Definition syntax_error : exn := SyntaxError "invalid syntax (<unknown>, line 1)".

(** In [eval] mode leading blanks are an indentation error; blanks at
    the end are ignored. *)
Definition ast_parse (expr : string) : Result node :=
  match expr with
  | EmptyString => Raise syntax_error
  | String c _ =>
      if is_blank c then Raise (SyntaxError "unexpected indent (<unknown>, line 1)")
      else
        match lex (S (String.length expr)) expr with
        | Some ts =>
            match parse (16 * S (List.length ts)) GComparison ts with
            | Some (t, []) => Ok t
            | _ => Raise syntax_error
            end
        | None => Raise syntax_error
        end
  end.

End Parser.

(* ================================================================= *)
(** ** Safe Calculator *)

Module SafeEvaluator.
Import Ast.

Section WithFloat.
Context `{PyFloat}.

Abbreviation value := (number inexact).

(** The classes of [ALLOWED_NODES], by the nodes of the embedding:
    [Expression], [Load], [Constant] (and its alias [Num]), [BinOp],
    [UnaryOp], [Call], [Name], and the operator classes listed. *)
Definition allowed_operator (op : operator) : bool :=
  match op with
  | Add | Sub | Mult | Div | Mod | Pow => true
  | _ => false
  end.

Definition allowed_unaryop (op : unaryop) : bool :=
  match op with
  | USub | UAdd => true
  | _ => false
  end.

Definition ALLOWED_NODES (n : node) : bool :=
  match n with
  | Constant _ | BinOp _ _ _ | UnaryOp _ _ | Call _ _ | Name _ => true
  | Compare _ _ _ | Other _ _ => false
  end.

Definition ALLOWED_NAMES : list (string * inexact) :=
  [ ("pi", of_literal "3.141592653589793");
    ("e", of_literal "2.718281828459045") ].

Definition disallowed : exn := ValueError "Disallowed expression".

(** [visit]: reject a node outside the allow-list, otherwise visit the
    children in field order, as [NodeVisitor.generic_visit] does.  The
    operator of a [BinOp] or [UnaryOp] is itself a child node. *)
Fixpoint visit (n : node) : Result unit :=
  let fix visit_all (l : list node) : Result unit :=
    match l with
    | [] => Ok tt
    | x :: l' => rbind (visit x) (fun _ => visit_all l')
    end in
  if negb (ALLOWED_NODES n) then Raise disallowed
  else
    match n with
    | Constant _ => Ok tt
    | BinOp l op r =>
        rbind (visit l) (fun _ =>
        if negb (allowed_operator op) then Raise disallowed
        else visit r)
    | UnaryOp op e =>
        if negb (allowed_unaryop op) then Raise disallowed
        else visit e
    | Name _ => Ok tt
    | Call f args => rbind (visit f) (fun _ => visit_all args)
    | Compare _ _ _ | Other _ _ => Ok tt
    end.

(** Integers and booleans take part in arithmetic as integers. *)
Definition as_int (v : value) : option Z :=
  match v with
  | Int z => Some z
  | Boolean b => Some (if b then 1 else 0)%Z
  | Inexact _ => None
  end.

Definition lift (r : Result inexact) : Result value :=
  rbind r (fun x => Ok (Inexact x)).

(** The arithmetic of the interpreter on two evaluated operands. *)
Definition arith (op : operator) (left right : value) : Result value :=
  match as_int left, as_int right with
  | Some a, Some b =>
      match op with
      | Add => Ok (Int (a + b))
      | Sub => Ok (Int (a - b))
      | Mult => Ok (Int (a * b))
      | Div =>
          if (b =? 0)%Z then Raise (ZeroDivisionError "division by zero")
          else lift (int_truediv a b)
      | Mod =>
          if (b =? 0)%Z then Raise (ZeroDivisionError int_mod_zero)
          else Ok (Int (a mod b))
      | Pow =>
          if (b <? 0)%Z then lift (int_pow_neg a b)
          else Ok (Int (a ^ b))
      | _ => Raise (ValueError "Unsupported expression")
      end
  | _, _ => lift (inexact_binop op left right)
  end.

Definition positive (v : value) : value :=
  match v with
  | Boolean b => Int (if b then 1 else 0)
  | _ => v
  end.

Definition negative (v : value) : value :=
  match v with
  | Int z => Int (- z)
  | Boolean b => Int (if b then (-1) else 0)
  | Inexact x => Inexact (inexact_neg x)
  end.

Definition lookup_name (id : string) : option inexact :=
  match find (fun p => String.eqb (fst p) id) ALLOWED_NAMES with
  | Some p => Some (snd p)
  | None => None
  end.

Definition unsupported : exn := ValueError "Unsupported expression".

Fixpoint _eval (n : node) : Result value :=
  match n with
  (* ast.Num: a Constant holding an int, float or complex, not a bool *)
  | Constant (CInt z) => Ok (Int z)
  | Constant (CFloat lit) | Constant (CImag lit) => Ok (Inexact (of_literal lit))
  (* a Constant whose value is an instance of int or float *)
  | Constant (CBool b) => Ok (Boolean b)
  | BinOp l op r =>
      rbind (_eval l) (fun left =>
      rbind (_eval r) (fun right =>
      if allowed_operator op then arith op left right
      else Raise unsupported))
  | UnaryOp op e =>
      rbind (_eval e) (fun val =>
      match op with
      | UAdd => Ok (positive val)
      | USub => Ok (negative val)
      | _ => Raise unsupported
      end)
  | Name id =>
      match lookup_name id with
      | Some x => Ok (Inexact x)
      | None => Raise (ValueError ("Unknown name: " ++ id))
      end
  | _ => Raise unsupported
  end.

(** [eval]: parse, then evaluate the body of the tree. [visit] is not
    called. *)
Definition eval (expr : string) : Result value :=
  rbind (Parser.ast_parse expr) _eval.

(** [str(val)], as the f-string of [handle_calculator] renders it. *)
Definition value_str (v : value) : string :=
  match v with
  | Int z => Str.of_Z z
  | Boolean b => if b then "True" else "False"
  | Inexact x => inexact_str x
  end.

End WithFloat.
End SafeEvaluator.

(* ================================================================= *)
(** ** Simple Sentiment *)

Module Sentiment.

Definition POS_WORDS : list string :=
  ["good"; "great"; "excellent"; "awesome"; "amazing"; "love"; "like";
   "happy"; "satisfied"; "helpful"; "fast"; "fantastic"; "superb";
   "brilliant"; "wonderful"; "recommend"; "positive"; "smooth";
   "convenient"; "affordable"; "reasonable"; "polite"; "friendly";
   "quick"; "impressive"; "neat"; "clean"; "reliable"].

Definition NEG_WORDS : list string :=
  ["bad"; "poor"; "terrible"; "awful"; "hate"; "dislike"; "unhappy";
   "unsatisfied"; "slow"; "rude"; "broken"; "worst"; "late"; "expensive";
   "dirty"; "confusing"; "frustrating"; "unhelpful"; "problem"; "issue";
   "negative"; "buggy"; "crash"; "delay"].

Definition member (t : string) (l : list string) : bool :=
  existsb (String.eqb t) l.

(** [re.findall(r"[a-zA-Z']+", s)]: the maximal runs of letters and
    apostrophes. *)
Definition is_token_char (c : ascii) : bool :=
  Str.is_alpha c || (Str.code c =? 39)%N.

Fixpoint findall_aux (cur : string) (s : string) : list string :=
  match s with
  | EmptyString => match cur with EmptyString => [] | _ => [cur] end
  | String c s' =>
      if is_token_char c then findall_aux (cur ++ String c EmptyString) s'
      else match cur with
           | EmptyString => findall_aux EmptyString s'
           | _ => cur :: findall_aux EmptyString s'
           end
  end.

Definition findall_tokens (s : string) : list string := findall_aux EmptyString s.

Definition tally (score : Z) (t : string) : Z :=
  if member t POS_WORDS then (score + 1)%Z
  else if member t NEG_WORDS then (score - 1)%Z
  else score.

(** The score is the exact quotient; the program holds it as a float
    and only compares it with the thresholds 0.02 and -0.02. *)
Definition sentiment_score (text : string) : Q :=
  let tokens := findall_tokens (Str.lower text) in
  match tokens with
  | [] => 0%Q
  | _ => (fold_left tally tokens 0%Z # Pos.of_nat (Nat.max 1 (List.length tokens)))%Q
  end.

End Sentiment.

(* ================================================================= *)
(** ** Knowledge Base *)

Definition FAQ : list (string * string) :=
  [ ("sunk cost", "Sunk cost is money already spent and unrecoverable; ignore it when making future decisions.");
    ("opportunity cost", "Opportunity cost is the value of the next best alternative you give up when making a choice.");
    ("npv", "NPV (Net Present Value) = sum of discounted cash flows minus initial investment; choose projects with positive NPV.");
    ("irr", "IRR is the discount rate that makes NPV = 0; select projects with IRR above the required return.");
    ("capm", "CAPM: Expected Return = Rf + Beta * (Rm - Rf).");
    ("beta", "Beta measures a stock's sensitivity to market movements (beta > 1 more volatile than market).");
    ("perpetuity", "Perpetuity PV = C / r (first payment one period from now).");
    ("4p", "Marketing Mix 4P: Product, Price, Place, Promotion.");
    ("stp", "STP: Segmentation, Targeting, Positioning.");
    ("swot", "SWOT: Strengths, Weaknesses, Opportunities, Threats.");
    ("kpi", "KPI: Key Performance Indicatorâ€”quantifiable measure of performance over time.");
    ("lean", "Lean aims to eliminate waste (muda) and maximize customer value.");
    ("six sigma", "Six Sigma reduces process variation; DMAIC: Define, Measure, Analyze, Improve, Control.") ].

Definition SMALLTALK : list string :=
  [ "Totally noted.";
    "Got it!";
    "Interestingâ€”tell me more.";
    "Thanks for sharing!";
    "I'm here to helpâ€”what's next?" ].

Definition GREETINGS : list string :=
  [ "Hello! I'm your study buddy bot. What's your name?";
    "Hi there! Great to see you. How can I help today?";
    "Hey! Ready to learn something new?" ].

Definition GOODBYES : list string :=
  [ "Bye! Keep learning and stay awesome!";
    "See you laterâ€”good luck with your studies!";
    "Goodbye! Ping me anytime." ].

(* ================================================================= *)
(** ** The world outside the program, and the monad of its methods *)

(** The clock answers the successive calls of [now_str]; the dice are
    the raw draws behind [random.choice] and [random.randint]; [files]
    holds the text files by path, and [writable] tells whether a path
    can be opened for writing. *)
Record World := {
  clock : nat -> string;
  ticks : nat;
  today : string;
  dice : nat -> nat;
  rolls : nat;
  files : gmap string string;
  writable : string -> bool
}.

Definition tick (w : World) : World :=
  {| clock := clock w; ticks := S (ticks w); today := today w;
     dice := dice w; rolls := rolls w; files := files w;
     writable := writable w |}.

Definition roll (w : World) : World :=
  {| clock := clock w; ticks := ticks w; today := today w;
     dice := dice w; rolls := S (rolls w); files := files w;
     writable := writable w |}.

Definition write_file (path content : string) (w : World) : World :=
  {| clock := clock w; ticks := ticks w; today := today w;
     dice := dice w; rolls := rolls w;
     files := <[path := content]> (files w);
     writable := writable w |}.

(** What a file opened with [encoding="utf-8"] holds once the pieces
    [cs] have been written to it in turn and it is closed.  The writing
    ends where the maker of the pieces raises instead of giving one
    ([None]), and on the first piece that cannot be encoded, on which
    [write] raises; the pieces before stay in the file. *)
Fixpoint written (cs : list (option string)) : string :=
  match cs with
  | Some c :: cs' => if Str.encodable c then c ++ written cs' else EmptyString
  | _ => EmptyString
  end.

(** A method of an object with state [S]: it reads and changes the
    object and the world, and returns or raises. *)
Definition M (S A : Type) : Type := S -> World -> Result A * S * World.

Definition ret {S A} (a : A) : M S A := fun s w => (Ok a, s, w).

Definition raise {S A} (e : exn) : M S A := fun s w => (Raise e, s, w).

Definition bind {S A B} (m : M S A) (k : A -> M S B) : M S B :=
  fun s w =>
    match m s w with
    | (Ok a, s', w') => k a s' w'
    | (Raise e, s', w') => (Raise e, s', w')
    end.

Declare Scope py_scope.
Delimit Scope py_scope with py.
Notation "x <- m ;; k" := (bind m (fun x => k))
  (at level 100, m at next level, right associativity) : py_scope.
Notation "m ;; k" := (bind m (fun _ => k))
  (at level 100, right associativity) : py_scope.

Definition get {S} : M S S := fun s w => (Ok s, s, w).
Definition put {S} (s : S) : M S unit := fun _ w => (Ok tt, s, w).
Definition world {S} : M S World := fun s w => (Ok w, s, w).
Definition set_world {S} (w : World) : M S unit := fun s _ => (Ok tt, s, w).

(** [now_str()]: the next reading of the clock. *)
Definition now_str {S} : M S string :=
  fun s w => (Ok (clock w (ticks w)), s, tick w).

(** [random.randint(a, b)]: a draw brought into [a .. b]. *)
Definition randint {S} (a b : N) : M S N :=
  fun s w => (Ok (a + N.of_nat (dice w (rolls w)) mod (b - a + 1))%N, s, roll w).

(** [random.choice(seq)] on a non-empty list. *)
Definition choice {S} (seq : list string) : M S string :=
  fun s w =>
    match nth_error seq (dice w (rolls w) mod List.length seq) with
    | Some x => (Ok x, s, roll w)
    | None => (Raise (IndexError "Cannot choose from an empty sequence"), s, w)
    end.

(** Running a method of a component held in a field. *)
Definition within {S T A} (proj : S -> T) (inj : T -> S -> S) (m : M T A) : M S A :=
  fun s w =>
    match m (proj s) w with
    | (r, t', w') => (r, inj t' s, w')
    end.

(* ================================================================= *)
(** ** A model of the [json] module

    Documents are made of null, booleans, integers, strings, arrays and
    objects.  [dumps] follows [json.dump(..., ensure_ascii=False,
    indent=2)]; [loads] follows [json.load].  Numbers with a fraction or
    an exponent and [\u] escapes above 007f are outside the model and
    are read as errors. *)
Module Json.
#[local] Set Warnings "-register-all".

Inductive json :=
| JNull
| JBool (b : bool)
| JInt (z : Z)
| JStr (s : string)
| JArr (items : list json)
| JObj (members : list (string * json)).

Definition chr (n : N) : ascii := ascii_of_N n.
Definition quote : string := String (chr 34) EmptyString.
Definition backslash : string := String (chr 92) EmptyString.

Definition hex_digit (n : N) : ascii :=
  if (n <? 10)%N then chr (48 + n) else chr (87 + n).

(** The escapes of [json.encoder.encode_basestring]. *)
Definition escape_char (c : ascii) : string :=
  let n := Str.code c in
  if (n =? 34)%N then backslash ++ quote
  else if (n =? 92)%N then backslash ++ backslash
  else if (n =? 10)%N then backslash ++ "n"
  else if (n =? 13)%N then backslash ++ "r"
  else if (n =? 9)%N then backslash ++ "t"
  else if (n =? 8)%N then backslash ++ "b"
  else if (n =? 12)%N then backslash ++ "f"
  else if (n <? 32)%N
       then backslash ++ "u00" ++ String (hex_digit (n / 16)) (String (hex_digit (n mod 16)) EmptyString)
  else String c EmptyString.

Fixpoint escape (s : string) : string :=
  match s with
  | EmptyString => EmptyString
  | String c s' => escape_char c ++ escape s'
  end.

Definition dump_string (s : string) : string := quote ++ escape s ++ quote.

(** [ind] is the line break and indentation of the enclosing level. *)
Fixpoint dump (ind : string) (v : json) : string :=
  let inner := ind ++ "  " in
  match v with
  | JNull => "null"
  | JBool b => if b then "true" else "false"
  | JInt z => Str.of_Z z
  | JStr s => dump_string s
  | JArr [] => "[]"
  | JArr (x :: xs) =>
      let fix more (l : list json) : string :=
        match l with
        | [] => EmptyString
        | y :: l' => "," ++ inner ++ dump inner y ++ more l'
        end in
      "[" ++ inner ++ dump inner x ++ more xs ++ ind ++ "]"
  | JObj [] => "{}"
  | JObj ((k, x) :: kvs) =>
      let fix more (l : list (string * json)) : string :=
        match l with
        | [] => EmptyString
        | (k', y) :: l' => "," ++ inner ++ dump_string k' ++ ": " ++ dump inner y ++ more l'
        end in
      "{" ++ inner ++ dump_string k ++ ": " ++ dump inner x ++ more kvs ++ ind ++ "}"
  end.

Definition newline : string := String (chr 10) EmptyString.

Definition dumps (v : json) : string := dump newline v.

(** The text the encoder gives for a scalar.  [int.__repr__] raises on
    an integer of more than 4300 digits: [None]. *)
Definition scalar (v : json) : option string :=
  match v with
  | JInt z =>
      if (String.length (Str.of_N (Z.abs_N z)) <=? 4300)%nat
      then Some (Str.of_Z z) else None
  | _ => Some (dump EmptyString v)
  end.

(** A scalar item of an array, which comes in one piece with the
    bracket or the comma before it. *)
Definition after (buf : string) (piece : option string) : option string :=
  match piece with
  | Some t => Some (buf ++ t)
  | None => None
  end.

(** The pieces that [json.dump] writes one by one, as the encoder
    yields them with an indent; [None] is where the encoder raises
    instead.  In an array a scalar comes in one piece with the bracket
    or the comma before it, and an array or object after that piece; in
    an object the brace, the indentation, each key, each colon and each
    comma are pieces of their own. *)
Fixpoint chunks (ind : string) (v : json) : list (option string) :=
  let inner := ind ++ "  " in
  match v with
  | JArr [] => [Some "[]"]
  | JArr (x :: xs) =>
      let fix more (l : list json) : list (option string) :=
        match l with
        | [] => []
        | y :: l' =>
            List.app
              match y with
              | JArr _ | JObj _ => Some ("," ++ inner) :: chunks inner y
              | _ => [after ("," ++ inner) (scalar y)]
              end
              (more l')
        end in
      List.app
        match x with
        | JArr _ | JObj _ => Some ("[" ++ inner) :: chunks inner x
        | _ => [after ("[" ++ inner) (scalar x)]
        end
        (List.app (more xs) [Some ind; Some "]"])
  | JObj [] => [Some "{}"]
  | JObj ((k, x) :: kvs) =>
      let fix more (l : list (string * json)) : list (option string) :=
        match l with
        | [] => []
        | (k', y) :: l' =>
            Some ("," ++ inner) :: Some (dump_string k') :: Some ": "
              :: List.app (chunks inner y) (more l')
        end in
      Some "{" :: Some inner :: Some (dump_string k) :: Some ": "
        :: List.app (chunks inner x) (List.app (more kvs) [Some ind; Some "}"])
  | _ => [scalar v]
  end.

(** *** Decoding *)

Definition is_ws (c : ascii) : bool :=
  let n := Str.code c in
  (n =? 32)%N || (n =? 9)%N || (n =? 10)%N || (n =? 13)%N.

Fixpoint skip_ws (s : string) : string :=
  match s with
  | String c s' => if is_ws c then skip_ws s' else s
  | EmptyString => EmptyString
  end.

Definition hex_value (c : ascii) : option N :=
  let n := Str.code c in
  if Str.is_digit c then Some (n - 48)%N
  else if Str.between 97 102 c then Some (n - 87)%N
  else if Str.between 65 70 c then Some (n - 55)%N
  else None.

Definition unescape (c : ascii) : option ascii :=
  let n := Str.code c in
  if (n =? 34)%N then Some (chr 34)
  else if (n =? 92)%N then Some (chr 92)
  else if (n =? 47)%N then Some (chr 47)
  else if (n =? 98)%N then Some (chr 8)
  else if (n =? 102)%N then Some (chr 12)
  else if (n =? 110)%N then Some (chr 10)
  else if (n =? 114)%N then Some (chr 13)
  else if (n =? 116)%N then Some (chr 9)
  else None.

Definition hex4 (a b c d : ascii) : option N :=
  match hex_value a, hex_value b, hex_value c, hex_value d with
  | Some x, Some y, Some z, Some t => Some (((x * 16 + y) * 16 + z) * 16 + t)%N
  | _, _, _, _ => None
  end.

(** The text of a string, read from just after its opening quote. *)
Fixpoint scan_string (s : string) : option (string * string) :=
  match s with
  | EmptyString => None
  | String c s' =>
      if (Str.code c =? 34)%N then Some (EmptyString, s')
      else if (Str.code c =? 92)%N then
        match s' with
        | String e s'' =>
            if (Str.code e =? 117)%N then
              match s'' with
              | String h1 (String h2 (String h3 (String h4 s5))) =>
                  match hex4 h1 h2 h3 h4 with
                  | Some n =>
                      if (n <? 128)%N then
                        match scan_string s5 with
                        | Some (t, r) => Some (String (chr n) t, r)
                        | None => None
                        end
                      else None
                  | None => None
                  end
              | _ => None
              end
            else
              match unescape e with
              | Some x =>
                  match scan_string s'' with
                  | Some (t, r) => Some (String x t, r)
                  | None => None
                  end
              | None => None
              end
        | EmptyString => None
        end
      else if (Str.code c <? 32)%N then None
      else
        match scan_string s' with
        | Some (t, r) => Some (String c t, r)
        | None => None
        end
  end.

Fixpoint scan_digits (acc : N) (s : string) : N * string :=
  match s with
  | String c s' =>
      if Str.is_digit c then scan_digits (10 * acc + (Str.code c - 48)) s'
      else (acc, s)
  | EmptyString => (acc, s)
  end.

Definition starts_fraction (s : string) : bool :=
  match s with
  | String c _ =>
      let n := Str.code c in (n =? 46)%N || (n =? 101)%N || (n =? 69)%N
  | EmptyString => false
  end.

(** An integer: [0], or a non-zero digit followed by digits. *)
Definition scan_natural (s : string) : option (N * string) :=
  match s with
  | String c s' =>
      if (Str.code c =? 48)%N then
        if starts_fraction s' then None else Some (0%N, s')
      else if Str.is_digit c then
        let '(n, r) := scan_digits 0 s in
        if starts_fraction r then None else Some (n, r)
      else None
  | EmptyString => None
  end.

Definition scan_number (s : string) : option (json * string) :=
  match s with
  | String c s' =>
      if (Str.code c =? 45)%N then
        match scan_natural s' with
        | Some (n, r) => Some (JInt (- Z.of_N n), r)
        | None => None
        end
      else
        match scan_natural s with
        | Some (n, r) => Some (JInt (Z.of_N n), r)
        | None => None
        end
  | EmptyString => None
  end.

(** Building a [dict] from pairs: a later value for a key replaces the
    earlier one, in the earlier position. *)
Fixpoint dict_set (k : string) (v : json) (d : list (string * json)) : list (string * json) :=
  match d with
  | [] => [(k, v)]
  | (k', v') :: d' =>
      if String.eqb k' k then (k', v) :: d' else (k', v') :: dict_set k v d'
  end.

Definition dict_of (pairs : list (string * json)) : list (string * json) :=
  fold_left (fun d kv => dict_set (fst kv) (snd kv) d) pairs [].

Fixpoint dict_get (k : string) (d : list (string * json)) : option json :=
  match d with
  | [] => None
  | (k', v) :: d' => if String.eqb k' k then Some v else dict_get k d'
  end.

(** What the decoder is reading: a value, the items of an array after
    [acc], or the members of an object after [acc]. *)
Inductive goal :=
| GValue
| GItems (acc : list json)
| GMembers (acc : list (string * json)).

Fixpoint parse (fuel : nat) (g : goal) (s : string) : option (json * string) :=
  match fuel with
  | O => None
  | S f =>
      match g with
      | GValue =>
          match skip_ws s with
          | EmptyString => None
          | String c r as s0 =>
              let n := Str.code c in
              if (n =? 34)%N then
                match scan_string r with
                | Some (x, r') => Some (JStr x, r')
                | None => None
                end
              else if (n =? 91)%N then
                match skip_ws r with
                | String d r' =>
                    if (Str.code d =? 93)%N then Some (JArr [], r')
                    else parse f (GItems []) r
                | EmptyString => None
                end
              else if (n =? 123)%N then
                match skip_ws r with
                | String d r' =>
                    if (Str.code d =? 125)%N then Some (JObj [], r')
                    else parse f (GMembers []) r
                | EmptyString => None
                end
              else if (n =? 110)%N then
                if String.prefix "null" s0 then Some (JNull, Str.drop 4 s0) else None
              else if (n =? 116)%N then
                if String.prefix "true" s0 then Some (JBool true, Str.drop 4 s0) else None
              else if (n =? 102)%N then
                if String.prefix "false" s0 then Some (JBool false, Str.drop 5 s0) else None
              else scan_number s0
          end
      | GItems acc =>
          match parse f GValue s with
          | Some (v, r) =>
              match skip_ws r with
              | String d r' =>
                  if (Str.code d =? 44)%N then parse f (GItems (v :: acc)) r'
                  else if (Str.code d =? 93)%N then Some (JArr (List.rev (v :: acc)), r')
                  else None
              | EmptyString => None
              end
          | None => None
          end
      | GMembers acc =>
          match skip_ws s with
          | String c r =>
              if (Str.code c =? 34)%N then
                match scan_string r with
                | Some (k, r1) =>
                    match skip_ws r1 with
                    | String d r2 =>
                        if (Str.code d =? 58)%N then
                          match parse f GValue r2 with
                          | Some (v, r3) =>
                              match skip_ws r3 with
                              | String e r4 =>
                                  if (Str.code e =? 44)%N
                                  then parse f (GMembers ((k, v) :: acc)) r4
                                  else if (Str.code e =? 125)%N
                                  then Some (JObj (dict_of (List.rev ((k, v) :: acc))), r4)
                                  else None
                              | EmptyString => None
                              end
                          | None => None
                          end
                        else None
                    | EmptyString => None
                    end
                | None => None
                end
              else None
          | EmptyString => None
          end
      end
  end.

(** [json.loads]: one value, then nothing but white space. *)
Definition loads (s : string) : option json :=
  match parse (S (String.length s)) GValue s with
  | Some (v, r) =>
      match skip_ws r with
      | EmptyString => Some v
      | _ => None
      end
  | None => None
  end.

End Json.

(* ================================================================= *)
(** ** Memory *)

(** One entry of [data["history"]]: the dict [{time, role, text}]. *)
Record HistoryEntry := {
  h_time : string;
  h_role : string;
  h_text : string
}.

(** [Memory.data]: the dict with the keys [user_name], [preferences]
    and [history]. *)
Record MemData := {
  user_name : option string;
  preferences : list (string * Json.json);
  history : list HistoryEntry
}.

Record Memory := {
  path : string;
  data : MemData
}.

Module Mem.
Import Json.
Local Open Scope py_scope.

Definition empty_data : MemData :=
  {| user_name := None; preferences := []; history := [] |}.

Definition entry_to_json (e : HistoryEntry) : json :=
  JObj [("time", JStr (h_time e)); ("role", JStr (h_role e)); ("text", JStr (h_text e))].

Definition data_to_json (d : MemData) : json :=
  JObj [ ("user_name", match user_name d with Some n => JStr n | None => JNull end);
         ("preferences", JObj (preferences d));
         ("history", JArr (List.map entry_to_json (history d))) ].

Definition entry_of_json (j : json) : option HistoryEntry :=
  match j with
  | JObj m =>
      match dict_get "time" m, dict_get "role" m, dict_get "text" m with
      | Some (JStr t), Some (JStr r), Some (JStr x) =>
          Some {| h_time := t; h_role := r; h_text := x |}
      | _, _, _ => None
      end
  | _ => None
  end.

Fixpoint entries_of_json (l : list json) : option (list HistoryEntry) :=
  match l with
  | [] => Some []
  | j :: l' =>
      match entry_of_json j, entries_of_json l' with
      | Some e, Some es => Some (e :: es)
      | _, _ => None
      end
  end.

(** The record held by a document of the expected shape. *)
Definition data_of_json (j : json) : option MemData :=
  match j with
  | JObj m =>
      match dict_get "user_name" m, dict_get "preferences" m, dict_get "history" m with
      | Some u, Some (JObj p), Some (JArr h) =>
          match (match u with
                 | JNull => Some None
                 | JStr n => Some (Some n)
                 | _ => None
                 end), entries_of_json h with
          | Some name, Some es =>
              Some {| user_name := name; preferences := p; history := es |}
          | _, _ => None
          end
      | _, _, _ => None
      end
  | _ => None
  end.

Definition set_data (d : MemData) : M Memory unit :=
  fun m w => (Ok tt, {| path := path m; data := d |}, w).

(** [load]: when the file exists and holds a document, [data] becomes
    that document; any failure is passed over.  A document that is not
    of the shape of the record is passed over as well (the program
    would keep it and fail at its next use of [data]). *)
Definition load : M Memory unit :=
  fun m w =>
    match files w !! path m with
    | Some content =>
        match loads content with
        | Some j =>
            match data_of_json j with
            | Some d => (Ok tt, {| path := path m; data := d |}, w)
            | None => (Ok tt, m, w)
            end
        | None => (Ok tt, m, w)
        end
    | None => (Ok tt, m, w)
    end.

(** [save]: the file is opened, which empties it, and [json.dump]
    writes [data] to it piece by piece.  A failure to open the file is
    passed over, and so is a piece that cannot be encoded, which leaves
    in the file the pieces written before it. *)
Definition save : M Memory unit :=
  fun m w =>
    if writable w (path m)
    then (Ok tt, m, write_file (path m) (written (chunks newline (data_to_json (data m)))) w)
    else (Ok tt, m, w).

(** [Memory(path)]: the default record, then [load]. *)
Definition init (p : string) (w : World) : Memory * World :=
  match load {| path := p; data := empty_data |} w with
  | (_, m, w') => (m, w')
  end.

(** [l[-n:]] *)
Definition last_n {A} (n : nat) (l : list A) : list A :=
  skipn (List.length l - n) l.

Definition with_history (h : list HistoryEntry) (d : MemData) : MemData :=
  {| user_name := user_name d; preferences := preferences d; history := h |}.

Definition with_user_name (n : option string) (d : MemData) : MemData :=
  {| user_name := n; preferences := preferences d; history := history d |}.

Definition add_history (role text : string) : M Memory unit :=
  t <- now_str ;;
  m <- get ;;
  let h := (history (data m) ++ [{| h_time := t; h_role := role; h_text := text |}])%list in
  let h := if (400 <? List.length h)%nat then last_n 400 h else h in
  set_data (with_history h (data m)) ;;
  save.

End Mem.

(* ================================================================= *)
(** ** NLU/NLP *)

Definition word_pattern (ws : list string) : Re.pattern :=
  Re.compile (Re.Seq Re.WordB (Re.Seq (Re.Group 1 (Re.words ws)) Re.WordB)) true.

Definition command_pattern (cmd : string) : Re.pattern :=
  Re.compile (Re.Seq Re.Bol (Re.Seq (Re.Lit cmd) Re.Eol)) true.

Definition command_arg_pattern (cmd : string) : Re.pattern :=
  Re.compile
    (Re.Seq Re.Bol (Re.Seq (Re.Lit cmd) (Re.Seq (Re.Plus Re.Space)
       (Re.Seq (Re.Group 1 (Re.Plus Re.Dot)) Re.Eol)))) true.

Definition INTENT_PATTERNS : list (string * Re.pattern) :=
  [ ("greet", word_pattern ["hi"; "hello"; "hey"; "assalam"; "salam"]);
    ("goodbye", word_pattern ["bye"; "goodbye"; "see you"; "tata"]);
    ("set_name",
       Re.compile (Re.Seq Re.WordB (Re.Seq (Re.Lit "my name is ") (Re.Group 1 (Re.Plus Re.Dot)))) true);
    ("ask_time", word_pattern ["time"; "clock"; "what time"]);
    ("ask_date", word_pattern ["date"; "today"]);
    ("calculator",
       Re.compile
         (Re.Alt (Re.Seq Re.Bol (Re.Lit "="))
                 (Re.Seq Re.WordB (Re.Seq (Re.Group 1 (Re.words ["calc"; "calculate"; "evaluate"])) Re.WordB)))
         true);
    ("faq", word_pattern ["sunk cost"; "opportunity cost"; "npv"; "irr"; "capm"; "beta";
                          "perpetuity"; "4p"; "stp"; "swot"; "kpi"; "lean"; "six sigma"]);
    ("load_csv", command_arg_pattern "/loadcsv");
    ("setname_cmd", command_arg_pattern "/setname");
    ("help", command_pattern "/help");
    ("reset", command_pattern "/reset");
    ("export", command_pattern "/export_history");
    ("summary", command_pattern "/summary");
    ("complaint", word_pattern ["complain"; "issue"; "problem"; "refund"; "return"; "support"]) ].

(** The loop of [detect_intent]: the first pattern that is found. *)
Fixpoint first_match (patterns : list (string * Re.pattern)) (text : string)
  : option (string * Re.Match) :=
  match patterns with
  | [] => None
  | (name, pattern) :: patterns' =>
      match Re.search pattern text with
      | Some m => Some (name, m)
      | None => first_match patterns' text
      end
  end.

Definition detect_intent (text : string) : string * option Re.Match :=
  match first_match INTENT_PATTERNS text with
  | Some (name, m) => (name, Some m)
  | None =>
      (* fallback heuristics *)
      if existsb (fun k => Str.contains k text) ["help"; "commands"]
      then ("help", None)
      else ("smalltalk", None)
  end.

(* ================================================================= *)
(** ** A model of Python floats for the CSV statistics

    A finite float is its sign and the exact rational value of its
    magnitude; every operation rounds to binary64, to nearest with ties
    to even, as the interpreter does. *)
Module Float64.

Inductive pyfloat :=
| Finite (neg : bool) (mag : Q)
| Inf (neg : bool)
| NaN.

Definition pow2 (k : Z) : Q :=
  if (0 <=? k)%Z then inject_Z (2 ^ k) else (1 # Z.to_pos (2 ^ (- k)))%Q.

(** [floor (log2 x)] for a positive rational. *)
Definition ilog2 (x : Q) : Z :=
  let e := (Z.log2 (Qnum x) - Z.log2 (Zpos (Qden x)))%Z in
  if Qle_bool (pow2 e) x
  then (if Qle_bool (pow2 (e + 1)) x then e + 1 else e)%Z
  else (e - 1)%Z.

Definition round_half_even (x : Q) : Z :=
  let f := Qfloor x in
  match Qcompare (x - inject_Z f) (1 # 2) with
  | Lt => f
  | Gt => (f + 1)%Z
  | Eq => if Z.even f then f else (f + 1)%Z
  end.

Definition max_exact : Q := pow2 1024.

(** The spacing of the floats around a value whose binary exponent is
    [e]; below the normal range the spacing is that of the subnormals. *)
Definition ulp (e : Z) : Q := pow2 (Z.max e (-1022) - 52).

(** The float nearest to a positive rational; [None] on overflow. *)
Definition round_pos (x : Q) : option Q :=
  let u := ulp (ilog2 x) in
  let r := Qred (inject_Z (round_half_even (x / u)) * u) in
  if Qle_bool max_exact r then None else Some r.

Definition Qis_zero (x : Q) : bool := (Qnum x =? 0)%Z.
Definition Qis_neg (x : Q) : bool := (Qnum x <? 0)%Z.

(** The float nearest to a rational. *)
Definition of_Q (x : Q) : pyfloat :=
  if Qis_zero x then Finite false 0
  else match round_pos (Qabs x) with
       | Some r => Finite (Qis_neg x) r
       | None => Inf (Qis_neg x)
       end.

(** The float nearest to the square root of a non-negative rational. *)
Definition sqrt_of_Q (x : Q) : pyfloat :=
  if Qis_zero x then Finite false 0
  else
    let u := ulp (ilog2 x / 2) in
    let y := (x / (u * u))%Q in
    let m := Z.sqrt (Qfloor y) in
    let n :=
      match Qcompare (4 * y) (inject_Z ((2 * m + 1) * (2 * m + 1))) with
      | Lt => m
      | Gt => (m + 1)%Z
      | Eq => if Z.even m then m else (m + 1)%Z
      end in
    let r := Qred (inject_Z n * u) in
    if Qle_bool max_exact r then Inf false else Finite false r.

(** The signed exact value of a finite float. *)
Definition value (neg : bool) (mag : Q) : Q := if neg then (- mag)%Q else mag.

Definition is_finite (x : pyfloat) : bool :=
  match x with Finite _ _ => true | _ => false end.

(** [a + b] on finite floats. *)
Definition add (a b : pyfloat) : pyfloat :=
  match a, b with
  | Finite na ma, Finite nb mb =>
      let s := (value na ma + value nb mb)%Q in
      if Qis_zero s then Finite (na && nb) 0 else of_Q s
  | _, _ => NaN
  end.

(** [a / 2] on a finite float. *)
Definition half (a : pyfloat) : pyfloat :=
  match a with
  | Finite n m =>
      if Qis_zero m then Finite n 0
      else match round_pos (m / 2) with
           | Some r => Finite n r
           | None => Inf n
           end
  | _ => a
  end.

(** *** [float(s)] *)

(** A run of digits in which single underscores may separate digits. *)
Fixpoint digit_group (after_digit : bool) (acc : string) (s : string) : option (string * string) :=
  match s with
  | String c s' =>
      if Str.is_digit c then digit_group true (acc ++ String c EmptyString) s'
      else if (Str.code c =? 95)%N then
        match s' with
        | String d _ =>
            if after_digit && Str.is_digit d then digit_group false acc s'
            else None
        | EmptyString => None
        end
      else Some (acc, s)
  | EmptyString => Some (acc, s)
  end.

Fixpoint nat_of_digits (acc : Z) (s : string) : Z :=
  match s with
  | EmptyString => acc
  | String c s' => nat_of_digits (10 * acc + Z.of_N (Str.code c - 48)) s'
  end.

Definition pow10 (k : Z) : Q :=
  if (0 <=? k)%Z then inject_Z (10 ^ k) else (1 # Z.to_pos (10 ^ (- k)))%Q.

Definition split_sign (s : string) : bool * string :=
  match s with
  | String "-" s' => (true, s')
  | String "+" s' => (false, s')
  | _ => (false, s)
  end.

Definition scan_exponent (s : string) : option Z :=
  match s with
  | EmptyString => Some 0%Z
  | String c s' =>
      if (Str.code c =? 101)%N || (Str.code c =? 69)%N then
        let '(neg, s'') := split_sign s' in
        match digit_group false EmptyString s'' with
        | Some (String d ds, EmptyString) =>
            let e := nat_of_digits 0 (String d ds) in
            Some (if neg then (- e)%Z else e)
        | _ => None
        end
      else None
  end.

(** The rational denoted by a decimal numeral: digits, an optional
    fraction, an optional exponent; at least one digit in all. *)
Definition decimal_value (s : string) : option Q :=
  match digit_group false EmptyString s with
  | Some (ip, r) =>
      let '(fp, r') :=
        match r with
        | String "." r1 =>
            match r1 with
            | String d _ =>
                if Str.is_digit d then
                  match digit_group false EmptyString r1 with
                  | Some (f, r2) => (Some f, r2)
                  | None => (None, r1)
                  end
                else (Some EmptyString, r1)
            | EmptyString => (Some EmptyString, r1)
            end
        | _ => (Some EmptyString, r)
        end in
      match fp with
      | Some f =>
          match (ip ++ f) with
          | EmptyString => None
          | ds =>
              match scan_exponent r' with
              | Some e =>
                  Some (Qred (inject_Z (nat_of_digits 0 ds)
                              * pow10 (e - Z.of_nat (String.length f))))
              | None => None
              end
          end
      | None => None
      end
  | None => None
  end.

(** [float(s)] on a string: surrounding white space is dropped, then a
    sign, then [inf], [infinity], [nan] in any case or a decimal
    numeral.  [None] stands for the [ValueError]. *)
Definition float_of_str (s : string) : option pyfloat :=
  let '(neg, body) := split_sign (Str.strip s) in
  let low := Str.lower body in
  if String.eqb low "inf" || String.eqb low "infinity" then Some (Inf neg)
  else if String.eqb low "nan" then Some NaN
  else match decimal_value body with
       | Some q =>
           if Qis_zero q then Some (Finite neg 0)
           else match round_pos q with
                | Some r => Some (Finite neg r)
                | None => Some (Inf neg)
                end
       | None => None
       end.

(** *** [format(x, ".3f")] *)

Definition pad3 (n : Z) : string :=
  let d := Str.of_Z n in
  match String.length d with
  | 1 => "00" ++ d
  | 2 => "0" ++ d
  | _ => d
  end.

Definition format3 (x : pyfloat) : string :=
  match x with
  | Finite neg m =>
      let k := round_half_even (m * 1000) in
      (if neg then "-" else "") ++ Str.of_Z (k / 1000) ++ "." ++ pad3 (k mod 1000)
  | Inf neg => if neg then "-inf" else "inf"
  | NaN => "nan"
  end.

End Float64.

(* ================================================================= *)
(** ** A model of the [statistics] module on finite floats

    [mean] and [pstdev] work on the exact rational values of the data
    and round once at the end; [median] works on the floats. *)
Module Stats.
Import Float64.

Definition exact (x : pyfloat) : Q :=
  match x with
  | Finite n m => value n m
  | _ => 0%Q
  end.

Definition Qsum (l : list Q) : Q := fold_right Qplus 0%Q l.

Definition count_Q (l : list pyfloat) : Q := inject_Z (Z.of_nat (List.length l)).

Definition exact_mean (data : list pyfloat) : Q :=
  Qred (Qsum (List.map exact data) / count_Q data).

(** Sum of the squared deviations from the exact mean. *)
Definition exact_ss (data : list pyfloat) : Q :=
  let c := exact_mean data in
  Qred (Qsum (List.map (fun x => (exact x - c) * (exact x - c))%Q data)).

(** The population variance: the divisor is the number of data. *)
Definition exact_pvariance (data : list pyfloat) : Q :=
  Qred (exact_ss data / count_Q data).

Definition mean (data : list pyfloat) : pyfloat := of_Q (exact_mean data).

Definition pstdev (data : list pyfloat) : pyfloat := sqrt_of_Q (exact_pvariance data).

Fixpoint insert (x : pyfloat) (l : list pyfloat) : list pyfloat :=
  match l with
  | [] => [x]
  | y :: l' => if Qle_bool (exact x) (exact y) then x :: l else y :: insert x l'
  end.

(** [sorted(data)] *)
Definition sorted (data : list pyfloat) : list pyfloat :=
  fold_right insert [] data.

Definition median (data : list pyfloat) : pyfloat :=
  let s := sorted data in
  let n := List.length s in
  if Nat.odd n then nth (n / 2) s NaN
  else half (add (nth (n / 2 - 1) s NaN) (nth (n / 2) s NaN)).

End Stats.

(* ================================================================= *)
(** ** Library capabilities taken as parameters *)

(** A row of [csv.DictReader]: the value under each field name, [None]
    where the line was short. *)
Definition Row : Type := list (string * option string).

Class PyLibs := {
  (** [csv.DictReader] over the text of a file: [fieldnames] and rows *)
  csv_DictReader : string -> option (list string) * list Row;
  (** the order in which [set(l)] is iterated *)
  set_iter : list string -> list string
}.

(* ================================================================= *)
(** ** Chatbot Core *)

Record Slots := {
  product : option string;
  issue : option string;
  order_id : option string
}.

(** [pending_task]: the dict with the keys [type] and [slots]. *)
Record Task := {
  task_type : string;
  slots : Slots
}.

Record Chatbot := {
  mem : Memory;
  pending_task : option Task;
  loaded_csv : option string;
  csv_headers : list string;
  csv_rows : list Row
}.

Module Bot.
Import Float64.
Local Open Scope py_scope.

Section WithInterpreter.
Context `{PyFloat} `{PyLibs}.

Definition nl : string := String (ascii_of_N 10) EmptyString.

Definition set_mem (m : Memory) (b : Chatbot) : Chatbot :=
  {| mem := m; pending_task := pending_task b; loaded_csv := loaded_csv b;
     csv_headers := csv_headers b; csv_rows := csv_rows b |}.

Definition set_pending (t : option Task) (b : Chatbot) : Chatbot :=
  {| mem := mem b; pending_task := t; loaded_csv := loaded_csv b;
     csv_headers := csv_headers b; csv_rows := csv_rows b |}.

Definition set_csv (p : option string) (hs : list string) (rs : list Row) (b : Chatbot) : Chatbot :=
  {| mem := mem b; pending_task := pending_task b; loaded_csv := p;
     csv_headers := hs; csv_rows := rs |}.

(** A method of [self.mem], run from the chatbot. *)
Definition on_mem {A} (m : M Memory A) : M Chatbot A := within mem set_mem m.

Definition modify (f : Chatbot -> Chatbot) : M Chatbot unit :=
  fun b w => (Ok tt, f b, w).

(** [Chatbot()] *)
Definition init (w : World) : Chatbot * World :=
  let '(m, w') := Mem.init "bot_memory.json" w in
  ({| mem := m; pending_task := None; loaded_csv := None;
      csv_headers := []; csv_rows := [] |}, w').

(** *** Reply helpers *)

Definition reply (text : string) : M Chatbot string :=
  on_mem (Mem.add_history "assistant" text) ;;
  ret text.

(** *** Handlers *)

Definition handle_greet : M Chatbot string :=
  b <- get ;;
  match user_name (data (mem b)) with
  | Some (String c n) => reply ("Hello " ++ String c n ++ "! How can I help today?")
  | _ => g <- choice GREETINGS ;; reply g
  end.

Definition handle_goodbye : M Chatbot string :=
  g <- choice GOODBYES ;; reply g.

(** [m.group(1).strip()]; when the group took no part in the match
    [m.group(1)] is [None], which has no [strip]. *)
Definition group1_strip (m : Re.Match) : Result string :=
  match Re.m_group1 m with
  | Some g => Ok (Str.strip g)
  | None => Raise (AttributeError "'NoneType' object has no attribute 'strip'")
  end.

Definition set_user_name (n : option string) : M Chatbot unit :=
  on_mem (m <- get ;; Mem.set_data (Mem.with_user_name n (data m)) ;; Mem.save).

Definition shown_name (b : Chatbot) : string :=
  match user_name (data (mem b)) with Some n => n | None => "None" end.

Definition handle_set_name (m : Re.Match) : M Chatbot string :=
  match group1_strip m with
  | Raise e => raise e
  | Ok g =>
      match Str.split g with
      | name :: _ =>
          set_user_name (Some (Str.title name)) ;;
          b <- get ;;
          reply ("Nice to meet you, " ++ shown_name b ++ "! I'll remember your name.")
      | [] => raise (IndexError "list index out of range")
      end
  end.

Definition handle_setname_cmd (m : Re.Match) : M Chatbot string :=
  match group1_strip m with
  | Raise e => raise e
  | Ok name =>
      set_user_name (Some (Str.title name)) ;;
      b <- get ;;
      reply ("Got it! I'll call you " ++ shown_name b ++ ".")
  end.

Definition handle_time : M Chatbot string :=
  t <- now_str ;;
  reply ("Current time: " ++ t).

Definition handle_date : M Chatbot string :=
  w <- world ;;
  reply ("Today is " ++ today w ++ ".").

Definition help_text : string :=
  "Commands:" ++ nl ++
  "  /help                Show this help" ++ nl ++
  "  /setname Name        Save your name" ++ nl ++
  "  /loadcsv path.csv    Load a CSV and get insights" ++ nl ++
  "  /summary             Summarize our recent chat" ++ nl ++
  "  /export_history      Save conversation to chat_history.txt" ++ nl ++
  "  /reset               Clear memory (name & history)" ++ nl ++ nl ++
  "Other features:" ++ nl ++
  "- Type 'sunk cost', 'NPV', 'CAPM', etc. for quick BBA FAQs" ++ nl ++
  "- Start a complaint (say 'I have a problem...') to open a support ticket" ++ nl ++
  "- Calculator: start with '=' or type 'calculate 2*(10+5)'" ++ nl ++
  "- Ask date/time, casual chat, and more!".

Definition handle_help : M Chatbot string := reply help_text.

Definition export_line (item : HistoryEntry) : string :=
  "[" ++ h_time item ++ "] " ++ Str.upper (h_role item) ++ ": " ++ h_text item ++ nl.

Definition handle_export : M Chatbot string :=
  let path := "chat_history.txt" in
  b <- get ;;
  w <- world ;;
  if writable w path then
    set_world (write_file path (String.concat "" (List.map export_line (history (data (mem b))))) w) ;;
    reply ("History exported to " ++ path ++ " (in the current folder).")
  else raise (OSError "cannot open chat_history.txt").

Definition count_of (i : string) (l : list string) : nat :=
  List.length (List.filter (String.eqb i) l).

Definition handle_summary : M Chatbot string :=
  b <- get ;;
  let hist := Mem.last_n 20 (history (data (mem b))) in
  (* simple extractive summary: pick assistant/user highlights *)
  let user_msgs := List.map h_text (List.filter (fun h => String.eqb (h_role h) "user") hist) in
  let intents := List.map (fun u => fst (detect_intent (normalize u))) user_msgs in
  let intent_counts := List.map (fun i => (i, count_of i intents)) (set_iter intents) in
  let bullets :=
    Str.join ", " (List.map (fun kv => fst kv ++ "Ã—" ++ Str.of_nat (snd kv)) intent_counts) in
  let bullets := match bullets with EmptyString => "varied topics" | _ => bullets end in
  reply ("Recent summary: we discussed " ++ bullets ++ ". I also saved your name if you set it.").

Definition handle_reset : M Chatbot string :=
  on_mem (Mem.set_data Mem.empty_data ;; Mem.save) ;;
  reply "Memory cleared. Fresh start!".

Definition calc_prefix : Re.pattern :=
  Re.compile
    (Re.Seq Re.Bol
       (Re.Seq (Re.Group 1 (Re.Alt (Re.Seq (Re.Lit "calc") (Re.Opt (Re.Group 2 (Re.Lit "ulate"))))
                                   (Re.Lit "evaluate")))
               (Re.Plus Re.Space)))
    true.

Definition handle_calculator (text : string) : M Chatbot string :=
  (* extract expression after '=' if present *)
  let expr :=
    if Str.startswith (Str.strip text) "="
    then Str.drop 1 (Str.strip text)
    else text in
  let expr := Re.sub calc_prefix "" expr in
  match SafeEvaluator.eval expr with
  | Ok val => reply ("Result: " ++ SafeEvaluator.value_str val)
  | Raise e => reply ("Sorry, I couldn't evaluate that. (" ++ exn_str e ++ ")")
  end.

Definition handle_faq (text : string) : M Chatbot string :=
  match List.find (fun kv => Str.contains (fst kv) text) FAQ with
  | Some (k, v) => reply (Str.title k ++ ": " ++ v)
  | None => reply "I didn't find that topic. Try /help for supported FAQs."
  end.

(** **** CSV quick insights *)

Definition row_get (h : string) (r : Row) : option string :=
  match List.find (fun kv => String.eqb (fst kv) h) r with
  | Some (_, v) => v
  | None => None
  end.

(** [next((r[h] for r in rows if r.get(h) not in (None, '')), 'nan')] *)
Fixpoint first_value (h : string) (rows : list Row) : string :=
  match rows with
  | [] => "nan"
  | r :: rows' =>
      match row_get h r with
      | Some (String c v) => String c v
      | _ => first_value h rows'
      end
  end.

Definition is_numeric_col (rows : list Row) (h : string) : bool :=
  match float_of_str (first_value h rows) with
  | Some _ => true
  | None => false
  end.

(** The values of a column that [float] accepts, in row order. *)
Fixpoint column_values (col : string) (rows : list Row) : list pyfloat :=
  match rows with
  | [] => []
  | r :: rows' =>
      match row_get col r with
      | Some v =>
          match float_of_str v with
          | Some x => x :: column_values col rows'
          | None => column_values col rows'
          end
      | None => column_values col rows'
      end
  end.

(** The line of statistics.  On data that hold an infinity or a nan
    [mean] and [median] return, and [pstdev] raises: its sum of squares
    is then a float, which has no [numerator]. *)
Definition stats_line (col : string) (vals : list pyfloat) : Result string :=
  rbind (if forallb is_finite vals
         then Ok (Stats.mean vals, Stats.median vals, Stats.pstdev vals)
         else Raise (AttributeError "'float' object has no attribute 'numerator'"))
    (fun '(mu, med, sd) =>
       Ok ("Quick stats for '" ++ col ++ "': count=" ++ Str.of_nat (List.length vals)
           ++ ", mean=" ++ format3 mu ++ ", "
           ++ "median=" ++ format3 med ++ ", stdev=" ++ format3 sd)).

(** The part of [handle_load_csv] after the rows are read. *)
Definition csv_insights (path : string) (headers : list string) (rows : list Row)
  : Result string :=
  let msg := "Loaded " ++ path ++ " with " ++ Str.of_nat (List.length rows)
             ++ " rows and " ++ Str.of_nat (List.length headers) ++ " columns." in
  (* Basic numeric stats for first numeric column *)
  let numeric_cols := List.filter (is_numeric_col rows) headers in
  match numeric_cols with
  | col :: _ =>
      match column_values col rows with
      | [] => Ok msg
      | vals => rbind (stats_line col vals) (fun line => Ok (msg ++ nl ++ line))
      end
  | [] => Ok msg
  end.

Definition handle_load_csv (m : Re.Match) : M Chatbot string :=
  match group1_strip m with
  | Raise e => raise e
  | Ok g =>
  let path := Str.strip_char (ascii_of_N 34) g in
  w <- world ;;
  match files w !! path with
  | None => reply "CSV not found. Please provide a valid path."
  | Some content =>
      let '(fieldnames, rows) := csv_DictReader content in
      let headers := match fieldnames with Some hs => hs | None => [] end in
      modify (set_csv (Some path) headers rows) ;;
      match rows with
      | [] => reply ("Loaded " ++ path ++ ", but it has no rows.")
      | _ =>
          match csv_insights path headers rows with
          | Ok text => reply text
          | Raise e => raise e
          end
      end
  end
  end.

(** **** Complaint (slot filling) *)

Definition new_task : Task :=
  {| task_type := "complaint";
     slots := {| product := None; issue := None; order_id := None |} |}.

Definition with_slots (s : Slots) (t : Task) : Task :=
  {| task_type := task_type t; slots := s |}.

Definition shown (o : option string) : string :=
  match o with Some s => s | None => "None" end.

(** [slots['order_id'] or 'N/A'] *)
Definition or_na (o : option string) : string :=
  match o with
  | Some (String c s) => String c s
  | _ => "N/A"
  end.

Definition ticket_text (ticket_id : string) (s : Slots) : string :=
  "Thanks! Ticket " ++ ticket_id ++ " created. Product: " ++ shown (product s) ++ ". "
  ++ "Issue: " ++ shown (issue s) ++ ". Order ID: " ++ or_na (order_id s)
  ++ ". Our team will follow up.".

Definition handle_complaint (text : string) : M Chatbot string :=
  b <- get ;;
  (* Start or continue a complaint ticket *)
  match pending_task b with
  | None =>
      modify (set_pending (Some new_task)) ;;
      reply "I'm opening a support ticket. What product is this about?"
  | Some task =>
      if negb (String.eqb (task_type task) "complaint") then
        modify (set_pending (Some new_task)) ;;
        reply "I'm opening a support ticket. What product is this about?"
      else
        (* continue *)
        let s := slots task in
        match product s, issue s, order_id s with
        | None, _, _ =>
            modify (set_pending (Some (with_slots
              {| product := Some text; issue := issue s; order_id := order_id s |} task))) ;;
            reply "Got it. Briefly describe the issue."
        | Some _, None, _ =>
            modify (set_pending (Some (with_slots
              {| product := product s; issue := Some text; order_id := order_id s |} task))) ;;
            reply "Please share your order ID (or say 'none')."
        | Some _, Some _, None =>
            let oid := Str.strip text in
            let s' := {| product := product s; issue := issue s;
                         order_id := if String.eqb (Str.lower oid) "none" then None else Some oid |} in
            n <- randint 10000 99999 ;;
            let ticket_id := "TKT-" ++ Str.of_N n in
            modify (set_pending None) ;;
            reply (ticket_text ticket_id s')
        | Some _, Some _, Some _ =>
            reply "Your ticket is already created. Anything else?"
        end
  end.

Definition handle_smalltalk (text : string) : M Chatbot string :=
  let s := Sentiment.sentiment_score text in
  if Qlt_le_dec (2 # 100) s then
    t <- choice SMALLTALK ;; reply (t ++ " ðŸ˜Š")
  else if Qlt_le_dec s (- (2 # 100)) then
    reply "Sorry to hear that. Tell me moreâ€”maybe I can help."
  else
    t <- choice SMALLTALK ;; reply t.

(** *** Router *)

(** The chain of tests on the detected intent. *)
Definition dispatch (intent : string) (m : option Re.Match)
           (user_text user_text_raw : string) : M Chatbot string :=
  let on name := String.eqb intent name in
  if on "greet" then handle_greet
  else if on "goodbye" then handle_goodbye
  else match (if on "set_name" then m else None) with
  | Some m' => handle_set_name m'
  | None =>
  if on "ask_time" then handle_time
  else if on "ask_date" then handle_date
  else if on "calculator" then handle_calculator user_text_raw
  else if on "faq" then handle_faq user_text
  else match (if on "load_csv" then m else None) with
  | Some m' => handle_load_csv m'
  | None =>
  match (if on "setname_cmd" then m else None) with
  | Some m' => handle_setname_cmd m'
  | None =>
  if on "help" then handle_help
  else if on "reset" then handle_reset
  else if on "export" then handle_export
  else if on "summary" then handle_summary
  else if on "complaint" then handle_complaint user_text_raw
  (* default *)
  else handle_smalltalk user_text_raw
  end end end.

Definition classify_and_dispatch (user_text user_text_raw : string) : M Chatbot string :=
  let '(intent, m) := detect_intent user_text in
  dispatch intent m user_text user_text_raw.

Definition handle (user_text : string) : M Chatbot string :=
  let user_text_raw := user_text in
  let user_text := normalize user_text in
  on_mem (Mem.add_history "user" user_text_raw) ;;
  b <- get ;;
  (* If we are in a slot-filling flow, prioritize it unless commands *)
  match pending_task b with
  | Some task =>
      if negb (Str.startswith user_text "/") then
        if String.eqb (task_type task) "complaint"
        then handle_complaint user_text_raw
        else classify_and_dispatch user_text user_text_raw
      else classify_and_dispatch user_text user_text_raw
  | None => classify_and_dispatch user_text user_text_raw
  end.

End WithInterpreter.
End Bot.

(* ================================================================= *)
(** ** Entry Point *)

(** The console is the list of the lines typed, after which [input]
    meets the end of the input; what the program writes is kept line by
    line, the prompt of [input] included. *)
Module Main.

Inductive ending :=
| Left                (* the loop was left by [break] *)
| Failed (e : exn)    (* an exception went through [run] *)
| Running.            (* the rounds allowed were used up *)

Section WithInterpreter.
Context `{PyFloat} `{PyLibs}.

Definition banner : list string :=
  [ String.concat "" (List.repeat "=" 68);
    "Big AI Chatbot (No External Libraries)";
    "Type /help for commands. Type 'bye' to exit.";
    String.concat "" (List.repeat "=" 68) ].

(** The rounds of [while True], at most [rounds] of them. *)
Fixpoint loop (rounds : nat) (console : list string) (out : list string)
         (b : Chatbot) (w : World) : ending * list string * Chatbot * World :=
  match rounds with
  | 0 => (Running, out, b, w)
  | S rounds' =>
      let '(user, console', out) :=
        match console with
        | line :: console' => (line, console', (out ++ ["You: "])%list)
        | [] => ("bye", [], (out ++ ["You: "; ""])%list)
        end in
      match Str.strip user with
      | EmptyString => loop rounds' console' out b w
      | _ =>
          match Bot.handle user b w with
          | (Ok resp, b', w') =>
              if existsb (String.eqb resp) GOODBYES
              then (Left, (out ++ [resp])%list, b', w')
              else loop rounds' console' (out ++ [resp])%list b' w'
          | (Raise e, b', w') => (Failed e, out, b', w')
          end
      end
  end.

Definition run (rounds : nat) (console : list string) (w : World)
  : ending * list string * Chatbot * World :=
  let '(bot, w) := Bot.init w in
  (* greet on start *)
  match Bot.handle_greet bot w with
  | (Ok g, bot, w) => loop rounds console (banner ++ [g])%list bot w
  | (Raise e, bot, w) => (Failed e, banner, bot, w)
  end.

End WithInterpreter.
End Main.

(* ================================================================= *)
(** ** The small chat script ([chat.py])

    The script is one loop over the lines typed.  [input] raises
    [EOFError] at the end of the input, which nothing catches. *)
Module Chat.

Definition responses : list (string * list string) :=
  [ ("hello", ["Hi there!"; "Hello 👋"; "Hey! How can I help you?"]);
    ("bye", ["Goodbye!"; "See you later!"; "Take care!"]);
    ("thanks", ["You're welcome!"; "No problem!"; "Anytime!"]) ].

Inductive ending :=
| Left                (* the loop was left by [break] *)
| Failed (e : exn)    (* an exception of the model went through the loop *)
| EndOfInput.         (* [input] raised [EOFError] *)

(** [while True], over the lines typed; what is written is kept line by
    line, the prompt of [input] included. *)
Fixpoint loop (console : list string) (out : list string) (w : World)
  : ending * list string * World :=
  match console with
  | [] => (EndOfInput, (out ++ ["You: "])%list, w)
  | line :: console' =>
      let out := (out ++ ["You: "])%list in
      let user := Str.lower line in
      match List.find (fun kv => String.eqb (fst kv) user) responses with
      | Some (_, answers) =>
          match choice answers tt w with
          | (Ok r, _, w') => loop console' (out ++ [("AI Bot: " ++ r)%string])%list w'
          | (Raise e, _, w') => (Failed e, out, w')
          end
      | None =>
          if String.eqb user "exit"
          then (Left, (out ++ ["AI Bot: Bye! 👋"])%list, w)
          else loop console' (out ++ ["AI Bot: Sorry, I don’t understand."])%list w
      end
  end.

Definition main (console : list string) (w : World) : ending * list string * World :=
  loop console [] w.

End Chat.

(* ================================================================= *)
(** ** Runs and observations used in the statements *)

(** The names of [INTENT_PATTERNS], in the order of the cascade. *)
Definition canonical_order : list string :=
  ["greet"; "goodbye"; "set_name"; "ask_time"; "ask_date"; "calculator";
   "faq"; "load_csv"; "setname_cmd"; "help"; "reset"; "export"; "summary";
   "complaint"].

(** The pattern of an entry is found somewhere in the text. *)
Definition matches (text : string) (entry : string * Re.pattern) : bool :=
  match Re.search (snd entry) text with
  | Some _ => true
  | None => false
  end.

(** A sequence of calls of [add_history], given as (role, text). *)
Fixpoint add_all (es : list (string * string)) : M Memory unit :=
  match es with
  | [] => ret tt
  | (role, text) :: es' => bind (Mem.add_history role text) (fun _ => add_all es')
  end.

(** The entries these calls append, stamped by the clock from reading
    [t0] on. *)
Fixpoint stamped (clk : nat -> string) (t0 : nat) (es : list (string * string))
  : list HistoryEntry :=
  match es with
  | [] => []
  | (role, text) :: es' =>
      {| h_time := clk t0; h_role := role; h_text := text |} :: stamped clk (S t0) es'
  end.

(** The world after [save]. *)
Definition persisted (m : Memory) (w : World) : World :=
  if writable w (path m)
  then write_file (path m) (written (Json.chunks Json.newline (Mem.data_to_json (data m)))) w
  else w.

(** The memory and the world after [add_history role text]. *)
Definition logged (role text : string) (m : Memory) (w : World) : Memory * World :=
  let e := {| h_time := clock w (ticks w); h_role := role; h_text := text |} in
  let m' := {| path := path m;
               data := Mem.with_history (Mem.last_n 400 (history (data m) ++ [e])%list) (data m) |} in
  (m', persisted m' (tick w)).

(** A world for the examples: the clock counts, the dice give their
    index, no file exists yet and every path can be written. *)
Definition quiet_world : World :=
  {| clock := fun n => Str.of_nat n; ticks := 0;
     today := "Monday, January 01, 2024";
     dice := fun n => n; rolls := 0;
     files := ∅; writable := fun _ => true |}.

(** The chatbot and the world after [self.mem.add_history(role, text)]. *)
Definition heard (role text : string) (b : Chatbot) (w : World) : Chatbot * World :=
  (Bot.set_mem (fst (logged role text (mem b) w)) b, snd (logged role text (mem b) w)).

(** The order id kept from the last reply of a complaint. *)
Definition captured_order_id (text : string) : option string :=
  if String.eqb (Str.lower (Str.strip text)) "none" then None else Some (Str.strip text).

(** The pending task after the complaint handler has taken [text] for
    the task [task]: the first empty slot is filled, and filling the
    last one ends the task. *)
Definition next_task (text : string) (task : Task) : option Task :=
  let s := slots task in
  match product s, issue s, order_id s with
  | None, _, _ =>
      Some (Bot.with_slots {| product := Some text; issue := issue s; order_id := order_id s |} task)
  | Some _, None, _ =>
      Some (Bot.with_slots {| product := product s; issue := Some text; order_id := order_id s |} task)
  | Some _, Some _, None => None
  | Some _, Some _, Some _ => Some task
  end.

(** The ticket number drawn in a world. *)
Definition ticket_number (w : World) : N :=
  (10000 + N.of_nat (dice w (rolls w)) mod (99999 - 10000 + 1))%N.

(** An interpreter for the examples: every float is one opaque value. *)
Definition opaque_floats : PyFloat :=
  {| inexact := unit;
     of_literal := fun _ => tt;
     int_truediv := fun _ _ => Ok tt;
     int_pow_neg := fun _ _ => Ok tt;
     inexact_binop := fun _ _ _ => Ok tt;
     inexact_neg := fun x => x;
     inexact_str := fun _ => "<float>";
     int_mod_zero := "integer modulo by zero" |}.

(** Libraries for the examples: a reader that finds no table, and sets
    iterated in order of first occurrence. *)
Definition plain_libs : PyLibs :=
  {| csv_DictReader := fun _ => (None, []);
     set_iter := fun l => nodup string_dec l |}.

Section Conversations.
Context `{PyFloat} `{PyLibs}.

(** A conversation: the inputs handled in turn, and the replies. *)
Fixpoint converse (inputs : list string) : M Chatbot (list string) :=
  match inputs with
  | [] => ret []
  | t :: ts =>
      bind (Bot.handle t) (fun r =>
      bind (converse ts) (fun rs => ret (r :: rs)))
  end.

End Conversations.

(** A chatbot just started in the quiet world, and the same one in the
    middle of a complaint. *)
Definition fresh_bot : Chatbot := fst (Bot.init quiet_world).

Definition awaiting_product : Chatbot :=
  Bot.set_pending (Some Bot.new_task) fresh_bot.

Definition awaiting_order_id : Chatbot :=
  Bot.set_pending
    (Some {| task_type := "complaint";
             slots := {| product := Some "Blender"; issue := Some "It leaks";
                         order_id := None |} |})
    fresh_bot.

(** Data made of finite floats only, each given by sign and magnitude. *)
Definition finite_data (l : list (bool * Q)) : list Float64.pyfloat :=
  List.map (fun p => Float64.Finite (fst p) (snd p)) l.

(** *** Observations on documents *)

Fixpoint distinct (l : list string) : bool :=
  match l with
  | [] => true
  | k :: l' => negb (existsb (String.eqb k) l') && distinct l'
  end.

(** A document as a Python value is: no object holds a key twice. *)
Fixpoint json_wf (v : Json.json) : bool :=
  match v with
  | Json.JArr l => forallb json_wf l
  | Json.JObj kvs =>
      distinct (List.map fst kvs) && forallb (fun kv => json_wf (snd kv)) kvs
  | _ => true
  end.

(** A bound on the fuel the decoder needs for a document. *)
Fixpoint json_size (v : Json.json) : nat :=
  match v with
  | Json.JArr l => S (list_sum (List.map (fun x => S (json_size x)) l))
  | Json.JObj kvs => S (list_sum (List.map (fun kv => S (json_size (snd kv))) kvs))
  | _ => 1
  end.

Fixpoint all_ws (s : string) : bool :=
  match s with
  | EmptyString => true
  | String c s' => Json.is_ws c && all_ws s'
  end.

(** A line break followed by blanks. *)
Definition is_indent (ind : string) : bool :=
  match ind with
  | String c sp => (Str.code c =? 10)%N && all_ws sp
  | EmptyString => false
  end.

(** What may follow a value in a document: nothing, a comma, white
    space or a closing bracket. *)
Definition tail_ok (rest : string) : bool :=
  match rest with
  | EmptyString => true
  | String c _ =>
      (Str.code c =? 44)%N || Json.is_ws c || (Str.code c =? 93)%N || (Str.code c =? 125)%N
  end.

(** The items of an array after the first, and the members of an
    object after the first, as [dump] writes them. *)
Fixpoint more_items (inner : string) (l : list Json.json) : string :=
  match l with
  | [] => EmptyString
  | y :: l' => "," ++ inner ++ Json.dump inner y ++ more_items inner l'
  end.

Fixpoint more_members (inner : string) (l : list (string * Json.json)) : string :=
  match l with
  | [] => EmptyString
  | (k, y) :: l' =>
      "," ++ inner ++ Json.dump_string k ++ ": " ++ Json.dump inner y ++ more_members inner l'
  end.

(** *** Observations on the writing of a document *)

(** The pieces one after the other. *)
Fixpoint flat (cs : list (option string)) : string :=
  match cs with
  | [] => EmptyString
  | Some c :: cs' => c ++ flat cs'
  | None :: cs' => flat cs'
  end.

(** Every piece is given and can be encoded. *)
Definition whole (cs : list (option string)) : bool :=
  forallb (fun c => match c with Some t => Str.encodable t | None => false end) cs.

(** An item of an array with what stands before it, and the items and
    the members after the first, as [chunks] gives them. *)
Definition item_chunks (buf inner : string) (y : Json.json) : list (option string) :=
  match y with
  | Json.JArr _ | Json.JObj _ => Some buf :: Json.chunks inner y
  | _ => [Json.after buf (Json.scalar y)]
  end.

Fixpoint more_item_chunks (inner : string) (l : list Json.json) : list (option string) :=
  match l with
  | [] => []
  | y :: l' => (item_chunks ("," ++ inner) inner y ++ more_item_chunks inner l')%list
  end.

Fixpoint more_member_chunks (inner : string) (l : list (string * Json.json))
  : list (option string) :=
  match l with
  | [] => []
  | (k', y) :: l' =>
      Some ("," ++ inner) :: Some (Json.dump_string k') :: Some ": "
        :: (Json.chunks inner y ++ more_member_chunks inner l')%list
  end.

(** Characters of ASCII only. *)
Fixpoint ascii_only (s : string) : bool :=
  match s with
  | EmptyString => true
  | String c s' => (Str.code c <? 128)%N && ascii_only s'
  end.

(** A document that [json.dump] writes in full: every key and every
    string can be encoded, and no integer has more than 4300 digits. *)
Fixpoint json_encodable (v : Json.json) : bool :=
  match v with
  | Json.JInt z => (String.length (Str.of_N (Z.abs_N z)) <=? 4300)%nat
  | Json.JStr s => Str.encodable s
  | Json.JArr l => forallb json_encodable l
  | Json.JObj kvs =>
      forallb (fun kv => Str.encodable (fst kv) && json_encodable (snd kv)) kvs
  | _ => true
  end.

(** The pieces of a document that can be encoded are all given, and
    make its dump. *)
Definition writes_in_full (v : Json.json) : Prop :=
  forall ind,
    ascii_only ind = true ->
    json_encodable v = true ->
    whole (Json.chunks ind v) = true /\ flat (Json.chunks ind v) = Json.dump ind v.

(** The nesting of a document. *)
Fixpoint json_depth (v : Json.json) : nat :=
  match v with
  | Json.JArr l => S (fold_right Nat.max 0 (List.map json_depth l))
  | Json.JObj kvs => S (fold_right Nat.max 0 (List.map (fun kv => json_depth (snd kv)) kvs))
  | _ => 0
  end.

(** An entry of the history whose three texts can be encoded. *)
Definition entry_encodable (e : HistoryEntry) : bool :=
  Str.encodable (h_time e) && Str.encodable (h_role e) && Str.encodable (h_text e).

(** A record that [save] writes in full and [load] reads back: the name
    and the texts of the history can be encoded; the preferences are a
    document of null, booleans, integers, strings, arrays and objects in
    which no object holds a key twice, every key and string can be
    encoded, no integer has more than 4300 digits, and the nesting is at
    most 100 deep, which the recursion limit of the interpreter
    allows. *)
Definition storable (d : MemData) : bool :=
  match user_name d with Some n => Str.encodable n | None => true end
  && (json_wf (Json.JObj (preferences d))
      && json_encodable (Json.JObj (preferences d))
      && (json_depth (Json.JObj (preferences d)) <=? 100)%nat)
  && forallb entry_encodable (history d).

(** A memory whose last entry holds a text with no UTF-8 form. *)
Definition torn_memory : Memory :=
  {| path := "bot_memory.json";
     data := {| user_name := Some "Ada"; preferences := [];
                history := [ {| h_time := "2024-01-01 09:00:00"; h_role := "user";
                                h_text := "hello" |};
                             {| h_time := "2024-01-01 09:00:05"; h_role := "user";
                                h_text := String (ascii_of_N 255) EmptyString |} ] |} |}.

(** The record a restart finds after [save]: the file is written, then
    a new [Memory] is made on the same path. *)
Definition persist_reload (m : Memory) (w : World) : MemData :=
  match Mem.save m w with
  | (_, _, w1) => data (fst (Mem.init (path m) w1))
  end.

(** The decoder reads a dumped value back, at any indentation, before
    any admissible rest, with any fuel that covers the value. *)
Definition parses_back (v : Json.json) : Prop :=
  forall ind rest fuel,
    is_indent ind = true ->
    json_wf v = true ->
    tail_ok rest = true ->
    json_size v <= fuel ->
    Json.parse fuel Json.GValue (Json.dump ind v ++ rest) = Some (v, rest).

(** A memory whose history holds 401 entries, as one loaded from a
    longer file does. *)
Definition long_memory : Memory :=
  {| path := "bot_memory.json";
     data := {| user_name := Some "Ada"; preferences := [];
                history := List.repeat
                             {| h_time := "2024-01-01 09:00:00"; h_role := "user";
                                h_text := "hello" |} 401 |} |}.

(** *** Observations on the calculator *)

(** The trees of the executable subset: numeric constants, the names of
    [ALLOWED_NAMES], the six binary and the two unary operators. *)
Fixpoint arithmetic (n : Ast.node) : bool :=
  match n with
  | Ast.Constant (Ast.CInt _) | Ast.Constant (Ast.CBool _)
  | Ast.Constant (Ast.CFloat _) | Ast.Constant (Ast.CImag _) => true
  | Ast.Constant _ => false
  | Ast.BinOp l op r =>
      arithmetic l && SafeEvaluator.allowed_operator op && arithmetic r
  | Ast.UnaryOp op e => SafeEvaluator.allowed_unaryop op && arithmetic e
  | Ast.Name id => String.eqb id "pi" || String.eqb id "e"
  | _ => false
  end.

(** *** Observations on a turn *)

(** What a handler may have done to the chatbot and the world by the
    time it replies or raises: the memory keeps its path, the same paths
    can be written, and the preferences are kept or emptied. *)
Definition frame (b : Chatbot) (w : World) (b0 : Chatbot) (w0 : World) : Prop :=
  path (mem b0) = path (mem b) /\
  writable w0 = writable w /\
  (preferences (data (mem b0)) = preferences (data (mem b))
   \/ preferences (data (mem b0)) = []).

(** The history is as it was. *)
Definition kept (b b0 : Chatbot) : Prop :=
  history (data (mem b0)) = history (data (mem b)).

(** The two ends of a handler that has brought the chatbot and the
    world to [(b0, w0)]: it replies, which appends the reply to the
    history, or it raises. *)
Definition outcome (res : Result string * Chatbot * World)
           (b0 : Chatbot) (w0 : World) : Prop :=
  (exists r, res = (Ok r, fst (heard "assistant" r b0 w0),
                          snd (heard "assistant" r b0 w0)))
  \/ (exists e, res = (Raise e, b0, w0)).

(** The pending task before and after the complaint handler. *)
Definition complaint_step (text : string) (p p' : option Task) : Prop :=
  match p with
  | Some task =>
      if String.eqb (task_type task) "complaint"
      then p' = next_task text task
      else p' = Some Bot.new_task
  | None => p' = Some Bot.new_task
  end.

(** A pending task is a complaint that still waits for its order id. *)
Definition task_ok (p : option Task) : Prop :=
  match p with
  | Some task => task_type task = "complaint" /\ order_id (slots task) = None
  | None => True
  end.

(** The replies a complaint still takes before it is closed. *)
Definition turns_left (p : option Task) : nat :=
  match p with
  | Some task =>
      match product (slots task), issue (slots task) with
      | None, None => 3
      | Some _, Some _ => 1
      | _, _ => 2
      end
  | None => 0
  end.

Section Reachable.
Context `{PyFloat} `{PyLibs}.

(** The states of the chatbot that [run] can go through: the one it
    starts with, and those after a greeting or a turn. *)
Inductive reachable : Chatbot -> Prop :=
| reach_init (w : World) : reachable (fst (Bot.init w))
| reach_greet (b : Chatbot) (w : World) :
    reachable b -> reachable (snd (fst (Bot.handle_greet b w)))
| reach_turn (t : string) (b : Chatbot) (w : World) :
    reachable b -> reachable (snd (fst (Bot.handle t b w))).

End Reachable.

(** A handler that ends in a reply or raises, with the pending task
    related by [R]. *)
Definition settles (R : option Task -> option Task -> Prop)
           (h : M Chatbot string) (b : Chatbot) (w : World) : Prop :=
  exists b0 w0,
    frame b w b0 w0 /\ kept b b0 /\ R (pending_task b) (pending_task b0) /\
    outcome (h b w) b0 w0.

(** A handler that always replies. *)
Definition answers (R : option Task -> option Task -> Prop)
           (h : M Chatbot string) (b : Chatbot) (w : World) : Prop :=
  exists b0 w0 r,
    frame b w b0 w0 /\ kept b b0 /\ R (pending_task b) (pending_task b0) /\
    h b w = (Ok r, fst (heard "assistant" r b0 w0), snd (heard "assistant" r b0 w0)).

(** What stands between a turn and its reply, for each intent. *)
Definition routed (intent raw : string) (res : Result string * Chatbot * World)
           (b : Chatbot) (w : World) : Prop :=
  exists b0 w0,
    frame b w b0 w0 /\
    (intent <> "reset" -> kept b b0) /\
    (if String.eqb intent "complaint"
     then complaint_step raw (pending_task b) (pending_task b0)
     else pending_task b0 = pending_task b) /\
    outcome res b0 w0 /\
    (existsb (String.eqb intent) ["set_name"; "load_csv"; "setname_cmd"; "export"] = false ->
     exists r, res = (Ok r, fst (heard "assistant" r b0 w0),
                            snd (heard "assistant" r b0 w0))).

(** *** What the report of a column is to give *)

(** The exact value of a datum given by sign and magnitude. *)
Definition signed (p : bool * Q) : Q := if fst p then (- snd p)%Q else snd p.

Definition total (xs : list Q) : Q := fold_right Qplus 0%Q xs.

(** The arithmetic mean and the population variance of exact values:
    the squared deviations from the mean are divided by the count. *)
Definition arithmetic_mean (xs : list Q) : Q :=
  (total xs / inject_Z (Z.of_nat (List.length xs)))%Q.

Definition population_variance (xs : list Q) : Q :=
  (total (List.map (fun x => (x - arithmetic_mean xs) * (x - arithmetic_mean xs)) xs)
   / inject_Z (Z.of_nat (List.length xs)))%Q.

(** Floats in ascending order of their values. *)
Fixpoint ascending (l : list Float64.pyfloat) : Prop :=
  match l with
  | [] => True
  | x :: l' =>
      match l' with
      | [] => True
      | y :: _ => (Stats.exact x <= Stats.exact y)%Q
      end /\ ascending l'
  end.

(** The middle of a list in order: the element in the middle, or half
    the sum of the two in the middle, taken on the floats. *)
Definition middle (s : list Float64.pyfloat) : Float64.pyfloat :=
  let n := List.length s in
  if Nat.odd n then nth (n / 2) s Float64.NaN
  else Float64.half (Float64.add (nth (n / 2 - 1) s Float64.NaN) (nth (n / 2) s Float64.NaN)).

(** Libraries whose reader finds one table, whatever the text. *)
Definition table_libs (fields : list string) (rows : list Row) : PyLibs :=
  {| csv_DictReader := fun _ => (Some fields, rows);
     set_iter := fun l => nodup string_dec l |}.

(** *** The router as a table *)

Section Routes.
Context `{PyFloat} `{PyLibs}.

(** The handler of each intent.  An intent whose handler takes the match
    has it only with a match; the text is passed normalized to the
    topics and as typed to the calculator and the complaint. *)
Definition handlers (m : option Re.Match) (user_text raw : string)
  : list (string * option (M Chatbot string)) :=
  [ ("greet", Some Bot.handle_greet);
    ("goodbye", Some Bot.handle_goodbye);
    ("set_name", match m with Some m' => Some (Bot.handle_set_name m') | None => None end);
    ("ask_time", Some Bot.handle_time);
    ("ask_date", Some Bot.handle_date);
    ("calculator", Some (Bot.handle_calculator raw));
    ("faq", Some (Bot.handle_faq user_text));
    ("load_csv", match m with Some m' => Some (Bot.handle_load_csv m') | None => None end);
    ("setname_cmd",
     match m with Some m' => Some (Bot.handle_setname_cmd m') | None => None end);
    ("help", Some Bot.handle_help);
    ("reset", Some Bot.handle_reset);
    ("export", Some Bot.handle_export);
    ("summary", Some Bot.handle_summary);
    ("complaint", Some (Bot.handle_complaint raw)) ].

(** The handler an intent is given: its entry in the table, and small
    talk for what has none. *)
Definition handler_of (intent : string) (m : option Re.Match) (user_text raw : string)
  : M Chatbot string :=
  match List.find (fun kv => String.eqb intent (fst kv)) (handlers m user_text raw) with
  | Some (_, Some h) => h
  | _ => Bot.handle_smalltalk raw
  end.

End Routes.

(** The memory file as the program expects to find it at its start:
    absent, or as [Memory.save] wrote it in full for some record.  (Any
    other JSON document is kept by [Memory.load] as it is, and the first
    use of the record then fails.) *)
Definition memory_file_ok (w : World) : Prop :=
  files w !! "bot_memory.json" = None \/
  exists d : MemData,
    json_wf (Json.JObj (preferences d)) = true /\
    files w !! "bot_memory.json" = Some (Json.dumps (Mem.data_to_json d)).

(** The loop has come to an end; when it was left by [break], the last
    line written is one of [GOODBYES]. *)
Definition ended (res : Main.ending * list string * Chatbot * World) : Prop :=
  match fst (fst (fst res)) with
  | Main.Running => False
  | Main.Failed _ => True
  | Main.Left => exists out g, snd (fst (fst res)) = (out ++ [g])%list /\ In g GOODBYES
  end.

(** *** Observations on texts *)

(** Each run of white space made one space; [in_run] tells that the
    character before was white space. *)
Fixpoint squeeze (in_run : bool) (s : string) : string :=
  match s with
  | EmptyString => EmptyString
  | String ch s' =>
      if Str.is_space ch
      then if in_run then squeeze true s' else String " " (squeeze true s')
      else String ch (squeeze false s')
  end.

(** No white space at the head, and none at the end. *)
Definition no_lead (s : string) : bool :=
  match s with
  | String c _ => negb (Str.is_space c)
  | EmptyString => true
  end.

Fixpoint no_trail (s : string) : bool :=
  match s with
  | EmptyString => true
  | String c EmptyString => negb (Str.is_space c)
  | String _ s' => no_trail s'
  end.

(** Every character of the text passes the test. *)
Fixpoint every (f : ascii -> bool) (s : string) : bool :=
  match s with
  | EmptyString => true
  | String c s' => f c && every f s'
  end.

(** A character that is not white space, or the space itself. *)
Definition plain (c : ascii) : bool :=
  negb (Str.is_space c) || Ascii.eqb c " ".

(** Once group 1 is set, what follows in a match leaves it set. *)
Definition keeps_group (k : Re.cursor -> option Re.cursor) : Prop :=
  forall c x, Re.grp1 c <> None -> k c = Some x -> Re.grp1 x <> None.

(** *** Observations on the chat script *)

(** The line that ends the script, in any case of letters. *)
Definition is_exit (line : string) : bool := String.eqb (Str.lower line) "exit".

(** The lines the script reads: up to the first exit, or all. *)
Fixpoint lines_read (console : list string) : nat :=
  match console with
  | [] => 0
  | line :: console' => if is_exit line then 1 else S (lines_read console')
  end.

(** The lines written that are answers, not prompts. *)
Definition answers_in (out : list string) : list string :=
  List.filter (fun l => Str.startswith l "AI Bot:") out.

(* ================================================================= *)
(** * Properties *)

(** ** Strings *)

Lemma append_cons (x : ascii) (a b : string) : String x a ++ b = String x (a ++ b).
Proof. reflexivity. Qed.

Lemma append_nil_l (a : string) : "" ++ a = a.
Proof. reflexivity. Qed.

Lemma append_assoc (a b c : string) : (a ++ b) ++ c = a ++ (b ++ c).
Proof.
  induction a as [|x a IH]; [reflexivity|].
  rewrite !append_cons. now rewrite IH.
Qed.

Lemma append_nil_r (a : string) : a ++ "" = a.
Proof.
  induction a as [|x a IH]; [reflexivity|].
  rewrite append_cons. now rewrite IH.
Qed.

Lemma length_append (a b : string) :
  String.length (a ++ b) = String.length a + String.length b.
Proof.
  induction a as [|x a IH]; [reflexivity|].
  rewrite append_cons. simpl. now rewrite IH.
Qed.

Lemma prefix_append (k b : string) : String.prefix k (k ++ b) = true.
Proof.
  induction k as [|x k IH]; [now destruct b|].
  rewrite append_cons. simpl.
  destruct (ascii_dec x x) as [_|n]; [exact IH | now elim n].
Qed.

Lemma contains_prefix (k s : string) :
  String.prefix k s = true -> Str.contains k s = true.
Proof.
  intros Hp.
  assert (E : Str.contains k s =
              String.prefix k s ||
              match s with EmptyString => false | String _ s' => Str.contains k s' end)
    by (destruct s; reflexivity).
  rewrite E, Hp. reflexivity.
Qed.

Lemma contains_append (k a b : string) : Str.contains k (a ++ k ++ b) = true.
Proof.
  induction a as [|x a IH].
  - rewrite append_nil_l. apply contains_prefix, prefix_append.
  - rewrite append_cons. simpl. rewrite IH. apply orb_true_r.
Qed.

(** ** The intent cascade *)

Lemma first_match_least (ps : list (string * Re.pattern)) (text : string) :
  match first_match ps text with
  | Some (n, m) =>
      exists i p, nth_error ps i = Some (n, p) /\ Re.search p text = Some m /\
        forall j q, j < i -> nth_error ps j = Some q -> matches text q = false
  | None => forall j q, nth_error ps j = Some q -> matches text q = false
  end.
Proof.
  induction ps as [|[n p] ps IH]; simpl.
  - intros [|j] q Hq; discriminate.
  - destruct (Re.search p text) as [m|] eqn:E.
    + exists 0, p. repeat split; try reflexivity; try exact E. intros j q Hj. lia.
    + destruct (first_match ps text) as [[n' m']|].
      * destruct IH as (i & p' & Hi & Hs & Hlt).
        exists (S i), p'. repeat split; try assumption.
        intros [|j] q Hj Hq; simpl in Hq.
        -- injection Hq as <-. unfold matches; simpl. now rewrite E.
        -- apply (Hlt j); [lia | exact Hq].
      * intros [|j] q Hq; simpl in Hq.
        -- injection Hq as <-. unfold matches; simpl. now rewrite E.
        -- apply (IH j); exact Hq.
Qed.

Lemma canonical_order_names : List.map fst INTENT_PATTERNS = canonical_order.
Proof. reflexivity. Qed.

(** C1. When a text matches two or more intent patterns, [detect_intent]
    returns the intent of the matching pattern that comes first in the
    canonical order greet, goodbye, set_name, ask_time, ask_date,
    calculator, faq, load_csv, setname_cmd, help, reset, export, summary,
    complaint; and equal texts are classified equally. *)
Theorem detect_intent_earliest_match :
  forall text i j ei ej,
    i <> j ->
    nth_error INTENT_PATTERNS i = Some ei ->
    nth_error INTENT_PATTERNS j = Some ej ->
    matches text ei = true ->
    matches text ej = true ->
    exists k ek,
      nth_error INTENT_PATTERNS k = Some ek /\
      matches text ek = true /\
      (forall l el, nth_error INTENT_PATTERNS l = Some el ->
                    matches text el = true -> k <= l) /\
      nth_error canonical_order k = Some (fst ek) /\
      fst (detect_intent text) = fst ek /\
      (forall text', text' = text -> detect_intent text' = detect_intent text).
Proof.
  intros text i j ei ej _ Hi _ Hmi _.
  pose proof (first_match_least INTENT_PATTERNS text) as H.
  destruct (first_match INTENT_PATTERNS text) as [[n m]|] eqn:E.
  - destruct H as (k & p & Hk & Hs & Hlt).
    exists k, (n, p). repeat split.
    + exact Hk.
    + unfold matches; simpl. now rewrite Hs.
    + intros l el Hl Hm.
      destruct (Nat.le_gt_cases k l) as [|Hgt]; [assumption|].
      rewrite (Hlt l el Hgt Hl) in Hm. discriminate.
    + rewrite <- canonical_order_names, nth_error_map, Hk. reflexivity.
    + unfold detect_intent. rewrite E. reflexivity.
    + intros text' ->. reflexivity.
  - rewrite (H i ei Hi) in Hmi. discriminate.
Qed.

Lemma detect_intent_earliest_match_witness :
  exists k ek,
    nth_error INTENT_PATTERNS k = Some ek /\
    matches "hello, what time is it" ek = true /\
    (forall l el, nth_error INTENT_PATTERNS l = Some el ->
                  matches "hello, what time is it" el = true -> k <= l) /\
    nth_error canonical_order k = Some (fst ek) /\
    fst (detect_intent "hello, what time is it") = fst ek /\
    (forall text', text' = "hello, what time is it" ->
                   detect_intent text' = detect_intent "hello, what time is it").
Proof.
  apply (detect_intent_earliest_match "hello, what time is it" 0 3
           ("greet", word_pattern ["hi"; "hello"; "hey"; "assalam"; "salam"])
           ("ask_time", word_pattern ["time"; "clock"; "what time"])).
  - lia.
  - reflexivity.
  - reflexivity.
  - vm_compute. reflexivity.
  - vm_compute. reflexivity.
Defined.

(** ** The history cap *)

Lemma last_n_all {A} (n : nat) (l : list A) :
  List.length l <= n -> Mem.last_n n l = l.
Proof.
  intros Hl. unfold Mem.last_n.
  replace (List.length l - n) with 0 by lia. reflexivity.
Qed.

Lemma length_last_n {A} (n : nat) (l : list A) :
  List.length (Mem.last_n n l) <= n.
Proof. unfold Mem.last_n. rewrite length_skipn. lia. Qed.

(** The last [n] of a list only depend on the last [n] of a prefix. *)
Lemma last_n_app {A} (n : nat) (x y : list A) :
  Mem.last_n n (Mem.last_n n x ++ y) = Mem.last_n n (x ++ y).
Proof.
  unfold Mem.last_n.
  destruct (Nat.le_gt_cases (List.length x) n) as [Hle|Hgt].
  - replace (List.length x - n) with 0 by lia. reflexivity.
  - rewrite !length_app, length_skipn.
    replace (List.length x - (List.length x - n) + List.length y - n)
      with (List.length y) by lia.
    replace (List.length x + List.length y - n)
      with (List.length y + (List.length x - n)) by lia.
    rewrite <- skipn_skipn. f_equal.
    rewrite skipn_app.
    replace (List.length x - n - List.length x) with 0 by lia.
    reflexivity.
Qed.

Lemma save_persisted (m : Memory) (w : World) :
  Mem.save m w = (Ok tt, m, persisted m w).
Proof. unfold Mem.save, persisted. destruct (writable w (path m)); reflexivity. Qed.

Lemma add_history_logged (role text : string) (m : Memory) (w : World) :
  Mem.add_history role text m w = (Ok tt, fst (logged role text m w), snd (logged role text m w)).
Proof.
  unfold Mem.add_history, bind, now_str, get, Mem.set_data, logged.
  cbv beta iota zeta.
  rewrite save_persisted.
  set (h := (history (data m) ++ _)%list).
  destruct (Nat.ltb_spec 400 (List.length h)) as [Hlt|Hge].
  - reflexivity.
  - rewrite (last_n_all 400 h Hge). reflexivity.
Qed.

Lemma persisted_frame (m : Memory) (w : World) :
  clock (persisted m w) = clock w /\ ticks (persisted m w) = ticks w /\
  dice (persisted m w) = dice w /\ rolls (persisted m w) = rolls w /\
  today (persisted m w) = today w /\ writable (persisted m w) = writable w.
Proof. unfold persisted. destruct (writable w (path m)); repeat split. Qed.

Lemma add_all_history (es : list (string * string)) :
  forall m w, exists m' w',
    add_all es m w = (Ok tt, m', w') /\
    clock w' = clock w /\ ticks w' = ticks w + List.length es /\
    history (data m') =
      match es with
      | [] => history (data m)
      | _ => Mem.last_n 400 (history (data m) ++ stamped (clock w) (ticks w) es)
      end.
Proof.
  induction es as [|[role text] es IH]; intros m w.
  - exists m, w. simpl. repeat split; lia.
  - cbn [add_all]. unfold bind. rewrite add_history_logged.
    destruct (IH (fst (logged role text m w)) (snd (logged role text m w)))
      as (m' & w' & Hrun & Hclk & Htk & Hh).
    exists m', w'. rewrite Hrun.
    destruct (persisted_frame (fst (logged role text m w)) (tick w))
      as (Pc & Pt & _).
    cbn [logged fst snd] in *. rewrite Pc, Pt in *. cbn [tick clock ticks] in *.
    repeat split; [exact Hclk | cbn [List.length]; lia |].
    rewrite Hh. cbn [data history Mem.with_history stamped].
    destruct es as [|e es'].
    + reflexivity.
    + rewrite last_n_app, <- app_assoc. reflexivity.
Qed.

(** C5. After any sequence of appends the history holds at most 400
    entries, and it is exactly the most recent 400 of the entries it
    held plus those appended, in their order: the oldest are dropped.
    (Before the first append a loaded history may be longer.) *)
Theorem history_cap_fifo :
  forall (es : list (string * string)) (m : Memory) (w : World),
    es <> [] \/ List.length (history (data m)) <= 400 ->
    exists m' w',
      add_all es m w = (Ok tt, m', w') /\
      List.length (history (data m')) <= 400 /\
      history (data m') =
        Mem.last_n 400 (history (data m) ++ stamped (clock w) (ticks w) es).
Proof.
  intros es m w Hc.
  destruct (add_all_history es m w) as (m' & w' & Hrun & _ & _ & Hh).
  exists m', w'. split; [exact Hrun|].
  destruct es as [|e es].
  - destruct Hc as [Hc|Hc]; [now elim Hc|].
    rewrite Hh. cbn [stamped]. rewrite app_nil_r, last_n_all by exact Hc.
    split; [exact Hc | reflexivity].
  - rewrite Hh. split; [apply length_last_n | reflexivity].
Qed.

Lemma history_cap_fifo_witness :
  exists m' w',
    add_all (List.repeat ("user", "hello") 401)
      {| path := "bot_memory.json"; data := Mem.empty_data |} quiet_world
    = (Ok tt, m', w') /\
    List.length (history (data m')) <= 400 /\
    history (data m') =
      Mem.last_n 400 ([] ++ stamped (clock quiet_world) 0
                               (List.repeat ("user", "hello") 401)).
Proof.
  apply (history_cap_fifo (List.repeat ("user", "hello") 401)
           {| path := "bot_memory.json"; data := Mem.empty_data |} quiet_world).
  right. simpl. lia.
Defined.

(** ** Decimal numerals *)

Ltac dlia := zify; Z.to_euclidean_division_equations; lia.

Lemma pow2_succ (f : nat) : (2 ^ N.of_nat (S f) = 2 * 2 ^ N.of_nat f)%N.
Proof. rewrite Nat2N.inj_succ. apply N.pow_succ_r'. Qed.

Lemma pow2_pos (f : nat) : (0 < 2 ^ N.of_nat f)%N.
Proof. apply N.neq_0_lt_0, N.pow_nonzero. discriminate. Qed.

Lemma to_digits_S (f : nat) (n : N) (acc : string) :
  Str.to_digits (S f) n acc =
    if (n / 10 =? 0)%N then String (Str.digit_char (n mod 10)) acc
    else Str.to_digits f (n / 10) (String (Str.digit_char (n mod 10)) acc).
Proof. reflexivity. Qed.

(** With enough fuel the amount of fuel does not matter. *)
Lemma to_digits_fuel (f : nat) :
  forall g n acc,
    (n < 2 ^ N.of_nat (S f))%N -> (n < 2 ^ N.of_nat (S g))%N ->
    Str.to_digits (S f) n acc = Str.to_digits (S g) n acc.
Proof.
  induction f as [|f IH]; intros g n acc Hf Hg.
  - assert (Hn : (n / 10 = 0)%N).
    { change (2 ^ N.of_nat 1)%N with 2%N in Hf. dlia. }
    rewrite !to_digits_S, Hn. reflexivity.
  - rewrite (to_digits_S (S f)), (to_digits_S g).
    destruct (N.eqb_spec (n / 10) 0) as [E|E]; [reflexivity|].
    destruct g as [|g].
    { change (2 ^ N.of_nat 1)%N with 2%N in Hg. exfalso. dlia. }
    rewrite pow2_succ in Hf, Hg.
    pose proof (pow2_pos (S f)). pose proof (pow2_pos (S g)).
    apply IH; dlia.
Qed.

Lemma to_digits_acc (f : nat) :
  forall n acc,
    (n < 2 ^ N.of_nat (S f))%N ->
    Str.to_digits (S f) n acc = Str.to_digits (S f) n "" ++ acc.
Proof.
  induction f as [|f IH]; intros n acc Hf.
  - assert (Hn : (n / 10 = 0)%N).
    { change (2 ^ N.of_nat 1)%N with 2%N in Hf. dlia. }
    rewrite !to_digits_S, Hn. reflexivity.
  - rewrite (to_digits_S (S f) n acc), (to_digits_S (S f) n "").
    destruct (N.eqb_spec (n / 10) 0) as [E|E]; [reflexivity|].
    rewrite pow2_succ in Hf. pose proof (pow2_pos (S f)).
    rewrite (IH (n / 10)%N (String _ acc)) by dlia.
    rewrite (IH (n / 10)%N (String _ "")) by dlia.
    rewrite append_assoc. reflexivity.
Qed.

Lemma log2_fuel (n : N) : (n < 2 ^ N.of_nat (S (N.to_nat (N.log2 n))))%N.
Proof.
  rewrite Nat2N.inj_succ, N2Nat.id.
  destruct n as [|p]; [reflexivity|].
  apply N.log2_spec. reflexivity.
Qed.

Lemma of_N_small (n : N) :
  (n < 10)%N -> Str.of_N n = String (Str.digit_char n) "".
Proof.
  intros Hn. unfold Str.of_N. rewrite to_digits_S.
  replace (n / 10)%N with 0%N by dlia.
  replace (n mod 10)%N with n by dlia. reflexivity.
Qed.

Lemma of_N_step (n : N) :
  (10 <= n)%N ->
  Str.of_N n = Str.of_N (n / 10) ++ String (Str.digit_char (n mod 10)) "".
Proof.
  intros Hn. unfold Str.of_N.
  pose proof (log2_fuel n) as Hf. pose proof (log2_fuel (n / 10)) as Hg.
  destruct (N.to_nat (N.log2 n)) as [|l] eqn:El.
  { change (2 ^ N.of_nat 1)%N with 2%N in Hf. lia. }
  rewrite (to_digits_S (S l)).
  destruct (N.eqb_spec (n / 10) 0) as [E|E]; [exfalso; dlia|].
  rewrite pow2_succ in Hf. pose proof (pow2_pos (S l)).
  rewrite to_digits_acc by dlia.
  f_equal. apply to_digits_fuel; [dlia | exact Hg].
Qed.

Lemma of_N_five_digits (n : N) :
  (10000 <= n <= 99999)%N -> String.length (Str.of_N n) = 5.
Proof.
  intros Hn.
  rewrite (of_N_step n) by lia.
  rewrite (of_N_step (n / 10)) by dlia.
  rewrite (of_N_step (n / 10 / 10)) by dlia.
  rewrite (of_N_step (n / 10 / 10 / 10)) by dlia.
  rewrite (of_N_small (n / 10 / 10 / 10 / 10)) by dlia.
  rewrite !length_append. reflexivity.
Qed.

(** ** The router and the complaint flow *)

Section RouterProperties.
Context `{PyFloat} `{PyLibs}.

Lemma on_mem_add_history (role text : string) (b : Chatbot) (w : World) :
  Bot.on_mem (Mem.add_history role text) b w
  = (Ok tt, fst (heard role text b w), snd (heard role text b w)).
Proof.
  unfold Bot.on_mem, within. rewrite add_history_logged. reflexivity.
Qed.

Lemma reply_heard (text : string) (b : Chatbot) (w : World) :
  Bot.reply text b w
  = (Ok text, fst (heard "assistant" text b w), snd (heard "assistant" text b w)).
Proof.
  unfold Bot.reply, bind. rewrite on_mem_add_history. reflexivity.
Qed.

Lemma heard_frame (role text : string) (b : Chatbot) (w : World) :
  pending_task (fst (heard role text b w)) = pending_task b /\
  dice (snd (heard role text b w)) = dice w /\
  rolls (snd (heard role text b w)) = rolls w /\
  clock (snd (heard role text b w)) = clock w /\
  ticks (snd (heard role text b w)) = S (ticks w).
Proof.
  unfold heard, logged. cbn [fst snd Bot.set_mem pending_task].
  match goal with |- context [persisted ?m ?w'] =>
    destruct (persisted_frame m w') as (Pc & Pt & Pd & Pr & _) end.
  rewrite Pc, Pt, Pd, Pr. repeat split.
Qed.

Lemma dispatch_complaint (m : option Re.Match) (user_text raw : string) :
  Bot.dispatch "complaint" m user_text raw = Bot.handle_complaint raw.
Proof. reflexivity. Qed.

Lemma dispatch_reset (m : option Re.Match) (user_text raw : string) :
  Bot.dispatch "reset" m user_text raw = Bot.handle_reset.
Proof. reflexivity. Qed.

(** The three ways through the head of [handle]. *)
Lemma handle_idle (t : string) (b : Chatbot) (w : World) :
  pending_task b = None ->
  Bot.handle t b w
  = Bot.classify_and_dispatch (normalize t) t
      (fst (heard "user" t b w)) (snd (heard "user" t b w)).
Proof.
  intros Hp. unfold Bot.handle, bind. rewrite on_mem_add_history.
  unfold get. cbv beta iota.
  destruct (heard_frame "user" t b w) as (Hf & _). rewrite Hf, Hp. reflexivity.
Qed.

Lemma handle_slot_filling (t : string) (b : Chatbot) (w : World) (task : Task) :
  pending_task b = Some task ->
  task_type task = "complaint" ->
  Str.startswith (normalize t) "/" = false ->
  Bot.handle t b w
  = Bot.handle_complaint t (fst (heard "user" t b w)) (snd (heard "user" t b w)).
Proof.
  intros Hp Ht Hc. unfold Bot.handle, bind. rewrite on_mem_add_history.
  unfold get. cbv beta iota.
  destruct (heard_frame "user" t b w) as (Hf & _). rewrite Hf, Hp, Hc, Ht.
  reflexivity.
Qed.

Lemma handle_command (t : string) (b : Chatbot) (w : World) :
  Str.startswith (normalize t) "/" = true ->
  Bot.handle t b w
  = Bot.classify_and_dispatch (normalize t) t
      (fst (heard "user" t b w)) (snd (heard "user" t b w)).
Proof.
  intros Hc. unfold Bot.handle, bind. rewrite on_mem_add_history.
  unfold get. cbv beta iota.
  destruct (pending_task (fst (heard "user" t b w))); rewrite ?Hc; reflexivity.
Qed.

(** The complaint handler, state by state. *)
Lemma complaint_start (t : string) (b : Chatbot) (w : World) :
  pending_task b = None ->
  exists b' w',
    Bot.handle_complaint t b w
    = (Ok "I'm opening a support ticket. What product is this about?", b', w') /\
    pending_task b' = Some Bot.new_task /\
    dice w' = dice w /\ rolls w' = rolls w.
Proof.
  intros Hp. unfold Bot.handle_complaint, bind, get. cbv beta iota.
  rewrite Hp. unfold Bot.modify, bind. rewrite reply_heard.
  eexists _, _. split; [reflexivity|].
  match goal with |- context [heard ?r ?x ?b0 ?w0] =>
    destruct (heard_frame r x b0 w0) as (Hf & Hd & Hr & _) end.
  rewrite Hf, Hd, Hr. repeat split.
Qed.

Lemma complaint_continue (t : string) (b : Chatbot) (w : World) (task : Task) :
  pending_task b = Some task ->
  task_type task = "complaint" ->
  exists r b' w',
    Bot.handle_complaint t b w = (Ok r, b', w') /\
    pending_task b' = next_task t task /\
    dice w' = dice w /\
    rolls w' =
      match product (slots task), issue (slots task), order_id (slots task) with
      | Some _, Some _, None => S (rolls w)
      | _, _, _ => rolls w
      end /\
    (r =
       match product (slots task), issue (slots task), order_id (slots task) with
       | None, _, _ => "Got it. Briefly describe the issue."
       | Some _, None, _ => "Please share your order ID (or say 'none')."
       | Some p, Some i, None =>
           Bot.ticket_text ("TKT-" ++ Str.of_N (ticket_number w))
             {| product := Some p; issue := Some i; order_id := captured_order_id t |}
       | Some _, Some _, Some _ => "Your ticket is already created. Anything else?"
       end).
Proof.
  intros Hp Ht. unfold Bot.handle_complaint, bind, get. cbv beta iota.
  rewrite Hp, Ht. cbn [String.eqb Ascii.eqb Bool.eqb negb].
  unfold next_task.
  destruct (product (slots task)) as [p|] eqn:Ep;
    [destruct (issue (slots task)) as [i|] eqn:Ei;
       [destruct (order_id (slots task)) as [o|] eqn:Eo|]|].
  - rewrite reply_heard. eexists _, _, _. split; [reflexivity|].
    match goal with |- context [heard ?r ?x ?b0 ?w0] =>
      destruct (heard_frame r x b0 w0) as (Hf & Hd & Hr & _) end.
    rewrite Hf, Hd, Hr, Hp. repeat split.
  - unfold randint, Bot.modify, bind. rewrite reply_heard.
    eexists _, _, _. split; [reflexivity|].
    match goal with |- context [heard ?r ?x ?b0 ?w0] =>
      destruct (heard_frame r x b0 w0) as (Hf & Hd & Hr & _) end.
    rewrite Hf, Hd, Hr. repeat split.
  - unfold Bot.modify, bind. rewrite reply_heard.
    eexists _, _, _. split; [reflexivity|].
    match goal with |- context [heard ?r ?x ?b0 ?w0] =>
      destruct (heard_frame r x b0 w0) as (Hf & Hd & Hr & _) end.
    rewrite Hf, Hd, Hr. repeat split.
  - unfold Bot.modify, bind. rewrite reply_heard.
    eexists _, _, _. split; [reflexivity|].
    match goal with |- context [heard ?r ?x ?b0 ?w0] =>
      destruct (heard_frame r x b0 w0) as (Hf & Hd & Hr & _) end.
    rewrite Hf, Hd, Hr. repeat split.
Qed.

Lemma ticket_number_range (w : World) :
  (10000 <= ticket_number w <= 99999)%N.
Proof. unfold ticket_number. dlia. Qed.

(** One turn of slot filling, seen from [handle]. *)
Lemma handle_fill (t : string) (b : Chatbot) (w : World) (task : Task) :
  pending_task b = Some task ->
  task_type task = "complaint" ->
  Str.startswith (normalize t) "/" = false ->
  exists r b' w',
    Bot.handle t b w = (Ok r, b', w') /\
    pending_task b' = next_task t task /\
    dice w' = dice w /\
    rolls w' =
      match product (slots task), issue (slots task), order_id (slots task) with
      | Some _, Some _, None => S (rolls w)
      | _, _, _ => rolls w
      end /\
    (r =
       match product (slots task), issue (slots task), order_id (slots task) with
       | None, _, _ => "Got it. Briefly describe the issue."
       | Some _, None, _ => "Please share your order ID (or say 'none')."
       | Some p, Some i, None =>
           Bot.ticket_text ("TKT-" ++ Str.of_N (ticket_number w))
             {| product := Some p; issue := Some i; order_id := captured_order_id t |}
       | Some _, Some _, Some _ => "Your ticket is already created. Anything else?"
       end).
Proof.
  intros Hp Ht Hc. rewrite (handle_slot_filling t b w task Hp Ht Hc).
  destruct (heard_frame "user" t b w) as (Hf & Hd & Hr & _).
  rewrite <- Hf in Hp.
  destruct (complaint_continue t _ (snd (heard "user" t b w)) task Hp Ht)
    as (r & b' & w' & E & P & D & R & Hr').
  exists r, b', w'. rewrite E, P, D, R, Hd, Hr. repeat split.
  rewrite Hr'. unfold ticket_number. rewrite Hd, Hr. reflexivity.
Qed.

Lemma converse_cons (t : string) (ts : list string) (b b1 b2 : Chatbot)
      (w w1 w2 : World) (r : string) (rs : list string) :
  Bot.handle t b w = (Ok r, b1, w1) ->
  converse ts b1 w1 = (Ok rs, b2, w2) ->
  converse (t :: ts) b w = (Ok (r :: rs), b2, w2).
Proof.
  intros E1 E2. cbn [converse]. unfold bind. rewrite E1, E2. reflexivity.
Qed.

Lemma contains_mid (k a b s : string) :
  s = a ++ k ++ b -> Str.contains k s = true.
Proof. intros ->. apply contains_append. Qed.

Lemma or_na_captured (t : string) :
  Bot.or_na (captured_order_id t)
  = if String.eqb (Str.lower (Str.strip t)) "none" || String.eqb (Str.strip t) ""
    then "N/A" else Str.strip t.
Proof.
  unfold captured_order_id.
  destruct (String.eqb (Str.lower (Str.strip t)) "none"); [reflexivity|].
  destruct (Str.strip t); reflexivity.
Qed.

(** C2. A complaint started while no task is pending and fed three
    replies that are not commands ends with no pending task. Its four
    replies are the three questions and the confirmation, which is given
    in full: it holds a ticket identifier made of TKT- and a five-digit
    number between 10000 and 99999, the product and the issue as typed,
    and the order id, which is the third reply trimmed of white space;
    an order id of none, in any case of letters, or an empty one is
    shown as N/A. *)
Theorem complaint_flow_completes :
  forall (b : Chatbot) (w : World) (t0 t1 t2 t3 : string),
    pending_task b = None ->
    fst (detect_intent (normalize t0)) = "complaint" ->
    Str.startswith (normalize t1) "/" = false ->
    Str.startswith (normalize t2) "/" = false ->
    Str.startswith (normalize t3) "/" = false ->
    exists r0 r1 r2 r3 b' w' n,
      converse [t0; t1; t2; t3] b w = (Ok [r0; r1; r2; r3], b', w') /\
      pending_task b' = None /\
      (10000 <= n <= 99999)%N /\
      String.length (Str.of_N n) = 5 /\
      r0 = "I'm opening a support ticket. What product is this about?" /\
      r1 = "Got it. Briefly describe the issue." /\
      r2 = "Please share your order ID (or say 'none')." /\
      r3 = "Thanks! Ticket TKT-" ++ Str.of_N n ++ " created. Product: " ++ t1
           ++ ". Issue: " ++ t2 ++ ". Order ID: "
           ++ (if String.eqb (Str.lower (Str.strip t3)) "none"
                  || String.eqb (Str.strip t3) ""
               then "N/A" else Str.strip t3)
           ++ ". Our team will follow up." /\
      Str.contains ("TKT-" ++ Str.of_N n) r3 = true /\
      Str.contains t1 r3 = true /\
      Str.contains t2 r3 = true /\
      (String.eqb (Str.lower (Str.strip t3)) "none" = false ->
       Str.contains (Str.strip t3) r3 = true) /\
      (String.eqb (Str.lower (Str.strip t3)) "none" = true ->
       Str.contains "Order ID: N/A." r3 = true).
Proof.
  intros b w t0 t1 t2 t3 Hp Hi H1 H2 H3.
  (* the opening turn *)
  pose proof (handle_idle t0 b w Hp) as E0.
  unfold Bot.classify_and_dispatch in E0.
  destruct (detect_intent (normalize t0)) as [i m]. cbn [fst] in Hi. subst i.
  rewrite dispatch_complaint in E0.
  destruct (heard_frame "user" t0 b w) as (Hf0 & Hd0 & Hr0 & _).
  rewrite <- Hf0 in Hp.
  destruct (complaint_start t0 _ (snd (heard "user" t0 b w)) Hp)
    as (b1 & w1 & E0' & P1 & D1 & R1).
  rewrite E0' in E0.
  (* the three replies *)
  destruct (handle_fill t1 b1 w1 _ P1 eq_refl H1) as (r1 & b2 & w2 & E1 & P2 & D2 & R2 & Q1).
  cbn in P2, R2. cbn [product issue order_id slots Bot.with_slots Bot.new_task] in Q1.
  destruct (handle_fill t2 b2 w2 _ P2 eq_refl H2) as (r2 & b3 & w3 & E2 & P3 & D3 & R3 & Q2).
  cbn in P3, R3. cbn [product issue order_id slots Bot.with_slots Bot.new_task] in Q2.
  destruct (handle_fill t3 b3 w3 _ P3 eq_refl H3) as (r3 & b4 & w4 & E3 & P4 & D4 & R4 & Q3).
  cbn in P4. cbn [product issue order_id slots Bot.with_slots Bot.new_task] in Q3.
  exists "I'm opening a support ticket. What product is this about?", r1, r2, r3, b4, w4,
         (ticket_number w3).
  split.
  { eapply converse_cons; [exact E0|].
    eapply converse_cons; [exact E1|].
    eapply converse_cons; [exact E2|].
    eapply converse_cons; [exact E3|]. reflexivity. }
  split; [exact P4|].
  split; [apply ticket_number_range|].
  split; [apply of_N_five_digits, ticket_number_range|].
  split; [reflexivity|]. split; [exact Q1|]. split; [exact Q2|].
  set (shown_id := if String.eqb (Str.lower (Str.strip t3)) "none"
                      || String.eqb (Str.strip t3) ""
                   then "N/A" else Str.strip t3).
  assert (Q : r3 = "Thanks! Ticket TKT-" ++ Str.of_N (ticket_number w3)
                   ++ " created. Product: " ++ t1 ++ ". Issue: " ++ t2 ++ ". Order ID: "
                   ++ shown_id ++ ". Our team will follow up.").
  { rewrite Q3. unfold Bot.ticket_text. cbn [product issue order_id Bot.shown].
    rewrite or_na_captured. fold shown_id. rewrite !append_assoc. reflexivity. }
  split; [exact Q|].
  rewrite Q. repeat split.
  - apply (contains_mid _ "Thanks! Ticket "
             (" created. Product: " ++ t1 ++ ". Issue: " ++ t2 ++ ". Order ID: "
              ++ shown_id ++ ". Our team will follow up.")).
    rewrite !append_assoc. reflexivity.
  - apply (contains_mid _ ("Thanks! Ticket TKT-" ++ Str.of_N (ticket_number w3)
                            ++ " created. Product: ")
             (". Issue: " ++ t2 ++ ". Order ID: "
              ++ shown_id ++ ". Our team will follow up.")).
    rewrite !append_assoc. reflexivity.
  - apply (contains_mid _ ("Thanks! Ticket TKT-" ++ Str.of_N (ticket_number w3)
                            ++ " created. Product: " ++ t1 ++ ". Issue: ")
             (". Order ID: "
              ++ shown_id ++ ". Our team will follow up.")).
    rewrite !append_assoc. reflexivity.
  - intros Hn. unfold shown_id. rewrite Hn. cbn [orb].
    destruct (String.eqb (Str.strip t3) "") eqn:He.
    + apply String.eqb_eq in He. rewrite He.
      apply (contains_mid _ ("Thanks! Ticket TKT-" ++ Str.of_N (ticket_number w3)
                              ++ " created. Product: " ++ t1 ++ ". Issue: " ++ t2
                              ++ ". Order ID: ")
               "N/A. Our team will follow up.").
      rewrite !append_assoc. reflexivity.
    + apply (contains_mid _ ("Thanks! Ticket TKT-" ++ Str.of_N (ticket_number w3)
                              ++ " created. Product: " ++ t1 ++ ". Issue: " ++ t2
                              ++ ". Order ID: ")
               ". Our team will follow up.").
      rewrite !append_assoc. reflexivity.
  - intros Hn. unfold shown_id. rewrite Hn. cbn [orb].
    apply (contains_mid _ ("Thanks! Ticket TKT-" ++ Str.of_N (ticket_number w3)
                            ++ " created. Product: " ++ t1 ++ ". Issue: " ++ t2 ++ ". ")
             " Our team will follow up.").
    rewrite !append_assoc. reflexivity.
Qed.

End RouterProperties.

Lemma complaint_flow_completes_witness :
  exists r0 r1 r2 r3 b' w' n,
    @converse opaque_floats plain_libs
      ["I have a problem"; "Blender"; "It leaks"; " A-1001 "]
      (fst (@Bot.init quiet_world)) (snd (@Bot.init quiet_world))
    = (Ok [r0; r1; r2; r3], b', w') /\
    pending_task b' = None /\
    (10000 <= n <= 99999)%N /\
    String.length (Str.of_N n) = 5 /\
    r0 = "I'm opening a support ticket. What product is this about?" /\
    r1 = "Got it. Briefly describe the issue." /\
    r2 = "Please share your order ID (or say 'none')." /\
    r3 = "Thanks! Ticket TKT-" ++ Str.of_N n ++ " created. Product: " ++ "Blender"
         ++ ". Issue: " ++ "It leaks" ++ ". Order ID: "
         ++ (if String.eqb (Str.lower (Str.strip " A-1001 ")) "none"
                || String.eqb (Str.strip " A-1001 ") ""
             then "N/A" else Str.strip " A-1001 ")
         ++ ". Our team will follow up." /\
    Str.contains ("TKT-" ++ Str.of_N n) r3 = true /\
    Str.contains "Blender" r3 = true /\
    Str.contains "It leaks" r3 = true /\
    (String.eqb (Str.lower (Str.strip " A-1001 ")) "none" = false ->
     Str.contains (Str.strip " A-1001 ") r3 = true) /\
    (String.eqb (Str.lower (Str.strip " A-1001 ")) "none" = true ->
     Str.contains "Order ID: N/A." r3 = true).
Proof.
  apply (@complaint_flow_completes opaque_floats plain_libs
           (fst (@Bot.init quiet_world)) (snd (@Bot.init quiet_world))
           "I have a problem" "Blender" "It leaks" " A-1001 ").
  - vm_compute. reflexivity.
  - vm_compute. reflexivity.
  - vm_compute. reflexivity.
  - vm_compute. reflexivity.
  - vm_compute. reflexivity.
Defined.

(** ** The order id and the reset *)

Section FlowProperties.
Context `{PyFloat} `{PyLibs}.

(** C6, as the program has it. On the last transition the reply is
    trimmed of surrounding white space; when what is left is none in any
    case, or nothing, the confirmation shows the order id as N/A;
    otherwise it shows the trimmed reply. *)
Theorem order_id_confirmation :
  forall (b : Chatbot) (w : World) (t : string) (task : Task) (p i : string),
    pending_task b = Some task ->
    task_type task = "complaint" ->
    product (slots task) = Some p ->
    issue (slots task) = Some i ->
    order_id (slots task) = None ->
    Str.startswith (normalize t) "/" = false ->
    exists b' w' n,
      Bot.handle t b w
      = (Ok ("Thanks! Ticket TKT-" ++ Str.of_N n ++ " created. Product: " ++ p
             ++ ". Issue: " ++ i ++ ". Order ID: "
             ++ (if String.eqb (Str.lower (Str.strip t)) "none"
                    || String.eqb (Str.strip t) ""
                 then "N/A" else Str.strip t)
             ++ ". Our team will follow up."), b', w') /\
      pending_task b' = None.
Proof.
  intros b w t task p i Hp Ht Ep Ei Eo Hc.
  destruct (handle_fill t b w task Hp Ht Hc) as (r & b' & w' & E & P & _ & _ & Q).
  unfold next_task in P. rewrite Ep, Ei, Eo in P, Q.
  exists b', w', (ticket_number w). split; [|exact P].
  rewrite E, Q, <- or_na_captured. reflexivity.
Qed.

Lemma handle_reset_clears (b : Chatbot) (w : World) :
  exists b' w',
    Bot.handle_reset b w = (Ok "Memory cleared. Fresh start!", b', w') /\
    data (mem b') =
      {| user_name := None; preferences := [];
         history := [{| h_time := clock w (ticks w); h_role := "assistant";
                        h_text := "Memory cleared. Fresh start!" |}] |} /\
    pending_task b' = pending_task b.
Proof.
  unfold Bot.handle_reset, bind, Bot.on_mem, within, Mem.set_data.
  rewrite save_persisted. rewrite reply_heard.
  eexists _, _. split; [reflexivity|].
  match goal with |- context [heard ?r ?x ?b0 ?w0] =>
    destruct (heard_frame r x b0 w0) as (Hf & _) end.
  rewrite Hf. split; [|reflexivity].
  unfold heard, logged. cbn [fst snd Bot.set_mem mem data Mem.with_history path
                             history Mem.empty_data user_name preferences].
  match goal with |- context [persisted ?m ?w'] =>
    destruct (persisted_frame m w') as (Pc & Pt & _) end.
  rewrite Pc, Pt. reflexivity.
Qed.

(** C10. /reset clears the name, the preferences and every earlier
    history entry (the history then holds the acknowledgement alone) and
    leaves the pending task as it was: a complaint that was being filled
    goes on, and the next input that is not a command is taken for its
    next slot. *)
Theorem reset_keeps_pending_task :
  forall (b : Chatbot) (w : World) (t : string) (task : Task),
    pending_task b = Some task ->
    task_type task = "complaint" ->
    normalize t = "/reset" ->
    exists b' w',
      Bot.handle t b w = (Ok "Memory cleared. Fresh start!", b', w') /\
      user_name (data (mem b')) = None /\
      preferences (data (mem b')) = [] /\
      history (data (mem b')) =
        [{| h_time := clock w (S (ticks w)); h_role := "assistant";
            h_text := "Memory cleared. Fresh start!" |}] /\
      pending_task b' = Some task /\
      forall t', Str.startswith (normalize t') "/" = false ->
        exists r b'' w'',
          Bot.handle t' b' w' = (Ok r, b'', w'') /\
          pending_task b'' = next_task t' task.
Proof.
  intros b w t task Hp Ht Hn.
  assert (Hc : Str.startswith (normalize t) "/" = true) by (rewrite Hn; reflexivity).
  rewrite (handle_command t b w Hc).
  unfold Bot.classify_and_dispatch. rewrite Hn.
  assert (Hi : fst (detect_intent "/reset") = "reset") by (vm_compute; reflexivity).
  destruct (detect_intent "/reset") as [i m]. cbn [fst] in Hi. subst i.
  rewrite dispatch_reset.
  destruct (heard_frame "user" t b w) as (Hf & _ & _ & Hclk & Htk).
  destruct (handle_reset_clears (fst (heard "user" t b w)) (snd (heard "user" t b w)))
    as (b' & w' & E & D & P).
  exists b', w'. rewrite E, D, P, Hf, Hclk, Htk.
  repeat split; try reflexivity; try exact Hp.
  intros t' Hc'.
  assert (Hp' : pending_task b' = Some task) by (rewrite P, Hf; exact Hp).
  destruct (handle_fill t' b' w' task Hp' Ht Hc') as (r & b'' & w'' & E' & P' & _).
  exists r, b'', w''. split; assumption.
Qed.

End FlowProperties.

Lemma order_id_confirmation_witness :
  exists b' w' n,
    @Bot.handle opaque_floats plain_libs "  A-1001 " awaiting_order_id quiet_world
    = (Ok ("Thanks! Ticket TKT-" ++ Str.of_N n ++ " created. Product: " ++ "Blender"
           ++ ". Issue: " ++ "It leaks" ++ ". Order ID: "
           ++ (if String.eqb (Str.lower (Str.strip "  A-1001 ")) "none"
                  || String.eqb (Str.strip "  A-1001 ") ""
               then "N/A" else Str.strip "  A-1001 ")
           ++ ". Our team will follow up."), b', w') /\
    pending_task b' = None.
Proof.
  apply (@order_id_confirmation opaque_floats plain_libs awaiting_order_id quiet_world
           "  A-1001 "
           {| task_type := "complaint";
              slots := {| product := Some "Blender"; issue := Some "It leaks";
                          order_id := None |} |}
           "Blender" "It leaks").
  - reflexivity.
  - reflexivity.
  - reflexivity.
  - reflexivity.
  - reflexivity.
  - vm_compute. reflexivity.
Defined.

(** C6 as stated fails: after the reply none the confirmation shows N/A
    and not the words of the claim, and a reply with blanks around it is
    not kept as typed. *)
Lemma order_id_none_counterexample :
  fst (fst (@converse opaque_floats plain_libs
              ["I have a problem"; "Blender"; "It leaks"; "none"]
              fresh_bot quiet_world))
  = Ok ["I'm opening a support ticket. What product is this about?";
        "Got it. Briefly describe the issue.";
        "Please share your order ID (or say 'none').";
        "Thanks! Ticket TKT-10000 created. Product: Blender. Issue: It leaks. Order ID: N/A. Our team will follow up."]
  /\ Str.contains "no order id provided"
       "Thanks! Ticket TKT-10000 created. Product: Blender. Issue: It leaks. Order ID: N/A. Our team will follow up."
     = false
  /\ fst (fst (@converse opaque_floats plain_libs
                 ["I have a problem"; "Blender"; "It leaks"; "  A-1001 "]
                 fresh_bot quiet_world))
     = Ok ["I'm opening a support ticket. What product is this about?";
           "Got it. Briefly describe the issue.";
           "Please share your order ID (or say 'none').";
           "Thanks! Ticket TKT-10000 created. Product: Blender. Issue: It leaks. Order ID: A-1001. Our team will follow up."].
Proof. vm_compute. repeat split. Qed.

Lemma reset_keeps_pending_task_witness :
  exists b' w',
    @Bot.handle opaque_floats plain_libs " /RESET " awaiting_order_id quiet_world
    = (Ok "Memory cleared. Fresh start!", b', w') /\
    user_name (data (mem b')) = None /\
    preferences (data (mem b')) = [] /\
    history (data (mem b')) =
      [{| h_time := clock quiet_world (S (ticks quiet_world)); h_role := "assistant";
          h_text := "Memory cleared. Fresh start!" |}] /\
    pending_task b' =
      Some {| task_type := "complaint";
              slots := {| product := Some "Blender"; issue := Some "It leaks";
                          order_id := None |} |} /\
    forall t', Str.startswith (normalize t') "/" = false ->
      exists r b'' w'',
        @Bot.handle opaque_floats plain_libs t' b' w' = (Ok r, b'', w'') /\
        pending_task b'' =
          next_task t'
            {| task_type := "complaint";
               slots := {| product := Some "Blender"; issue := Some "It leaks";
                           order_id := None |} |}.
Proof.
  apply (@reset_keeps_pending_task opaque_floats plain_libs awaiting_order_id quiet_world
           " /RESET "
           {| task_type := "complaint";
              slots := {| product := Some "Blender"; issue := Some "It leaks";
                          order_id := None |} |}).
  - reflexivity.
  - reflexivity.
  - vm_compute. reflexivity.
Defined.

(** ** The calculator *)

Section CalculatorProperties.
Context `{PyFloat} `{PyLibs}.
Import Ast.

(** X3. Whatever [visit] would reject, [_eval] does not evaluate to a
    value: the evaluator fails closed, though only when it gets there. *)
Lemma eval_fails_where_visit_rejects (n : node) :
  is_raise (SafeEvaluator.visit n) = true ->
  is_raise (SafeEvaluator._eval n) = true.
Proof.
  induction n as [v | l IHl op r IHr | op e IHe | id | f IHf args | l IHl ops cs | k cs];
    cbn [SafeEvaluator.visit SafeEvaluator._eval SafeEvaluator.ALLOWED_NODES negb];
    intros Hv; try discriminate Hv; try reflexivity.
  - destruct (SafeEvaluator._eval l) as [vl|] eqn:El; [|reflexivity].
    destruct (SafeEvaluator._eval r) as [vr|] eqn:Er; [|reflexivity].
    cbn [rbind].
    destruct (SafeEvaluator.visit l); cbn [rbind] in Hv;
      [|specialize (IHl eq_refl); discriminate IHl].
    destruct (SafeEvaluator.allowed_operator op); cbn [negb] in Hv; [|reflexivity].
    specialize (IHr Hv). discriminate IHr.
  - destruct (SafeEvaluator._eval e) as [ve|] eqn:Ee; [|reflexivity].
    cbn [rbind].
    destruct op; cbn [SafeEvaluator.allowed_unaryop negb] in Hv;
      try reflexivity; specialize (IHe Hv); discriminate IHe.
Qed.

Lemma calculator_reply (text : string) (b : Chatbot) (w : World) :
  fst (fst (Bot.handle_calculator text b w))
  = Ok (match SafeEvaluator.eval
                (Re.sub Bot.calc_prefix ""
                   (if Str.startswith (Str.strip text) "="
                    then Str.drop 1 (Str.strip text) else text)) with
        | Ok val => "Result: " ++ SafeEvaluator.value_str val
        | Raise e => "Sorry, I couldn't evaluate that. (" ++ exn_str e ++ ")"
        end).
Proof.
  unfold Bot.handle_calculator. cbv zeta.
  destruct (SafeEvaluator.eval _); rewrite reply_heard; reflexivity.
Qed.

(** C7. [eval] of 2+2 is 4; [eval] of 10/0 raises the division by zero
    error, which the calculator handler turns into a reply; [eval] of
    import os fails in the parser, and the handler replies as well. *)
Theorem eval_examples :
  SafeEvaluator.eval "2+2" = Ok (Int 4) /\
  SafeEvaluator.eval "10/0" = Raise (ZeroDivisionError "division by zero") /\
  (forall b w,
      fst (fst (Bot.handle_calculator "10/0" b w))
      = Ok "Sorry, I couldn't evaluate that. (division by zero)") /\
  SafeEvaluator.eval "import os" = Raise Parser.syntax_error /\
  (forall b w,
      fst (fst (Bot.handle_calculator "import os" b w))
      = Ok "Sorry, I couldn't evaluate that. (invalid syntax (<unknown>, line 1))") /\
  (forall b w, fst (fst (Bot.handle_calculator "=2+2" b w)) = Ok "Result: 4").
Proof.
  repeat split; intros; try rewrite calculator_reply; vm_compute; reflexivity.
Qed.

(** C3 fails on the program. [eval] never calls [visit]: the division
    in 1/0 + (1 < 2) is carried out, and raises, before the comparison
    is looked at, although [visit] rejects the tree. *)
Theorem eval_computes_before_rejecting :
  Parser.ast_parse "1/0 + (1 < 2)"
  = Ok (BinOp (BinOp (Constant (CInt 1)) Div (Constant (CInt 0))) Add
              (Compare (Constant (CInt 1)) [Lt] [Constant (CInt 2)])) /\
  rbind (Parser.ast_parse "1/0 + (1 < 2)") SafeEvaluator.visit
  = Raise SafeEvaluator.disallowed /\
  SafeEvaluator.eval "1/0 + (1 < 2)" = Raise (ZeroDivisionError "division by zero") /\
  (forall b w,
      fst (fst (Bot.handle_calculator "=1/0 + (1 < 2)" b w))
      = Ok "Sorry, I couldn't evaluate that. (division by zero)") /\
  SafeEvaluator.eval "(1+2) * (3 < 4)" = Raise SafeEvaluator.unsupported.
Proof.
  repeat split; intros; try rewrite calculator_reply; vm_compute; reflexivity.
Qed.

End CalculatorProperties.

(** ** CSV quick insights *)

Lemma round_half_even_close (x : Q) :
  (Qabs (x - inject_Z (Float64.round_half_even x)) <= 1 # 2)%Q.
Proof.
  unfold Float64.round_half_even.
  pose proof (Qfloor_le x) as Hlo. pose proof (Qlt_floor x) as Hhi.
  rewrite inject_Z_plus in Hhi. change (inject_Z 1) with 1%Q in Hhi.
  apply Qabs_Qle_condition.
  destruct (Qcompare (x - inject_Z (Qfloor x)) (1 # 2)) eqn:C.
  - apply Qeq_alt in C.
    destruct (Z.even (Qfloor x)).
    + split; lra.
    + rewrite inject_Z_plus. change (inject_Z 1) with 1%Q. split; lra.
  - apply Qlt_alt in C. split; lra.
  - apply Qgt_alt in C. rewrite inject_Z_plus. change (inject_Z 1) with 1%Q.
    split; lra.
Qed.

Lemma of_N_length_below_1000 (d : N) :
  (d < 1000)%N ->
  String.length (Str.of_N d)
  = if (d <? 10)%N then 1 else if (d <? 100)%N then 2 else 3.
Proof.
  intros Hd.
  destruct (N.ltb_spec d 10) as [H10|H10].
  - rewrite of_N_small by exact H10. reflexivity.
  - rewrite (of_N_step d) by exact H10. rewrite length_append.
    destruct (N.ltb_spec d 100) as [H100|H100].
    + rewrite of_N_small by dlia. reflexivity.
    + rewrite (of_N_step (d / 10)) by dlia. rewrite length_append.
      rewrite of_N_small by dlia. reflexivity.
Qed.

Lemma pad3_length (k : Z) : String.length (Float64.pad3 (k mod 1000)) = 3.
Proof.
  assert (Hk : (0 <= k mod 1000 < 1000)%Z) by (apply Z.mod_pos_bound; lia).
  unfold Float64.pad3.
  assert (E : Str.of_Z (k mod 1000) = Str.of_N (Z.to_N (k mod 1000))).
  { unfold Str.of_Z. destruct (k mod 1000)%Z; try reflexivity. lia. }
  rewrite E.
  pose proof (of_N_length_below_1000 (Z.to_N (k mod 1000))) as L.
  specialize (L ltac:(lia)).
  set (d := Str.of_N (Z.to_N (k mod 1000))) in *.
  destruct (Z.to_N (k mod 1000) <? 10)%N.
  { rewrite L, length_append, L. reflexivity. }
  destruct (Z.to_N (k mod 1000) <? 100)%N.
  { rewrite L, length_append, L. reflexivity. }
  rewrite L. exact L.
Qed.

Lemma column_values_omap (col : string) (rows : list Row) :
  Bot.column_values col rows
  = omap (fun r => Bot.row_get col r ≫= Float64.float_of_str) rows.
Proof.
  induction rows as [|r rows IH]; [reflexivity|].
  cbn [Bot.column_values omap list_omap]. rewrite IH.
  destruct (Bot.row_get col r) as [v|]; cbn; [|reflexivity].
  destruct (Float64.float_of_str v); reflexivity.
Qed.

Lemma finite_data_is_finite (l : list (bool * Q)) :
  forallb Float64.is_finite (finite_data l) = true.
Proof. induction l as [|p l IH]; [reflexivity|]. exact IH. Qed.

Lemma exact_finite_data (l : list (bool * Q)) :
  List.map Stats.exact (finite_data l) = List.map signed l.
Proof.
  unfold finite_data. rewrite List.map_map. apply List.map_ext.
  intros [[|] q]; reflexivity.
Qed.

Lemma total_ext {A : Type} (f g : A -> Q) (l : list A) :
  (forall x, (f x == g x)%Q) -> (total (List.map f l) == total (List.map g l))%Q.
Proof.
  intros E. induction l as [|a l IH]; [reflexivity|].
  cbn [List.map total fold_right]. fold (total (List.map f l)) (total (List.map g l)).
  rewrite (E a), IH. reflexivity.
Qed.

Lemma exact_mean_finite (l : list (bool * Q)) :
  (Stats.exact_mean (finite_data l) == arithmetic_mean (List.map signed l))%Q.
Proof.
  unfold Stats.exact_mean, arithmetic_mean, Stats.count_Q. rewrite Qred_correct.
  rewrite exact_finite_data. unfold finite_data. rewrite !List.length_map. reflexivity.
Qed.

Lemma exact_pvariance_finite (l : list (bool * Q)) :
  (Stats.exact_pvariance (finite_data l) == population_variance (List.map signed l))%Q.
Proof.
  unfold Stats.exact_pvariance, Stats.exact_ss, population_variance, Stats.count_Q.
  rewrite !Qred_correct.
  assert (E : (Stats.Qsum (List.map (fun x => (Stats.exact x - Stats.exact_mean (finite_data l))
                                              * (Stats.exact x - Stats.exact_mean (finite_data l)))
                             (finite_data l))
               == total (List.map (fun x => (x - arithmetic_mean (List.map signed l))
                                            * (x - arithmetic_mean (List.map signed l)))
                           (List.map signed l)))%Q).
  { rewrite <- exact_finite_data, List.map_map.
    apply (total_ext
             (fun x => (Stats.exact x - Stats.exact_mean (finite_data l))
                       * (Stats.exact x - Stats.exact_mean (finite_data l)))%Q).
    intros x. rewrite (exact_mean_finite l), exact_finite_data. reflexivity. }
  rewrite E. unfold finite_data. rewrite !List.length_map. reflexivity.
Qed.

(** [sorted] gives the same floats, in ascending order. *)
Lemma insert_perm (x : Float64.pyfloat) (l : list Float64.pyfloat) :
  Permutation (Stats.insert x l) (x :: l).
Proof.
  induction l as [|y l IH]; [reflexivity|].
  cbn [Stats.insert]. destruct (Qle_bool (Stats.exact x) (Stats.exact y)); [reflexivity|].
  rewrite IH. apply perm_swap.
Qed.

Lemma sorted_perm (l : list Float64.pyfloat) : Permutation (Stats.sorted l) l.
Proof.
  induction l as [|x l IH]; [reflexivity|].
  change (Stats.sorted (x :: l)) with (Stats.insert x (Stats.sorted l)).
  rewrite insert_perm, IH. reflexivity.
Qed.

Lemma insert_ascending (x : Float64.pyfloat) (l : list Float64.pyfloat) :
  ascending l -> ascending (Stats.insert x l).
Proof.
  induction l as [|y l IH]; intros Ha.
  - cbn. split; exact I.
  - cbn [Stats.insert]. destruct (Qle_bool (Stats.exact x) (Stats.exact y)) eqn:E.
    + apply Qle_bool_iff in E. split; [exact E | exact Ha].
    + assert (Hyx : (Stats.exact y <= Stats.exact x)%Q).
      { apply Qlt_le_weak, Qnot_le_lt. intros Hle.
        apply Qle_bool_iff in Hle. rewrite Hle in E. discriminate E. }
      destruct Ha as (Hy & Ha). specialize (IH Ha).
      split; [|exact IH].
      destruct l as [|z l]; cbn [Stats.insert]; [exact Hyx|].
      destruct (Qle_bool (Stats.exact x) (Stats.exact z)); [exact Hyx | exact Hy].
Qed.

Lemma sorted_ascending (l : list Float64.pyfloat) : ascending (Stats.sorted l).
Proof.
  induction l as [|x l IH]; [exact I|].
  change (Stats.sorted (x :: l)) with (Stats.insert x (Stats.sorted l)).
  apply insert_ascending, IH.
Qed.

Lemma stats_line_not_finite (col : string) (pre post : list Float64.pyfloat)
      (x : Float64.pyfloat) :
  Float64.is_finite x = false ->
  Bot.stats_line col (pre ++ x :: post)%list
  = Raise (AttributeError "'float' object has no attribute 'numerator'").
Proof.
  intros Hx. unfold Bot.stats_line. rewrite forallb_app. cbn [forallb]. rewrite Hx.
  rewrite andb_false_r. reflexivity.
Qed.

(** C8. For the selected column the values that [float] accepts are
    kept in row order and the others are skipped without an error. When
    all the values kept are finite, the line of statistics gives their
    count, the float nearest to their arithmetic mean, their median (the
    middle of the values in ascending order) and the float nearest to
    the root of their population variance (the squared deviations are
    divided by the count), each rounded to three decimals. For
    Sales = 1, 2, 3 it reads count=3, mean=2.000, median=2.000,
    stdev=0.816. But [float] also accepts inf, infinity and nan, in any
    case and with a sign, and a numeral too large for a float: with one
    such value in the column no line is given, [pstdev] raises
    [AttributeError], which nothing catches: the turn raises and [run]
    stops. *)
Theorem csv_quick_stats :
  (forall col rows,
      Bot.column_values col rows
      = omap (fun r => Bot.row_get col r ≫= Float64.float_of_str) rows) /\
  (forall col p l,
      exists (mu var : Q) (s : list Float64.pyfloat),
        Bot.stats_line col (finite_data (p :: l))
        = Ok ("Quick stats for '" ++ col ++ "': count=" ++ Str.of_nat (S (List.length l))
              ++ ", mean=" ++ Float64.format3 (Float64.of_Q mu)
              ++ ", median=" ++ Float64.format3 (middle s)
              ++ ", stdev=" ++ Float64.format3 (Float64.sqrt_of_Q var)) /\
        (mu == arithmetic_mean (List.map signed (p :: l)))%Q /\
        (var == population_variance (List.map signed (p :: l)))%Q /\
        Permutation s (finite_data (p :: l)) /\
        ascending s) /\
  (forall neg m,
      let k := Float64.round_half_even (m * 1000) in
      Float64.format3 (Float64.Finite neg m)
      = (if neg then "-" else "") ++ Str.of_Z (k / 1000) ++ "."
        ++ Float64.pad3 (k mod 1000) /\
      String.length (Float64.pad3 (k mod 1000)) = 3 /\
      (Qabs (m * 1000 - inject_Z k) <= 1 # 2)%Q) /\
  (forall col pre post,
      Bot.stats_line col (pre ++ Float64.NaN :: post)%list
      = Raise (AttributeError "'float' object has no attribute 'numerator'") /\
      forall neg,
        Bot.stats_line col (pre ++ Float64.Inf neg :: post)%list
        = Raise (AttributeError "'float' object has no attribute 'numerator'")) /\
  Bot.csv_insights "sales.csv" ["Sales"]
    [[("Sales", Some "1")]; [("Sales", Some "2")]; [("Sales", Some "3")]]
  = Ok ("Loaded sales.csv with 3 rows and 1 columns." ++ Bot.nl
        ++ "Quick stats for 'Sales': count=3, mean=2.000, median=2.000, stdev=0.816") /\
  Bot.csv_insights "sales.csv" ["Region"; "Sales"]
    [[("Region", Some "north"); ("Sales", Some "1")];
     [("Region", Some "south"); ("Sales", Some "n/a")];
     [("Region", Some "east"); ("Sales", Some " 2 ")];
     [("Region", Some "west"); ("Sales", Some "")];
     [("Region", Some "west"); ("Sales", None)];
     [("Region", Some "centre"); ("Sales", Some "3.0")]]
  = Ok ("Loaded sales.csv with 6 rows and 2 columns." ++ Bot.nl
        ++ "Quick stats for 'Sales': count=3, mean=2.000, median=2.000, stdev=0.816") /\
  Bot.csv_insights "sales.csv" ["Sales"]
    [[("Sales", Some "10")]; [("Sales", Some "1.5")]; [("Sales", Some "4")];
     [("Sales", Some "2")]]
  = Ok ("Loaded sales.csv with 4 rows and 1 columns." ++ Bot.nl
        ++ "Quick stats for 'Sales': count=4, mean=4.375, median=3.000, stdev=3.380") /\
  Bot.csv_insights "sales.csv" ["Sales"]
    [[("Sales", Some "2.5")]; [("Sales", Some "-1e-3")]; [("Sales", Some "1_000")]]
  = Ok ("Loaded sales.csv with 3 rows and 1 columns." ++ Bot.nl
        ++ "Quick stats for 'Sales': count=3, mean=334.166, median=2.500, stdev=470.817") /\
  Bot.csv_insights "sales.csv" ["Sales"]
    [[("Sales", Some "0.1")]; [("Sales", Some "0.2")]; [("Sales", Some "0.4")];
     [("Sales", Some "1.5")]]
  = Ok ("Loaded sales.csv with 4 rows and 1 columns." ++ Bot.nl
        ++ "Quick stats for 'Sales': count=4, mean=0.550, median=0.300, stdev=0.559") /\
  List.map Float64.float_of_str ["inf"; " -Infinity "; "NaN"; "+nan"; "1e999"]
  = [Some (Float64.Inf false); Some (Float64.Inf true); Some Float64.NaN;
     Some Float64.NaN; Some (Float64.Inf false)] /\
  Bot.csv_insights "sales.csv" ["Sales"]
    [[("Sales", Some "1")]; [("Sales", Some "inf")]; [("Sales", Some "3")]]
  = Raise (AttributeError "'float' object has no attribute 'numerator'") /\
  Bot.csv_insights "sales.csv" ["Region"; "Sales"]
    [[("Region", Some "north"); ("Sales", Some "1")];
     [("Region", Some "south"); ("Sales", Some "nan")]]
  = Raise (AttributeError "'float' object has no attribute 'numerator'") /\
  fst (fst (@Bot.handle opaque_floats
              (table_libs ["Sales"] [[("Sales", Some "1")]; [("Sales", Some "inf")]])
              "/loadcsv sales.csv" fresh_bot
              (write_file "sales.csv" ("Sales" ++ Bot.nl ++ "1" ++ Bot.nl ++ "inf" ++ Bot.nl)
                 quiet_world)))
  = Raise (AttributeError "'float' object has no attribute 'numerator'") /\
  fst (fst (fst (@Main.run opaque_floats
                   (table_libs ["Sales"] [[("Sales", Some "1")]; [("Sales", Some "inf")]])
                   3 ["/loadcsv sales.csv"; "hello"]
                   (write_file "sales.csv"
                      ("Sales" ++ Bot.nl ++ "1" ++ Bot.nl ++ "inf" ++ Bot.nl) quiet_world))))
  = Main.Failed (AttributeError "'float' object has no attribute 'numerator'").
Proof.
  split; [exact column_values_omap|].
  split.
  { intros col p l.
    exists (Stats.exact_mean (finite_data (p :: l))),
           (Stats.exact_pvariance (finite_data (p :: l))),
           (Stats.sorted (finite_data (p :: l))).
    split.
    { unfold Bot.stats_line. rewrite finite_data_is_finite.
      unfold finite_data. rewrite List.length_map. reflexivity. }
    split; [apply exact_mean_finite|].
    split; [apply exact_pvariance_finite|].
    split; [apply sorted_perm | apply sorted_ascending]. }
  split.
  { intros neg m k. repeat split.
    - apply pad3_length.
    - apply round_half_even_close. }
  split.
  { intros col pre post. split; [|intros neg]; apply stats_line_not_finite; reflexivity. }
  repeat split; vm_compute; reflexivity.
Qed.

(** ** The json codec *)

Lemma skip_ws_app (a s : string) :
  all_ws a = true -> Json.skip_ws (a ++ s) = Json.skip_ws s.
Proof.
  induction a as [|c a IH]; [reflexivity|].
  cbn [all_ws]. intros Ha. apply andb_true_iff in Ha as [Hc Ha].
  rewrite append_cons. cbn [Json.skip_ws]. rewrite Hc. apply IH, Ha.
Qed.

Lemma skip_ws_head (c : ascii) (s : string) :
  Json.is_ws c = false -> Json.skip_ws (String c s) = String c s.
Proof. intros Hc. cbn [Json.skip_ws]. rewrite Hc. reflexivity. Qed.

Lemma all_ws_app (a b : string) :
  all_ws a = true -> all_ws b = true -> all_ws (a ++ b) = true.
Proof.
  induction a as [|c a IH]; [auto|].
  cbn [all_ws]. intros Ha Hb. apply andb_true_iff in Ha as [Hc Ha].
  rewrite append_cons. cbn [all_ws]. rewrite Hc. apply IH; assumption.
Qed.

Lemma is_indent_inner (ind : string) :
  is_indent ind = true -> is_indent (ind ++ "  ") = true.
Proof.
  destruct ind as [|c sp]; [discriminate|].
  cbn [is_indent]. intros Hi. apply andb_true_iff in Hi as [Hc Hs].
  rewrite append_cons. cbn [is_indent]. rewrite Hc.
  apply all_ws_app; [exact Hs | reflexivity].
Qed.

Lemma is_indent_ws (ind : string) : is_indent ind = true -> all_ws ind = true.
Proof.
  destruct ind as [|c sp]; [discriminate|].
  cbn [is_indent all_ws]. intros Hi. apply andb_true_iff in Hi as [Hc Hs].
  rewrite Hs, andb_true_r. apply N.eqb_eq in Hc.
  unfold Json.is_ws. rewrite Hc. reflexivity.
Qed.

Lemma is_indent_tail (ind s : string) :
  is_indent ind = true -> tail_ok (ind ++ s) = true.
Proof.
  destruct ind as [|c sp]; [discriminate|].
  cbn [is_indent]. intros Hi. apply andb_true_iff in Hi as [Hc _].
  rewrite append_cons. cbn [tail_ok]. apply N.eqb_eq in Hc.
  unfold Json.is_ws. rewrite Hc. reflexivity.
Qed.

(** *** Strings *)

Lemma scan_string_char (c : ascii) (t : string) :
  Json.scan_string (Json.escape_char c ++ t)
  = match Json.scan_string t with
    | Some (x, r) => Some (String c x, r)
    | None => None
    end.
Proof.
  destruct c as [[] [] [] [] [] [] [] []]; reflexivity.
Qed.

Lemma scan_string_escape (s rest : string) :
  Json.scan_string (Json.escape s ++ Json.quote ++ rest) = Some (s, rest).
Proof.
  induction s as [|c s IH].
  - reflexivity.
  - cbn [Json.escape]. rewrite append_assoc, scan_string_char, IH. reflexivity.
Qed.

(** *** Integers *)

Lemma digit_cases (d : N) :
  (d < 10)%N ->
  d = 0%N \/ d = 1%N \/ d = 2%N \/ d = 3%N \/ d = 4%N \/ d = 5%N \/ d = 6%N \/
  d = 7%N \/ d = 8%N \/ d = 9%N.
Proof. lia. Qed.

Lemma digit_char_spec (d : N) :
  (d < 10)%N ->
  Str.is_digit (Str.digit_char d) = true /\
  (Str.code (Str.digit_char d) - 48 = d)%N /\
  (Str.code (Str.digit_char d) = 48 + d)%N.
Proof.
  intros Hd.
  destruct (digit_cases d Hd) as [->|[->|[->|[->|[->|[->|[->|[->|[->| ->]]]]]]]]];
    repeat split.
Qed.

Lemma scan_digits_stop (a : N) (rest : string) :
  tail_ok rest = true -> Json.scan_digits a rest = (a, rest).
Proof.
  destruct rest as [|c r]; [reflexivity|].
  cbn [tail_ok Json.scan_digits]. intros Ht.
  destruct (Str.is_digit c) eqn:Hd; [|reflexivity].
  exfalso. unfold Str.is_digit, Str.between, Json.is_ws in *.
  apply andb_true_iff in Hd as [H1 H2].
  apply N.leb_le in H1, H2.
  repeat (apply orb_true_iff in Ht as [Ht|Ht]);
    try apply N.eqb_eq in Ht; lia.
Qed.

Lemma scan_digits_to_digits (f : nat) :
  forall n acc rest,
    (n < 2 ^ N.of_nat (S f))%N ->
    Json.scan_digits 0 (Str.to_digits (S f) n acc ++ rest)
    = Json.scan_digits n (acc ++ rest).
Proof.
  induction f as [|f IH]; intros n acc rest Hf.
  - assert (Hn : (n / 10 = 0)%N).
    { change (2 ^ N.of_nat 1)%N with 2%N in Hf. dlia. }
    rewrite to_digits_S, Hn. cbn [N.eqb]. rewrite append_cons.
    cbn [Json.scan_digits].
    destruct (digit_char_spec (n mod 10)) as (Hd & Hv & _); [dlia|].
    rewrite Hd, Hv. f_equal. dlia.
  - rewrite (to_digits_S (S f)).
    destruct (N.eqb_spec (n / 10) 0) as [E|E].
    + rewrite append_cons. cbn [Json.scan_digits].
      destruct (digit_char_spec (n mod 10)) as (Hd & Hv & _); [dlia|].
      rewrite Hd, Hv. f_equal. dlia.
    + rewrite pow2_succ in Hf. pose proof (pow2_pos (S f)).
      rewrite IH by dlia. rewrite append_cons. cbn [Json.scan_digits].
      destruct (digit_char_spec (n mod 10)) as (Hd & Hv & _); [dlia|].
      rewrite Hd, Hv. f_equal. dlia.
Qed.

(** The numeral of a positive number starts with a digit other than 0. *)
Lemma to_digits_head (f : nat) :
  forall n acc,
    (0 < n)%N -> (n < 2 ^ N.of_nat (S f))%N ->
    exists d s, Str.to_digits (S f) n acc = String (Str.digit_char d) s /\ (1 <= d < 10)%N.
Proof.
  induction f as [|f IH]; intros n acc Hn Hf.
  - assert (E : (n / 10 = 0)%N).
    { change (2 ^ N.of_nat 1)%N with 2%N in Hf. dlia. }
    rewrite to_digits_S, E. cbn [N.eqb]. exists (n mod 10)%N, acc. split; [reflexivity|dlia].
  - rewrite (to_digits_S (S f)).
    destruct (N.eqb_spec (n / 10) 0) as [E|E].
    + exists (n mod 10)%N, acc. split; [reflexivity|dlia].
    + rewrite pow2_succ in Hf. pose proof (pow2_pos (S f)).
      apply IH; dlia.
Qed.

Lemma tail_ok_no_fraction (rest : string) :
  tail_ok rest = true -> Json.starts_fraction rest = false.
Proof.
  destruct rest as [|c r]; [reflexivity|].
  cbn [tail_ok Json.starts_fraction]. intros Ht.
  unfold Json.is_ws in Ht.
  repeat (apply orb_true_iff in Ht as [Ht|Ht]);
    apply N.eqb_eq in Ht; rewrite Ht; reflexivity.
Qed.

Lemma scan_natural_of_N (n : N) (rest : string) :
  tail_ok rest = true ->
  Json.scan_natural (Str.of_N n ++ rest) = Some (n, rest).
Proof.
  intros Ht. pose proof (tail_ok_no_fraction rest Ht) as Hfr.
  destruct (N.eq_dec n 0%N) as [->|Hn].
  - change (Str.of_N 0) with "0". rewrite append_cons, append_nil_l.
    cbn [Json.scan_natural]. change (Str.code "0" =? 48)%N with true.
    cbv iota. rewrite Hfr. reflexivity.
  - pose proof (scan_digits_to_digits (N.to_nat (N.log2 n)) n "" rest (log2_fuel n)) as Hs.
    destruct (to_digits_head (N.to_nat (N.log2 n)) n "" ltac:(lia) (log2_fuel n))
      as (d & s & Hd & Hr).
    fold (Str.of_N n) in Hs, Hd.
    rewrite append_nil_l, (scan_digits_stop n rest Ht) in Hs.
    rewrite Hd in *. rewrite append_cons in *.
    cbn [Json.scan_natural].
    destruct (digit_char_spec d) as (Hdig & _ & Hc); [lia|].
    rewrite Hdig, Hc.
    destruct (N.eqb_spec (48 + d) 48) as [E|_]; [lia|].
    rewrite Hs, Hfr. reflexivity.
Qed.

Lemma scan_number_of_Z (z : Z) (rest : string) :
  tail_ok rest = true ->
  Json.scan_number (Str.of_Z z ++ rest) = Some (Json.JInt z, rest).
Proof.
  intros Ht. destruct z as [|p|p].
  - change (Str.of_Z 0) with "0". rewrite append_cons, append_nil_l.
    cbn [Json.scan_number]. change (Str.code "0" =? 45)%N with false. cbv iota.
    pose proof (scan_natural_of_N 0 rest Ht) as Hs.
    change (Str.of_N 0) with "0" in Hs. rewrite append_cons, append_nil_l in Hs.
    rewrite Hs. reflexivity.
  - change (Str.of_Z (Z.pos p)) with (Str.of_N (N.pos p)).
    pose proof (scan_natural_of_N (N.pos p) rest Ht) as Hs.
    destruct (to_digits_head (N.to_nat (N.log2 (N.pos p))) (N.pos p) ""
                ltac:(lia) (log2_fuel (N.pos p))) as (d & s & Hd & Hr).
    fold (Str.of_N (N.pos p)) in Hd. rewrite Hd in *. rewrite append_cons in *.
    cbn [Json.scan_number].
    destruct (digit_char_spec d) as (_ & _ & Hc); [lia|].
    rewrite Hc. destruct (N.eqb_spec (48 + d) 45) as [E|_]; [lia|].
    rewrite Hs. reflexivity.
  - change (Str.of_Z (Z.neg p)) with (String "-" (Str.of_N (N.pos p))).
    rewrite append_cons. cbn [Json.scan_number].
    change (Str.code "-" =? 45)%N with true. cbv iota.
    rewrite (scan_natural_of_N (N.pos p) rest Ht). reflexivity.
Qed.

(** *** Documents *)

Lemma json_nested_ind (P : Json.json -> Prop) :
  P Json.JNull ->
  (forall b, P (Json.JBool b)) ->
  (forall z, P (Json.JInt z)) ->
  (forall s, P (Json.JStr s)) ->
  (forall l, Forall P l -> P (Json.JArr l)) ->
  (forall kvs, Forall (fun kv => P (snd kv)) kvs -> P (Json.JObj kvs)) ->
  forall v, P v.
Proof.
  intros Hnull Hbool Hint Hstr Harr Hobj.
  fix IH 1. intros [ | b | z | s | l | kvs].
  - exact Hnull.
  - apply Hbool.
  - apply Hint.
  - apply Hstr.
  - apply Harr. induction l as [|x l IHl]; constructor; [apply IH | exact IHl].
  - apply Hobj. induction kvs as [|[k x] kvs IHl]; constructor; [apply IH | exact IHl].
Qed.

Lemma dump_arr_cons (ind : string) (x : Json.json) (xs : list Json.json) :
  Json.dump ind (Json.JArr (x :: xs))
  = "[" ++ (ind ++ "  ") ++ Json.dump (ind ++ "  ") x
    ++ more_items (ind ++ "  ") xs ++ ind ++ "]".
Proof.
  cbn [Json.dump]. do 4 f_equal.
  induction xs as [|y ys IH]; [reflexivity|].
  cbn [more_items]. rewrite <- IH. reflexivity.
Qed.

Lemma dump_obj_cons (ind k : string) (x : Json.json) (kvs : list (string * Json.json)) :
  Json.dump ind (Json.JObj ((k, x) :: kvs))
  = "{" ++ (ind ++ "  ") ++ Json.dump_string k ++ ": " ++ Json.dump (ind ++ "  ") x
    ++ more_members (ind ++ "  ") kvs ++ ind ++ "}".
Proof.
  cbn [Json.dump]. do 6 f_equal.
  induction kvs as [|[k' y] ys IH]; [reflexivity|].
  cbn [more_members]. rewrite <- IH. reflexivity.
Qed.

Lemma of_Z_head (z : Z) :
  exists c s, Str.of_Z z = String c s /\
              (Str.code c = 45 \/ 48 <= Str.code c <= 57)%N.
Proof.
  destruct z as [|p|p].
  - exists "0"%char, "". split; [reflexivity|]. right. cbn. lia.
  - destruct (to_digits_head (N.to_nat (N.log2 (N.pos p))) (N.pos p) ""
                ltac:(lia) (log2_fuel (N.pos p))) as (d & s & Hd & Hr).
    exists (Str.digit_char d), s. split; [exact Hd|].
    destruct (digit_char_spec d) as (_ & _ & Hc); [lia|]. right. lia.
  - exists "-"%char, (Str.of_N (N.pos p)). split; [reflexivity|]. left. reflexivity.
Qed.

(** A dumped value starts with a character that is neither white space
    nor a closing bracket. *)
Lemma dump_head (ind : string) (v : Json.json) :
  exists c s, Json.dump ind v = String c s /\
              Json.is_ws c = false /\
              (Str.code c =? 93)%N = false /\ (Str.code c =? 125)%N = false.
Proof.
  destruct v as [ | [] | z | s | [|x xs] | [|[k x] kvs]].
  - eexists _, _. split; [reflexivity|]. repeat split.
  - eexists _, _. split; [reflexivity|]. repeat split.
  - eexists _, _. split; [reflexivity|]. repeat split.
  - destruct (of_Z_head z) as (c & s & E & Hc).
    exists c, s. split; [exact E|].
    unfold Json.is_ws.
    repeat split; repeat (apply orb_false_iff; split); apply N.eqb_neq; lia.
  - eexists _, _. split; [reflexivity|]. repeat split.
  - eexists _, _. split; [reflexivity|]. repeat split.
  - rewrite dump_arr_cons. eexists _, _. split; [reflexivity|]. repeat split.
  - eexists _, _. split; [reflexivity|]. repeat split.
  - rewrite dump_obj_cons. eexists _, _. split; [reflexivity|]. repeat split.
Qed.

Lemma parse_skip_value (f : nat) (a s : string) :
  all_ws a = true ->
  Json.parse f Json.GValue (a ++ s) = Json.parse f Json.GValue s.
Proof.
  intros Ha. destruct f as [|f]; [reflexivity|].
  cbn [Json.parse]. rewrite (skip_ws_app a s Ha). reflexivity.
Qed.

Lemma parse_skip_items (f : nat) (acc : list Json.json) (a s : string) :
  all_ws a = true ->
  Json.parse f (Json.GItems acc) (a ++ s) = Json.parse f (Json.GItems acc) s.
Proof.
  intros Ha. destruct f as [|f]; [reflexivity|].
  cbn [Json.parse]. rewrite (parse_skip_value f a s Ha). reflexivity.
Qed.

Lemma parse_skip_members (f : nat) (acc : list (string * Json.json)) (a s : string) :
  all_ws a = true ->
  Json.parse f (Json.GMembers acc) (a ++ s) = Json.parse f (Json.GMembers acc) s.
Proof.
  intros Ha. destruct f as [|f]; [reflexivity|].
  cbn [Json.parse]. rewrite (skip_ws_app a s Ha). reflexivity.
Qed.

Lemma tail_ok_more_items (inner ind rest : string) (xs : list Json.json) :
  is_indent ind = true ->
  tail_ok (more_items inner xs ++ ind ++ "]" ++ rest) = true.
Proof.
  intros Hi. destruct xs as [|y ys].
  - cbn [more_items]. rewrite append_nil_l. apply is_indent_tail, Hi.
  - cbn [more_items]. rewrite !append_assoc. reflexivity.
Qed.

Lemma tail_ok_more_members (inner ind rest : string) (kvs : list (string * Json.json)) :
  is_indent ind = true ->
  tail_ok (more_members inner kvs ++ ind ++ "}" ++ rest) = true.
Proof.
  intros Hi. destruct kvs as [|[k y] ys].
  - cbn [more_members]. rewrite append_nil_l. apply is_indent_tail, Hi.
  - cbn [more_members]. rewrite !append_assoc. reflexivity.
Qed.

Lemma parse_items_back (xs : list Json.json) :
  Forall parses_back xs ->
  forall x acc inner ind rest f,
    parses_back x ->
    is_indent inner = true -> is_indent ind = true ->
    json_wf x = true -> forallb json_wf xs = true ->
    tail_ok rest = true ->
    list_sum (List.map (fun y => S (json_size y)) (x :: xs)) <= f ->
    Json.parse f (Json.GItems acc)
      (Json.dump inner x ++ more_items inner xs ++ ind ++ "]" ++ rest)
    = Some (Json.JArr (List.rev acc ++ x :: xs), rest).
Proof.
  induction 1 as [|y ys Py Pys IH];
    intros x acc inner ind rest f Px Hin Hind Wx Wxs Ht Hf.
  - cbn [List.map list_sum fold_right] in Hf.
    destruct f as [|f]; [lia|].
    cbn [Json.parse].
    rewrite (Px inner _ f Hin Wx (tail_ok_more_items inner ind rest [] Hind)) by lia.
    cbn [more_items]. rewrite append_nil_l.
    rewrite (skip_ws_app ind _ (is_indent_ws ind Hind)).
    rewrite append_cons, append_nil_l.
    rewrite skip_ws_head by reflexivity.
    change (Str.code "]" =? 44)%N with false. change (Str.code "]" =? 93)%N with true.
    cbv iota. cbn [List.rev]. reflexivity.
  - cbn [List.map list_sum fold_right] in Hf.
    destruct f as [|f]; [lia|].
    cbn [forallb] in Wxs. apply andb_true_iff in Wxs as [Wy Wys].
    cbn [Json.parse].
    rewrite (Px inner _ f Hin Wx (tail_ok_more_items inner ind rest (y :: ys) Hind)) by lia.
    cbn [more_items]. rewrite !append_assoc.
    rewrite append_cons, append_nil_l.
    rewrite skip_ws_head by reflexivity.
    change (Str.code "," =? 44)%N with true. cbv iota.
    rewrite (parse_skip_items f _ inner _ (is_indent_ws inner Hin)).
    rewrite (IH y (x :: acc) inner ind rest f Py Hin Hind Wy Wys Ht)
      by (cbn [List.map list_sum fold_right]; lia).
    cbn [List.rev]. rewrite <- app_assoc. reflexivity.
Qed.

Lemma dump_string_app (k t : string) :
  Json.dump_string k ++ t = String (Json.chr 34) (Json.escape k ++ Json.quote ++ t).
Proof.
  unfold Json.dump_string. rewrite !append_assoc. reflexivity.
Qed.

Lemma parse_members_back (kvs : list (string * Json.json)) :
  Forall (fun kv => parses_back (snd kv)) kvs ->
  forall k x acc inner ind rest f,
    parses_back x ->
    is_indent inner = true -> is_indent ind = true ->
    json_wf x = true -> forallb (fun kv => json_wf (snd kv)) kvs = true ->
    tail_ok rest = true ->
    list_sum (List.map (fun kv => S (json_size (snd kv))) ((k, x) :: kvs)) <= f ->
    Json.parse f (Json.GMembers acc)
      (Json.dump_string k ++ ": " ++ Json.dump inner x
       ++ more_members inner kvs ++ ind ++ "}" ++ rest)
    = Some (Json.JObj (Json.dict_of (List.rev acc ++ (k, x) :: kvs)), rest).
Proof.
  induction 1 as [|[k' y] ys Py Pys IH];
    intros k x acc inner ind rest f Px Hin Hind Wx Wxs Ht Hf;
    cbn [List.map list_sum fold_right snd] in Hf;
    (destruct f as [|f]; [lia|]);
    cbn [Json.parse];
    rewrite dump_string_app;
    rewrite skip_ws_head by reflexivity;
    change (Str.code (Json.chr 34) =? 34)%N with true; cbv iota;
    rewrite scan_string_escape;
    rewrite (append_cons ":" " "), (append_cons " " ""), append_nil_l;
    rewrite skip_ws_head by reflexivity;
    change (Str.code ":" =? 58)%N with true; cbv iota;
    rewrite (parse_skip_value f " " _ eq_refl : Json.parse f Json.GValue (String " " _) = _).
  - rewrite (Px inner _ f Hin Wx (tail_ok_more_members inner ind rest [] Hind)) by lia.
    cbn [more_members]. rewrite append_nil_l.
    rewrite (skip_ws_app ind _ (is_indent_ws ind Hind)).
    rewrite append_cons, append_nil_l.
    rewrite skip_ws_head by reflexivity.
    change (Str.code "}" =? 44)%N with false. change (Str.code "}" =? 125)%N with true.
    cbv iota. cbn [List.rev]. reflexivity.
  - cbn [forallb snd] in Wxs. apply andb_true_iff in Wxs as [Wy Wys].
    rewrite (Px inner _ f Hin Wx (tail_ok_more_members inner ind rest ((k', y) :: ys) Hind))
      by lia.
    cbn [more_members]. rewrite !append_assoc.
    rewrite append_cons, append_nil_l.
    rewrite skip_ws_head by reflexivity.
    change (Str.code "," =? 44)%N with true. cbv iota.
    rewrite (parse_skip_members f _ inner _ (is_indent_ws inner Hin)).
    cbn [snd] in Py.
    rewrite (IH k' y ((k, x) :: acc) inner ind rest f Py Hin Hind Wy Wys Ht)
      by (cbn [List.map list_sum fold_right snd]; lia).
    cbn [List.rev]. rewrite <- app_assoc. reflexivity.
Qed.

Lemma distinct_app_fresh (a b : list string) (k : string) :
  distinct (a ++ k :: b)%list = true -> existsb (String.eqb k) a = false.
Proof.
  induction a as [|x a IH]; [reflexivity|].
  cbn [app distinct existsb]. intros Hd.
  apply andb_true_iff in Hd as [Hx Hd].
  rewrite (IH Hd), orb_false_r.
  rewrite existsb_app in Hx. cbn [existsb] in Hx.
  apply negb_true_iff in Hx.
  apply orb_false_iff in Hx as [_ Hx]. apply orb_false_iff in Hx as [Hx _].
  rewrite String.eqb_sym. exact Hx.
Qed.

Lemma dict_set_fresh (k : string) (v : Json.json) (d : list (string * Json.json)) :
  existsb (String.eqb k) (List.map fst d) = false ->
  Json.dict_set k v d = (d ++ [(k, v)])%list.
Proof.
  induction d as [|[k' v'] d IH]; [reflexivity|].
  cbn [List.map fst existsb Json.dict_set]. intros Hk.
  apply orb_false_iff in Hk as [Hk Hd].
  rewrite String.eqb_sym, Hk. cbn [app]. rewrite (IH Hd). reflexivity.
Qed.

Lemma dict_fold_distinct (l : list (string * Json.json)) :
  forall d,
    distinct (List.map fst (d ++ l)%list) = true ->
    fold_left (fun d kv => Json.dict_set (fst kv) (snd kv) d) l d = (d ++ l)%list.
Proof.
  induction l as [|[k v] l IH]; intros d Hd.
  - cbn [fold_left]. rewrite app_nil_r. reflexivity.
  - cbn [fold_left fst snd].
    rewrite map_app in Hd. cbn [List.map fst] in Hd.
    rewrite (dict_set_fresh k v d (distinct_app_fresh _ _ _ Hd)).
    rewrite IH.
    + rewrite <- app_assoc. reflexivity.
    + rewrite <- app_assoc. cbn [app]. rewrite map_app. exact Hd.
Qed.

Lemma dict_of_distinct (l : list (string * Json.json)) :
  distinct (List.map fst l) = true -> Json.dict_of l = l.
Proof. intros Hd. unfold Json.dict_of. apply (dict_fold_distinct l [] Hd). Qed.

(** The decoder inverts the encoder on every document. *)
Lemma json_parses_back (v : Json.json) : parses_back v.
Proof.
  induction v as [ | b | z | s | l IHl | kvs IHk ] using json_nested_ind;
    intros ind rest fuel Hind Wf Ht Hf;
    (destruct fuel as [|f]; [cbn in Hf; lia|]).
  - destruct rest; reflexivity.
  - destruct b, rest; reflexivity.
  - cbn [Json.dump].
    destruct (of_Z_head z) as (c & s & E & Hc).
    pose proof (scan_number_of_Z z rest Ht) as Hs.
    rewrite E in *. rewrite append_cons in *.
    cbn [Json.parse].
    assert (Hw : Json.is_ws c = false).
    { unfold Json.is_ws. repeat (apply orb_false_iff; split); apply N.eqb_neq; lia. }
    rewrite (skip_ws_head c _ Hw).
    repeat match goal with
           | |- context [(Str.code c =? ?k)%N] =>
               destruct (N.eqb_spec (Str.code c) k) as [Ek|_]; [exfalso; lia|]
           end.
    exact Hs.
  - cbn [Json.dump]. rewrite dump_string_app.
    cbn [Json.parse]. rewrite skip_ws_head by reflexivity.
    change (Str.code (Json.chr 34) =? 34)%N with true. cbv iota.
    rewrite scan_string_escape. reflexivity.
  - destruct l as [|x xs]; [reflexivity|].
    rewrite dump_arr_cons.
    pose proof (is_indent_inner ind Hind) as Hin.
    set (inner := ind ++ "  ") in *.
    rewrite !append_assoc.
    rewrite append_cons, append_nil_l.
    cbn [Json.parse]. rewrite skip_ws_head by reflexivity.
    change (Str.code "[" =? 34)%N with false.
    change (Str.code "[" =? 91)%N with true. cbv iota.
    rewrite (skip_ws_app _ _ (is_indent_ws _ Hin)).
    destruct (dump_head inner x) as (c & s & E & Hw & H93 & _).
    rewrite E, append_cons, (skip_ws_head c _ Hw), H93. rewrite <- append_cons, <- E.
    rewrite (parse_skip_items f _ _ _ (is_indent_ws _ Hin)).
    inversion IHl as [|? ? Px Pxs]; subst.
    cbn [json_wf forallb] in Wf. apply andb_true_iff in Wf as [Wx Wxs].
    cbn [json_size List.map list_sum fold_right] in Hf.
    apply (parse_items_back xs Pxs x [] inner ind rest f Px Hin Hind Wx Wxs Ht).
    cbn [List.map list_sum fold_right]. lia.
  - destruct kvs as [|[k x] kvs]; [reflexivity|].
    rewrite dump_obj_cons.
    pose proof (is_indent_inner ind Hind) as Hin.
    set (inner := ind ++ "  ") in *.
    inversion IHk as [|? ? Px Pxs]; subst. cbn [snd] in Px.
    cbn [json_wf forallb snd List.map fst] in Wf.
    apply andb_true_iff in Wf as [Wd Wf]. apply andb_true_iff in Wf as [Wx Wxs].
    cbn [json_size List.map list_sum fold_right snd] in Hf.
    pose proof (parse_members_back kvs Pxs k x [] inner ind rest f Px Hin Hind Wx Wxs Ht)
      as Hm.
    rewrite !append_assoc.
    rewrite append_cons, append_nil_l.
    cbn [Json.parse]. rewrite skip_ws_head by reflexivity.
    change (Str.code "{" =? 34)%N with false.
    change (Str.code "{" =? 91)%N with false.
    change (Str.code "{" =? 123)%N with true. cbv iota.
    rewrite (skip_ws_app _ _ (is_indent_ws _ Hin)).
    rewrite dump_string_app. rewrite skip_ws_head by reflexivity.
    change (Str.code (Json.chr 34) =? 125)%N with false. cbv iota.
    rewrite <- dump_string_app.
    rewrite (parse_skip_members f _ _ _ (is_indent_ws _ Hin)).
    rewrite Hm by (cbn [List.map list_sum fold_right snd]; lia).
    cbn [List.rev app]. rewrite (dict_of_distinct ((k, x) :: kvs) Wd). reflexivity.
Qed.

Lemma more_items_length (inner : string) (xs : list Json.json) :
  Forall (fun v => forall ind, json_size v <= String.length (Json.dump ind v)) xs ->
  list_sum (List.map (fun y => S (json_size y)) xs)
  <= String.length (more_items inner xs).
Proof.
  induction 1 as [|y ys Hy Hys IH]; [cbn; lia|].
  cbn [List.map list_sum fold_right more_items].
  rewrite !length_append. specialize (Hy inner).
  change (String.length ",") with 1. unfold list_sum in IH. lia.
Qed.

Lemma more_members_length (inner : string) (kvs : list (string * Json.json)) :
  Forall (fun kv => forall ind, json_size (snd kv) <= String.length (Json.dump ind (snd kv))) kvs ->
  list_sum (List.map (fun kv => S (json_size (snd kv))) kvs)
  <= String.length (more_members inner kvs).
Proof.
  induction 1 as [|[k y] ys Hy Hys IH]; [cbn; lia|].
  cbn [List.map list_sum fold_right more_members snd].
  rewrite !length_append. specialize (Hy inner). cbn [snd] in Hy.
  change (String.length ",") with 1. unfold list_sum in IH. lia.
Qed.

Lemma json_size_length (v : Json.json) :
  forall ind, json_size v <= String.length (Json.dump ind v).
Proof.
  induction v as [ | b | z | s | l IHl | kvs IHk ] using json_nested_ind; intros ind.
  - cbn. lia.
  - destruct b; cbn; lia.
  - cbn [Json.dump json_size]. destruct (of_Z_head z) as (c & s & E & _).
    rewrite E. cbn [String.length]. lia.
  - cbn [Json.dump json_size]. unfold Json.dump_string.
    rewrite !length_append. change (String.length Json.quote) with 1. lia.
  - destruct l as [|x xs]; [cbn; lia|].
    rewrite dump_arr_cons. inversion IHl as [|? ? Hx Hxs]; subst.
    pose proof (more_items_length (ind ++ "  ") xs Hxs) as Hm.
    specialize (Hx (ind ++ "  ")).
    cbn [json_size List.map list_sum fold_right]. unfold list_sum in Hm.
    rewrite !length_append. change (String.length "[") with 1.
    change (String.length "]") with 1. lia.
  - destruct kvs as [|[k x] kvs]; [cbn; lia|].
    rewrite dump_obj_cons. inversion IHk as [|? ? Hx Hxs]; subst.
    pose proof (more_members_length (ind ++ "  ") kvs Hxs) as Hm.
    specialize (Hx (ind ++ "  ")). cbn [snd] in Hx.
    cbn [json_size List.map list_sum fold_right snd]. unfold list_sum in Hm.
    rewrite !length_append. change (String.length "{") with 1.
    change (String.length "}") with 1. lia.
Qed.

(** [json.loads(json.dumps(v, ensure_ascii=False, indent=2))] is [v]. *)
Lemma loads_dumps (v : Json.json) :
  json_wf v = true -> Json.loads (Json.dumps v) = Some v.
Proof.
  intros Wf. unfold Json.loads, Json.dumps.
  pose proof (json_parses_back v Json.newline ""
                (S (String.length (Json.dump Json.newline v)))
                eq_refl Wf eq_refl) as Hp.
  rewrite append_nil_r in Hp. rewrite Hp; [reflexivity|].
  pose proof (json_size_length v Json.newline). lia.
Qed.

(** ** Saving and loading the memory *)

Lemma entries_of_to_json (h : list HistoryEntry) :
  Mem.entries_of_json (List.map Mem.entry_to_json h) = Some h.
Proof.
  induction h as [|[t r x] h IH]; [reflexivity|].
  cbn [List.map Mem.entries_of_json]. rewrite IH. reflexivity.
Qed.

Lemma data_of_to_json (d : MemData) :
  Mem.data_of_json (Mem.data_to_json d) = Some d.
Proof.
  destruct d as [u p h]. unfold Mem.data_to_json, Mem.data_of_json.
  cbn [user_name preferences history Json.dict_get String.eqb Ascii.eqb Bool.eqb].
  rewrite entries_of_to_json. destruct u; reflexivity.
Qed.

Lemma entries_wf (h : list HistoryEntry) :
  forallb json_wf (List.map Mem.entry_to_json h) = true.
Proof. induction h as [|e h IH]; [reflexivity|]. exact IH. Qed.

Lemma data_to_json_wf (d : MemData) :
  json_wf (Json.JObj (preferences d)) = true ->
  json_wf (Mem.data_to_json d) = true.
Proof.
  intros Wp. unfold Mem.data_to_json.
  cbn [json_wf List.map fst snd forallb].
  change (distinct ["user_name"; "preferences"; "history"]) with true.
  cbn [json_wf] in Wp. rewrite Wp, entries_wf.
  destruct (user_name d); reflexivity.
Qed.

(** What [load] finds in a world where the file holds the dump of a
    record. *)
Lemma load_dumped (m : Memory) (w : World) (d : MemData) :
  files w !! path m = Some (Json.dumps (Mem.data_to_json d)) ->
  json_wf (Json.JObj (preferences d)) = true ->
  Mem.load m w = (Ok tt, {| path := path m; data := d |}, w).
Proof.
  intros Hf Wp. unfold Mem.load.
  rewrite Hf, (loads_dumps _ (data_to_json_wf d Wp)), data_of_to_json. reflexivity.
Qed.

(** *** Writing piece by piece *)

Lemma utf8_run_app (a b : string) :
  forall st,
    Str.utf8_run st (a ++ b)
    = match Str.utf8_run st a with
      | Some st' => Str.utf8_run st' b
      | None => None
      end.
Proof.
  induction a as [|c a IH]; intros st; [reflexivity|].
  rewrite append_cons. cbn [Str.utf8_run].
  destruct (Str.utf8_step st c); [apply IH | reflexivity].
Qed.

Lemma encodable_run (s : string) :
  Str.encodable s = true <-> Str.utf8_run Str.U0 s = Some Str.U0.
Proof.
  unfold Str.encodable. split.
  - destruct (Str.utf8_run Str.U0 s) as [[]|]; intros E; try discriminate E. reflexivity.
  - intros ->. reflexivity.
Qed.

Lemma encodable_app (a b : string) :
  Str.encodable a = true -> Str.encodable b = true -> Str.encodable (a ++ b) = true.
Proof.
  intros Ha Hb. apply encodable_run in Ha. apply encodable_run in Hb.
  apply encodable_run. rewrite utf8_run_app, Ha. exact Hb.
Qed.

Lemma ascii_encodable (s : string) : ascii_only s = true -> Str.encodable s = true.
Proof.
  intros Hs. apply encodable_run.
  induction s as [|c s IH]; [reflexivity|].
  cbn [ascii_only] in Hs. apply andb_true_iff in Hs. destruct Hs as (Hc & Hs).
  cbn [Str.utf8_run Str.utf8_step]. rewrite Hc. exact (IH Hs).
Qed.

Lemma ascii_only_app (a b : string) :
  ascii_only a = true -> ascii_only b = true -> ascii_only (a ++ b) = true.
Proof.
  intros Ha Hb. induction a as [|c a IH]; [exact Hb|].
  rewrite append_cons. cbn [ascii_only] in *.
  apply andb_true_iff in Ha. destruct Ha as (Hc & Ha). rewrite Hc. exact (IH Ha).
Qed.

(** An escape is made of ASCII characters, so it stands where its
    character stood. *)
Lemma escape_char_run (st : Str.utf8_state) (c : ascii) :
  Str.utf8_run st (Json.escape_char c) = Str.utf8_step st c.
Proof.
  destruct st; destruct c as [[] [] [] [] [] [] [] []]; vm_compute; reflexivity.
Qed.

Lemma escape_run (s : string) :
  forall st, Str.utf8_run st (Json.escape s) = Str.utf8_run st s.
Proof.
  induction s as [|c s IH]; intros st; [reflexivity|].
  cbn [Json.escape Str.utf8_run]. rewrite utf8_run_app, escape_char_run.
  destruct (Str.utf8_step st c); [apply IH | reflexivity].
Qed.

Lemma dump_string_encodable (s : string) :
  Str.encodable s = true -> Str.encodable (Json.dump_string s) = true.
Proof.
  intros Hs. unfold Json.dump_string.
  apply encodable_app; [reflexivity|]. apply encodable_app; [|reflexivity].
  apply encodable_run. rewrite escape_run. apply encodable_run. exact Hs.
Qed.

Lemma to_digits_ascii (fuel : nat) :
  forall n acc, ascii_only acc = true -> ascii_only (Str.to_digits fuel n acc) = true.
Proof.
  induction fuel as [|fuel IH]; intros n acc Ha; [exact Ha|].
  cbn [Str.to_digits].
  assert (Hd : ascii_only (String (Str.digit_char (n mod 10)) acc) = true).
  { cbn [ascii_only]. rewrite Ha, andb_true_r.
    destruct (digit_char_spec (n mod 10)) as (_ & _ & Hc); [dlia|].
    rewrite Hc. apply N.ltb_lt. dlia. }
  destruct (n / 10 =? 0)%N; [exact Hd | apply IH, Hd].
Qed.

Lemma of_Z_ascii (z : Z) : ascii_only (Str.of_Z z) = true.
Proof.
  destruct z as [|p|p]; unfold Str.of_Z, Str.of_N.
  - reflexivity.
  - apply to_digits_ascii. reflexivity.
  - cbn [ascii_only]. apply to_digits_ascii. reflexivity.
Qed.

Lemma flat_app (a b : list (option string)) : flat (a ++ b)%list = flat a ++ flat b.
Proof.
  induction a as [|[c|] a IH]; [reflexivity| |exact IH].
  cbn [List.app flat]. rewrite IH, append_assoc. reflexivity.
Qed.

Lemma whole_app (a b : list (option string)) :
  whole (a ++ b)%list = whole a && whole b.
Proof. unfold whole. apply forallb_app. Qed.

Lemma written_whole (cs : list (option string)) :
  whole cs = true -> written cs = flat cs.
Proof.
  induction cs as [|[c|] cs IH]; intros Hw; [reflexivity| |discriminate Hw].
  cbn [whole forallb] in Hw. apply andb_true_iff in Hw. destruct Hw as (Hc & Hw).
  cbn [written flat]. rewrite Hc, (IH Hw). reflexivity.
Qed.

Lemma chunks_arr_cons (ind : string) (x : Json.json) (xs : list Json.json) :
  Json.chunks ind (Json.JArr (x :: xs))
  = (item_chunks ("[" ++ (ind ++ "  "))%string (ind ++ "  ")%string x
     ++ more_item_chunks (ind ++ "  ")%string xs ++ [Some ind; Some "]"])%list.
Proof.
  cbn [Json.chunks]. unfold item_chunks. f_equal. f_equal.
  induction xs as [|y ys IH]; [reflexivity|].
  cbn [more_item_chunks]. rewrite <- IH. reflexivity.
Qed.

Lemma chunks_obj_cons (ind k : string) (x : Json.json) (kvs : list (string * Json.json)) :
  Json.chunks ind (Json.JObj ((k, x) :: kvs))
  = Some "{" :: Some (ind ++ "  ") :: Some (Json.dump_string k) :: Some ": "
      :: (Json.chunks (ind ++ "  ")%string x
          ++ more_member_chunks (ind ++ "  ")%string kvs ++ [Some ind; Some "}"])%list.
Proof.
  cbn [Json.chunks]. do 6 f_equal.
  induction kvs as [|[k' y] ys IH]; [reflexivity|].
  cbn [more_member_chunks]. rewrite <- IH. reflexivity.
Qed.

Lemma scalar_in_full (ind : string) (v : Json.json) :
  match v with Json.JArr _ | Json.JObj _ => False | _ => True end ->
  json_encodable v = true ->
  exists t, Json.scalar v = Some t /\ t = Json.dump ind v /\ Str.encodable t = true.
Proof.
  intros Hs He. destruct v as [ | [] | z | s | l | kvs]; try contradiction.
  - eexists. repeat split.
  - eexists. repeat split.
  - eexists. repeat split.
  - cbn [json_encodable] in He. unfold Json.scalar. rewrite He.
    eexists. split; [reflexivity|]. split; [reflexivity|].
    apply ascii_encodable, of_Z_ascii.
  - cbn [json_encodable] in He. eexists. split; [reflexivity|]. split; [reflexivity|].
    apply (dump_string_encodable s He).
Qed.

Lemma item_in_full (buf inner : string) (y : Json.json) :
  ascii_only buf = true -> ascii_only inner = true ->
  writes_in_full y -> json_encodable y = true ->
  whole (item_chunks buf inner y) = true /\
  flat (item_chunks buf inner y) = buf ++ Json.dump inner y.
Proof.
  intros Hb Hi Hy He.
  assert (Hc : forall y', y' = y ->
               match y' with Json.JArr _ | Json.JObj _ => True | _ => False end ->
               whole (Some buf :: Json.chunks inner y) = true /\
               flat (Some buf :: Json.chunks inner y) = buf ++ Json.dump inner y).
  { intros y' _ _. destruct (Hy inner Hi He) as (Hw & Hf).
    cbn [whole forallb flat]. fold (whole (Json.chunks inner y)).
    rewrite Hw, Hf, (ascii_encodable buf Hb). split; reflexivity. }
  assert (Hs : match y with Json.JArr _ | Json.JObj _ => False | _ => True end ->
               whole [Json.after buf (Json.scalar y)] = true /\
               flat [Json.after buf (Json.scalar y)] = buf ++ Json.dump inner y).
  { intros Hsc. destruct (scalar_in_full inner y Hsc He) as (t & -> & Ht & Het).
    cbn [Json.after whole forallb flat]. rewrite append_nil_r, andb_true_r.
    split; [|rewrite Ht; reflexivity].
    apply encodable_app; [apply ascii_encodable, Hb | exact Het]. }
  destruct y; first [apply Hs; exact I | apply (Hc _ eq_refl); exact I].
Qed.

Lemma chunks_in_full (v : Json.json) : writes_in_full v.
Proof.
  induction v as [ | b | z | s | l IH | kvs IH] using json_nested_ind;
    intros ind Hi He.
  - split; reflexivity.
  - destruct b; split; reflexivity.
  - destruct (scalar_in_full ind (Json.JInt z) I He) as (t & Es & Ht & Het).
    cbn [Json.chunks]. rewrite Es. cbn [whole forallb flat].
    rewrite Het, append_nil_r. split; [reflexivity | exact Ht].
  - destruct (scalar_in_full ind (Json.JStr s) I He) as (t & Es & Ht & Het).
    cbn [Json.chunks]. rewrite Es. cbn [whole forallb flat].
    rewrite Het, append_nil_r. split; [reflexivity | exact Ht].
  - destruct l as [|x xs]; [split; reflexivity|].
    rewrite chunks_arr_cons, dump_arr_cons.
    assert (Hin : ascii_only (ind ++ "  ") = true)
      by (apply ascii_only_app; [exact Hi | reflexivity]).
    cbn [json_encodable forallb] in He. apply andb_true_iff in He.
    destruct He as (Hx & Hxs).
    inversion IH as [|? ? Px Pxs]; subst.
    destruct (item_in_full ("[" ++ (ind ++ "  ")) (ind ++ "  ") x) as (Wx & Fx);
      [apply ascii_only_app; [reflexivity | exact Hin] | exact Hin | exact Px | exact Hx|].
    assert (Hm : whole (more_item_chunks (ind ++ "  ") xs) = true /\
                 flat (more_item_chunks (ind ++ "  ") xs) = more_items (ind ++ "  ") xs).
    { clear Wx Fx Px Hx IH. induction xs as [|y ys IHy]; [split; reflexivity|].
      cbn [forallb] in Hxs. apply andb_true_iff in Hxs. destruct Hxs as (Hy & Hys).
      inversion Pxs as [|? ? Py Pys]; subst.
      destruct (IHy Hys Pys) as (Wm & Fm).
      destruct (item_in_full ("," ++ (ind ++ "  ")) (ind ++ "  ") y) as (Wy & Fy);
        [apply ascii_only_app; [reflexivity | exact Hin] | exact Hin | exact Py | exact Hy|].
      cbn [more_item_chunks more_items]. rewrite whole_app, flat_app, Wy, Wm, Fy, Fm.
      split; [reflexivity|]. rewrite !append_assoc. reflexivity. }
    destruct Hm as (Wm & Fm).
    rewrite !whole_app, !flat_app, Wx, Wm, Fx, Fm.
    cbn [whole forallb flat]. rewrite (ascii_encodable ind Hi).
    split; [reflexivity|]. rewrite !append_assoc, append_nil_r. reflexivity.
  - destruct kvs as [|[k x] kvs]; [split; reflexivity|].
    rewrite chunks_obj_cons, dump_obj_cons.
    assert (Hin : ascii_only (ind ++ "  ") = true)
      by (apply ascii_only_app; [exact Hi | reflexivity]).
    cbn [json_encodable forallb fst snd] in He. apply andb_true_iff in He.
    destruct He as (Hkx & Hkvs). apply andb_true_iff in Hkx. destruct Hkx as (Hk & Hx).
    inversion IH as [|? ? Px Pxs]; subst. cbn [snd] in Px.
    destruct (Px (ind ++ "  ") Hin Hx) as (Wx & Fx).
    assert (Hm : whole (more_member_chunks (ind ++ "  ") kvs) = true /\
                 flat (more_member_chunks (ind ++ "  ") kvs)
                 = more_members (ind ++ "  ") kvs).
    { clear Wx Fx Px Hx Hk IH. induction kvs as [|[k' y] ys IHy]; [split; reflexivity|].
      cbn [forallb fst snd] in Hkvs. apply andb_true_iff in Hkvs.
      destruct Hkvs as (Hky & Hys). apply andb_true_iff in Hky. destruct Hky as (Hk' & Hy).
      inversion Pxs as [|? ? Py Pys]; subst. cbn [snd] in Py.
      destruct (IHy Hys Pys) as (Wm & Fm).
      destruct (Py (ind ++ "  ") Hin Hy) as (Wy & Fy).
      cbn [more_member_chunks more_members whole forallb flat].
      fold (whole (Json.chunks (ind ++ "  ")%string y
                   ++ more_member_chunks (ind ++ "  ")%string ys)%list).
      rewrite whole_app, flat_app, Wy, Wm, Fy, Fm.
      rewrite (ascii_encodable ("," ++ (ind ++ "  ")))
        by (apply ascii_only_app; [reflexivity | exact Hin]).
      rewrite (dump_string_encodable k' Hk').
      split; [reflexivity|]. rewrite !append_assoc. reflexivity. }
    destruct Hm as (Wm & Fm).
    cbn [whole forallb flat].
    fold (whole (Json.chunks (ind ++ "  ")%string x
                 ++ more_member_chunks (ind ++ "  ")%string kvs
                 ++ [Some ind; Some "}"])%list).
    rewrite !whole_app, !flat_app, Wx, Wm, Fx, Fm.
    cbn [whole forallb flat].
    rewrite (ascii_encodable ind Hi), (ascii_encodable (ind ++ "  ") Hin),
      (dump_string_encodable k Hk).
    split; [reflexivity|]. rewrite !append_assoc, append_nil_r. reflexivity.
Qed.

Lemma entries_encodable (h : list HistoryEntry) :
  forallb json_encodable (List.map Mem.entry_to_json h) = forallb entry_encodable h.
Proof.
  induction h as [|e h IH]; [reflexivity|].
  cbn [List.map forallb]. rewrite IH. f_equal.
  unfold Mem.entry_to_json, entry_encodable.
  cbn [json_encodable forallb fst snd].
  change (Str.encodable "time") with true. change (Str.encodable "role") with true.
  change (Str.encodable "text") with true. cbn [andb].
  rewrite andb_true_r, andb_assoc. reflexivity.
Qed.

Lemma storable_encodable (d : MemData) :
  storable d = true ->
  json_wf (Json.JObj (preferences d)) = true /\
  json_encodable (Mem.data_to_json d) = true.
Proof.
  unfold storable. intros Hs.
  apply andb_true_iff in Hs. destruct Hs as (Hs & Hh).
  apply andb_true_iff in Hs. destruct Hs as (Hn & Hp).
  apply andb_true_iff in Hp. destruct Hp as (Hp & _).
  apply andb_true_iff in Hp. destruct Hp as (Hw & He).
  split; [exact Hw|].
  unfold Mem.data_to_json. cbn [json_encodable forallb fst snd].
  change (Str.encodable "user_name") with true.
  change (Str.encodable "preferences") with true.
  change (Str.encodable "history") with true. cbn [andb].
  cbn [json_encodable] in He. rewrite He, entries_encodable, Hh.
  destruct (user_name d); cbn [json_encodable]; [rewrite Hn|]; reflexivity.
Qed.

(** A record that can be stored reaches the file in full. *)
Lemma written_storable (d : MemData) :
  storable d = true ->
  written (Json.chunks Json.newline (Mem.data_to_json d))
  = Json.dumps (Mem.data_to_json d).
Proof.
  intros Hs. destruct (storable_encodable d Hs) as (_ & He).
  destruct (chunks_in_full (Mem.data_to_json d) Json.newline eq_refl He) as (Hw & Hf).
  rewrite (written_whole _ Hw). exact Hf.
Qed.

Lemma forallb_skipn {A : Type} (f : A -> bool) (n : nat) :
  forall l, forallb f l = true -> forallb f (skipn n l) = true.
Proof.
  induction n as [|n IH]; intros l Hl; [exact Hl|].
  destruct l as [|a l]; [reflexivity|].
  cbn [forallb] in Hl. apply andb_true_iff in Hl. destruct Hl as (_ & Hl).
  cbn [skipn]. apply IH, Hl.
Qed.

(** Appending an entry that can be encoded keeps a record storable. *)
Lemma storable_logged (d : MemData) (e : HistoryEntry) :
  storable d = true -> entry_encodable e = true ->
  storable (Mem.with_history (Mem.last_n 400 (history d ++ [e])%list) d) = true.
Proof.
  unfold storable. cbn [Mem.with_history user_name preferences history].
  intros Hs He. apply andb_true_iff in Hs. destruct Hs as (Hs & Hh).
  rewrite Hs. cbn [andb]. unfold Mem.last_n. apply forallb_skipn.
  rewrite forallb_app, Hh. cbn [forallb]. rewrite He. reflexivity.
Qed.

Lemma persist_reload_same (m : Memory) (w : World) :
  writable w (path m) = true ->
  storable (data m) = true ->
  persist_reload m w = data m.
Proof.
  intros Hw Hs. unfold persist_reload, Mem.save, Mem.init. rewrite Hw.
  rewrite (written_storable _ Hs).
  destruct (storable_encodable _ Hs) as (Wp & _).
  rewrite (load_dumped {| path := path m; data := Mem.empty_data |}
             (write_file (path m) (Json.dumps (Mem.data_to_json (data m))) w) (data m)).
  - reflexivity.
  - cbn [path write_file files]. apply lookup_insert_eq.
  - exact Wp.
Qed.

(** C9, as the program has it. Saving a record and loading it back
    gives an equal record whatever the length of its history, provided
    that the file can be opened for writing and that the record can be
    stored: its name and the texts of its history can be encoded in
    UTF-8, and its preferences are a document of null, booleans,
    integers, strings, arrays and objects with no key twice in an
    object, no key or string that cannot be encoded, no integer of more
    than 4300 digits (and no float), nested at most 100 deep. Neither
    [save] nor [load] shortens the history: the cut to the most recent
    400 entries is made by [add_history] before it saves, so what is
    loaded back after an append of texts that can be encoded is the
    last 400 of the entries held and the new one. *)
Theorem save_load_roundtrip :
  forall (m : Memory) (w : World),
    writable w (path m) = true ->
    storable (data m) = true ->
    persist_reload m w = data m /\
    forall role text,
      Str.encodable (clock w (ticks w)) = true ->
      Str.encodable role = true ->
      Str.encodable text = true ->
      exists m' w',
        Mem.add_history role text m w = (Ok tt, m', w') /\
        data (fst (Mem.init (path m) w')) = data m' /\
        history (data m')
        = Mem.last_n 400
            (history (data m)
             ++ [{| h_time := clock w (ticks w); h_role := role; h_text := text |}])%list.
Proof.
  intros m w Hw Hs. split; [exact (persist_reload_same m w Hw Hs)|].
  intros role text Ht Hr Hx. rewrite add_history_logged.
  eexists _, _. split; [reflexivity|].
  split; [|reflexivity].
  unfold logged. cbn [fst snd].
  set (m' := {| path := path m; data := _ |}).
  assert (Hs' : storable (data m') = true).
  { apply storable_logged; [exact Hs|].
    unfold entry_encodable. cbn [h_time h_role h_text]. rewrite Ht, Hr, Hx. reflexivity. }
  pose proof (persist_reload_same m' (tick w) Hw Hs') as Hp.
  unfold persist_reload in Hp. rewrite save_persisted in Hp. exact Hp.
Qed.

Lemma save_load_roundtrip_witness :
  persist_reload long_memory quiet_world = data long_memory /\
  forall role text,
    Str.encodable (clock quiet_world (ticks quiet_world)) = true ->
    Str.encodable role = true ->
    Str.encodable text = true ->
    exists m' w',
      Mem.add_history role text long_memory quiet_world = (Ok tt, m', w') /\
      data (fst (Mem.init (path long_memory) w')) = data m' /\
      history (data m')
      = Mem.last_n 400
          (history (data long_memory)
           ++ [{| h_time := clock quiet_world (ticks quiet_world);
                  h_role := role; h_text := text |}])%list.
Proof.
  apply (save_load_roundtrip long_memory quiet_world).
  - reflexivity.
  - vm_compute. reflexivity.
Defined.

(** C9 as stated fails for a history beyond 400 entries: all 401
    entries come back, not the last 400. It also fails for a history of
    two entries of which one holds a text that cannot be encoded: the
    writing stops at that text, the file is left cut short, and a
    restart finds the default record. *)
Lemma reload_keeps_long_history :
  List.length (history (data long_memory)) = 401 /\
  history (persist_reload long_memory quiet_world) = history (data long_memory) /\
  history (persist_reload long_memory quiet_world)
  <> Mem.last_n 400 (history (data long_memory)) /\
  List.length (history (data torn_memory)) = 2 /\
  persist_reload torn_memory quiet_world = Mem.empty_data /\
  persist_reload torn_memory quiet_world <> data torn_memory.
Proof.
  assert (E : persist_reload long_memory quiet_world = data long_memory)
    by (apply persist_reload_same; [reflexivity | vm_compute; reflexivity]).
  assert (L : List.length (history (data long_memory)) = 401)
    by (cbn [long_memory data history]; apply repeat_length).
  rewrite E. split; [exact L|]. split; [reflexivity|].
  split.
  { intros Heq. pose proof (length_last_n 400 (history (data long_memory))) as Hl.
    rewrite <- Heq, L in Hl. lia. }
  split; [reflexivity|].
  assert (T : persist_reload torn_memory quiet_world = Mem.empty_data)
    by (vm_compute; reflexivity).
  split; [exact T|]. rewrite T. discriminate.
Qed.

(* ================================================================= *)
(** * Further properties *)

(** ** Sentiment *)

Lemma tally_bounds (tokens : list string) :
  forall z,
    (z - Z.of_nat (List.length tokens) <= fold_left Sentiment.tally tokens z
     <= z + Z.of_nat (List.length tokens))%Z.
Proof.
  induction tokens as [|t tokens IH]; intros z.
  - cbn [fold_left List.length]. lia.
  - cbn [fold_left List.length]. specialize (IH (Sentiment.tally z t)).
    unfold Sentiment.tally in *.
    destruct (Sentiment.member t Sentiment.POS_WORDS);
      [|destruct (Sentiment.member t Sentiment.NEG_WORDS)]; lia.
Qed.

(** X1. The sentiment score of any text lies between -1 and 1, and it
    is 0 for a text without a letter or apostrophe. *)
Theorem sentiment_score_bounds :
  forall text,
    (- (1) <= Sentiment.sentiment_score text <= 1)%Q /\
    (Sentiment.findall_tokens (Str.lower text) = [] ->
     Sentiment.sentiment_score text = 0%Q).
Proof.
  intros text. unfold Sentiment.sentiment_score.
  destruct (Sentiment.findall_tokens (Str.lower text)) as [|t tokens] eqn:E.
  - split; [split; discriminate | reflexivity].
  - split; [|discriminate].
    pose proof (tally_bounds (t :: tokens) 0) as Hb.
    set (n := List.length (t :: tokens)) in *.
    assert (Hn : 1 <= n) by (unfold n; cbn [List.length]; lia).
    assert (Hd : Z.pos (Pos.of_nat (Nat.max 1 n)) = Z.of_nat n).
    { rewrite Nat.max_r by lia. destruct n as [|n']; [lia|].
      rewrite <- Pos.of_nat_succ, Zpos_P_of_succ_nat. lia. }
    unfold Qle, Qopp. cbn [Qnum Qden Z.opp]. rewrite Hd. lia.
Qed.

(** ** What the evaluator evaluates *)

Section EvaluatorProperties.
Context `{PyFloat}.
Import Ast.

(** X2. [_eval] returns a value only for a tree of the executable
    subset: it never evaluates a call, a comparison, a string, a name
    other than pi and e, or any operator outside + - * / % ** and unary
    + -. The same holds for [eval] on the parsed text. *)
Theorem eval_only_arithmetic :
  forall (n : node) (v : number inexact),
    SafeEvaluator._eval n = Ok v -> arithmetic n = true.
Proof.
  induction n as [c | l IHl op r IHr | op e IHe | id | f IHf args | l IHl ops cs | k cs];
    intros v Hv; cbn [SafeEvaluator._eval] in Hv; cbn [arithmetic].
  - destruct c; try discriminate Hv; reflexivity.
  - destruct (SafeEvaluator._eval l) as [vl|]; [|discriminate Hv].
    destruct (SafeEvaluator._eval r) as [vr|]; [|discriminate Hv].
    cbn [rbind] in Hv.
    destruct (SafeEvaluator.allowed_operator op); [|discriminate Hv].
    rewrite (IHl vl eq_refl), (IHr vr eq_refl). reflexivity.
  - destruct (SafeEvaluator._eval e) as [ve|]; [|discriminate Hv].
    cbn [rbind] in Hv. rewrite (IHe ve eq_refl).
    destruct op; try discriminate Hv; reflexivity.
  - unfold SafeEvaluator.lookup_name, SafeEvaluator.ALLOWED_NAMES in Hv.
    cbn [find fst snd] in Hv.
    rewrite (String.eqb_sym id "pi"), (String.eqb_sym id "e").
    destruct (String.eqb "pi" id); [reflexivity|].
    destruct (String.eqb "e" id); [reflexivity|]. discriminate Hv.
  - discriminate Hv.
  - discriminate Hv.
  - discriminate Hv.
Qed.

End EvaluatorProperties.

Lemma eval_only_arithmetic_witness :
  arithmetic (Ast.BinOp (Ast.UnaryOp Ast.USub (Ast.Constant (Ast.CInt 7))) Ast.Mod
                        (Ast.BinOp (Ast.Constant (Ast.CInt 2)) Ast.Pow
                                   (Ast.Constant (Ast.CBool true))))
  = true.
Proof.
  apply (@eval_only_arithmetic opaque_floats
           (Ast.BinOp (Ast.UnaryOp Ast.USub (Ast.Constant (Ast.CInt 7))) Ast.Mod
                      (Ast.BinOp (Ast.Constant (Ast.CInt 2)) Ast.Pow
                                 (Ast.Constant (Ast.CBool true))))
           (Int 1)).
  vm_compute. reflexivity.
Defined.

Lemma eval_fails_where_visit_rejects_witness :
  is_raise (@SafeEvaluator._eval opaque_floats
              (Ast.BinOp (Ast.Constant (Ast.CInt 1)) Ast.FloorDiv
                         (Ast.Call (Ast.Name "abs") [Ast.Other "List" []])))
  = true.
Proof.
  apply (@eval_fails_where_visit_rejects opaque_floats
           (Ast.BinOp (Ast.Constant (Ast.CInt 1)) Ast.FloorDiv
                      (Ast.Call (Ast.Name "abs") [Ast.Other "List" []]))).
  vm_compute. reflexivity.
Defined.
(** ** What a turn does, whatever the handler *)

Section TurnProperties.
Context `{PyFloat} `{PyLibs}.

Lemma choice_ok {S} (seq : list string) (s : S) (w : World) :
  seq <> [] ->
  exists x, In x seq /\ choice seq s w = (Ok x, s, roll w).
Proof.
  intros Hne. unfold choice.
  destruct (nth_error seq (dice w (rolls w) mod List.length seq)) as [x|] eqn:E.
  - exists x. split; [eapply nth_error_In; exact E | reflexivity].
  - exfalso. apply nth_error_None in E.
    assert (List.length seq <> 0) by (destruct seq; [congruence | discriminate]).
    pose proof (Nat.mod_upper_bound (dice w (rolls w)) (List.length seq)). lia.
Qed.

Lemma frame_refl (b : Chatbot) (w : World) : frame b w b w.
Proof. unfold frame. auto. Qed.

Lemma frame_world (b : Chatbot) (w w0 : World) :
  writable w0 = writable w -> frame b w b w0.
Proof. unfold frame. auto. Qed.

Lemma frame_trans (b : Chatbot) (w : World) (b1 : Chatbot) (w1 : World)
      (b2 : Chatbot) (w2 : World) :
  frame b w b1 w1 -> frame b1 w1 b2 w2 -> frame b w b2 w2.
Proof.
  unfold frame. intros (P1 & W1 & F1) (P2 & W2 & F2).
  split; [congruence|]. split; [congruence|].
  destruct F2 as [F2|F2]; [|right; exact F2].
  destruct F1 as [F1|F1]; [left|right]; congruence.
Qed.

Lemma heard_mem (role text : string) (b : Chatbot) (w : World) :
  path (mem (fst (heard role text b w))) = path (mem b) /\
  writable (snd (heard role text b w)) = writable w /\
  preferences (data (mem (fst (heard role text b w)))) = preferences (data (mem b)) /\
  user_name (data (mem (fst (heard role text b w)))) = user_name (data (mem b)) /\
  history (data (mem (fst (heard role text b w))))
  = Mem.last_n 400
      (history (data (mem b))
       ++ [{| h_time := clock w (ticks w); h_role := role; h_text := text |}])%list.
Proof.
  unfold heard, logged.
  cbn [fst snd Bot.set_mem mem data path Mem.with_history preferences user_name history].
  match goal with |- context [persisted ?m ?w'] =>
    destruct (persisted_frame m w') as (_ & _ & _ & _ & _ & Pw) end.
  rewrite Pw. repeat split.
Qed.

Lemma frame_heard (role text : string) (b : Chatbot) (w : World) :
  frame b w (fst (heard role text b w)) (snd (heard role text b w)).
Proof.
  destruct (heard_mem role text b w) as (P & W & F & _).
  unfold frame. auto.
Qed.

Lemma answers_settles R h b w : answers R h b w -> settles R h b w.
Proof.
  intros (b0 & w0 & r & F & K & P & E). exists b0, w0.
  repeat split; try assumption; try apply F. left. exists r. exact E.
Qed.

Ltac replied b0 w0 :=
  rewrite reply_heard; exists b0, w0; eexists;
  split; [|split; [|split; [|reflexivity]]].

Lemma greet_answers (b : Chatbot) (w : World) :
  answers eq Bot.handle_greet b w.
Proof.
  unfold answers, Bot.handle_greet, bind, get. cbv beta iota.
  destruct (user_name (data (mem b))) as [[|c n]|].
  - destruct (choice_ok GREETINGS b w) as (x & _ & E); [discriminate|].
    rewrite E. replied b (roll w); [apply frame_world| |]; reflexivity.
  - replied b w; [apply frame_refl| |]; reflexivity.
  - destruct (choice_ok GREETINGS b w) as (x & _ & E); [discriminate|].
    rewrite E. replied b (roll w); [apply frame_world| |]; reflexivity.
Qed.

Lemma goodbye_answers (b : Chatbot) (w : World) :
  exists r,
    In r GOODBYES /\
    Bot.handle_goodbye b w
    = (Ok r, fst (heard "assistant" r b (roll w)), snd (heard "assistant" r b (roll w))).
Proof.
  unfold Bot.handle_goodbye, bind.
  destruct (choice_ok GOODBYES b w) as (x & Hin & E); [discriminate|].
  rewrite E, reply_heard. exists x. split; [exact Hin | reflexivity].
Qed.

Lemma set_user_name_run (n : option string) (b : Chatbot) (w : World) :
  exists b0 w0,
    Bot.set_user_name n b w = (Ok tt, b0, w0) /\
    frame b w b0 w0 /\ kept b b0 /\ pending_task b0 = pending_task b /\
    user_name (data (mem b0)) = n.
Proof.
  unfold Bot.set_user_name, Bot.on_mem, within, bind, get, Mem.set_data.
  cbv beta iota. rewrite save_persisted.
  eexists _, _. split; [reflexivity|].
  unfold frame, kept.
  cbn [Bot.set_mem mem path data Mem.with_user_name history preferences
       pending_task user_name].
  match goal with |- context [persisted ?m ?w'] =>
    destruct (persisted_frame m w') as (_ & _ & _ & _ & _ & Pw) end.
  rewrite Pw. repeat split. left. reflexivity.
Qed.

Lemma set_name_settles (m : Re.Match) (b : Chatbot) (w : World) :
  settles eq (Bot.handle_set_name m) b w.
Proof.
  unfold settles, Bot.handle_set_name.
  destruct (Bot.group1_strip m) as [g|e].
  - destruct (Str.split g) as [|name rest].
    + exists b, w. repeat split; try (left; reflexivity).
      right. eexists. reflexivity.
    + unfold bind.
      destruct (set_user_name_run (Some (Str.title name)) b w)
        as (b0 & w0 & E & F & K & P & _).
      rewrite E. unfold get. cbv beta iota. rewrite reply_heard.
      exists b0, w0. repeat split; try apply F; try exact K; try (symmetry; exact P).
      left. eexists. reflexivity.
  - exists b, w. repeat split; try (left; reflexivity).
    right. eexists. reflexivity.
Qed.

Lemma setname_cmd_settles (m : Re.Match) (b : Chatbot) (w : World) :
  settles eq (Bot.handle_setname_cmd m) b w.
Proof.
  unfold settles, Bot.handle_setname_cmd.
  destruct (Bot.group1_strip m) as [g|e].
  - unfold bind.
    destruct (set_user_name_run (Some (Str.title g)) b w)
      as (b0 & w0 & E & F & K & P & _).
    rewrite E. unfold get. cbv beta iota. rewrite reply_heard.
    exists b0, w0. repeat split; try apply F; try exact K; try (symmetry; exact P).
    left. eexists. reflexivity.
  - exists b, w. repeat split; try (left; reflexivity).
    right. eexists. reflexivity.
Qed.


Lemma goodbye_replies (b : Chatbot) (w : World) :
  answers eq Bot.handle_goodbye b w.
Proof.
  destruct (goodbye_answers b w) as (r & _ & E).
  exists b, (roll w), r. repeat split; try (left; reflexivity). exact E.
Qed.

Lemma time_answers (b : Chatbot) (w : World) : answers eq Bot.handle_time b w.
Proof.
  unfold answers, Bot.handle_time, bind, now_str.
  replied b (tick w); [apply frame_world| |]; reflexivity.
Qed.

Lemma date_answers (b : Chatbot) (w : World) : answers eq Bot.handle_date b w.
Proof.
  unfold answers, Bot.handle_date, bind, world.
  replied b w; [apply frame_refl| |]; reflexivity.
Qed.

Lemma help_answers (b : Chatbot) (w : World) : answers eq Bot.handle_help b w.
Proof.
  unfold answers, Bot.handle_help.
  replied b w; [apply frame_refl| |]; reflexivity.
Qed.

Lemma summary_answers (b : Chatbot) (w : World) : answers eq Bot.handle_summary b w.
Proof.
  unfold answers, Bot.handle_summary, bind, get. cbv beta iota zeta.
  replied b w; [apply frame_refl| |]; reflexivity.
Qed.

Lemma calculator_answers (text : string) (b : Chatbot) (w : World) :
  answers eq (Bot.handle_calculator text) b w.
Proof.
  unfold answers, Bot.handle_calculator. cbv zeta.
  match goal with |- context [SafeEvaluator.eval ?e] =>
    destruct (SafeEvaluator.eval e) as [v|e'] end;
    (replied b w; [apply frame_refl| |]; reflexivity).
Qed.

Lemma faq_answers (text : string) (b : Chatbot) (w : World) :
  answers eq (Bot.handle_faq text) b w.
Proof.
  unfold answers, Bot.handle_faq.
  destruct (find _ FAQ) as [[k v]|];
    (replied b w; [apply frame_refl| |]; reflexivity).
Qed.

Lemma smalltalk_answers (text : string) (b : Chatbot) (w : World) :
  answers eq (Bot.handle_smalltalk text) b w.
Proof.
  unfold answers, Bot.handle_smalltalk. cbv zeta.
  destruct (choice_ok SMALLTALK b w) as (x & _ & E); [discriminate|].
  destruct (Qlt_le_dec _ _); [|destruct (Qlt_le_dec _ _)]; unfold bind; rewrite ?E.
  - replied b (roll w); [apply frame_world| |]; reflexivity.
  - replied b w; [apply frame_refl| |]; reflexivity.
  - replied b (roll w); [apply frame_world| |]; reflexivity.
Qed.

Ltac settled_ok :=
  eexists _, _; split; [|split; [|split; [|left; eexists; reflexivity]]].
Ltac settled_raise :=
  eexists _, _; split; [|split; [|split; [|right; eexists; reflexivity]]].

Lemma export_settles (b : Chatbot) (w : World) : settles eq Bot.handle_export b w.
Proof.
  unfold settles, Bot.handle_export, bind, get, world. cbv beta iota zeta.
  destruct (writable w "chat_history.txt").
  - unfold set_world. rewrite reply_heard.
    settled_ok; [apply frame_world| |]; reflexivity.
  - settled_raise; [apply frame_refl| |]; reflexivity.
Qed.

Lemma frame_csv (p : option string) (hs : list string) (rs : list Row)
      (b : Chatbot) (w : World) :
  frame b w (Bot.set_csv p hs rs b) w.
Proof. unfold frame. cbn [Bot.set_csv mem]. auto. Qed.

Lemma load_csv_settles (m : Re.Match) (b : Chatbot) (w : World) :
  settles eq (Bot.handle_load_csv m) b w.
Proof.
  unfold settles, Bot.handle_load_csv.
  destruct (Bot.group1_strip m) as [g|e].
  - cbv zeta. unfold bind, world. cbv beta iota.
    destruct (files w !! _) as [content|].
    + destruct (csv_DictReader content) as [fieldnames rows].
      unfold Bot.modify. cbv beta iota.
      destruct rows as [|r rows].
      * rewrite reply_heard.
        settled_ok; [apply frame_csv| |]; reflexivity.
      * destruct (Bot.csv_insights _ _ _) as [text|e].
        -- rewrite reply_heard.
           settled_ok; [apply frame_csv| |]; reflexivity.
        -- unfold raise. settled_raise; [apply frame_csv| |]; reflexivity.
    + rewrite reply_heard.
      settled_ok; [apply frame_refl| |]; reflexivity.
  - unfold raise. settled_raise; [apply frame_refl| |]; reflexivity.
Qed.


Lemma reset_answers (b : Chatbot) (w : World) :
  exists b0 w0,
    frame b w b0 w0 /\ pending_task b0 = pending_task b /\
    data (mem b0) = Mem.empty_data /\
    Bot.handle_reset b w
    = (Ok "Memory cleared. Fresh start!",
       fst (heard "assistant" "Memory cleared. Fresh start!" b0 w0),
       snd (heard "assistant" "Memory cleared. Fresh start!" b0 w0)).
Proof.
  unfold Bot.handle_reset, bind, Bot.on_mem, within, Mem.set_data.
  rewrite save_persisted, reply_heard.
  eexists _, _. split; [|split; [|split; [|reflexivity]]].
  - unfold frame. cbn [Bot.set_mem mem path data Mem.empty_data preferences].
    match goal with |- context [persisted ?m ?w'] =>
      destruct (persisted_frame m w') as (_ & _ & _ & _ & _ & Pw) end.
    rewrite Pw. auto.
  - reflexivity.
  - reflexivity.
Qed.

Lemma frame_pending (t : option Task) (b : Chatbot) (w : World) :
  frame b w (Bot.set_pending t b) w.
Proof. unfold frame. cbn [Bot.set_pending mem]. auto. Qed.

Lemma complaint_answers (text : string) (b : Chatbot) (w : World) :
  answers (complaint_step text) (Bot.handle_complaint text) b w.
Proof.
  unfold answers, complaint_step, Bot.handle_complaint, bind, get.
  cbv beta iota.
  destruct (pending_task b) as [task|] eqn:Hp.
  - destruct (String.eqb (task_type task) "complaint") eqn:Ht; cbn [negb].
    + unfold next_task. cbv zeta.
      destruct (product (slots task)) as [p|] eqn:Ep;
        [destruct (issue (slots task)) as [i|] eqn:Ei;
           [destruct (order_id (slots task)) as [o|] eqn:Eo|]|].
      * replied b w; [apply frame_refl|reflexivity|]. exact Hp.
      * unfold randint, Bot.modify, bind.
        replied (Bot.set_pending None b) (roll w);
          [|reflexivity|reflexivity].
        apply (frame_trans _ _ _ _ _ _ (frame_pending None b w)).
        apply frame_world. reflexivity.
      * unfold Bot.modify, bind. rewrite reply_heard.
        eexists _, w, _. split; [apply frame_pending|].
        split; [reflexivity|]. split; [|reflexivity]. reflexivity.
      * unfold Bot.modify, bind. rewrite reply_heard.
        eexists _, w, _. split; [apply frame_pending|].
        split; [reflexivity|]. split; [|reflexivity]. reflexivity.
    + unfold Bot.modify, bind. rewrite reply_heard.
      eexists _, w, _. split; [apply frame_pending|].
      split; [reflexivity|]. split; [|reflexivity]. reflexivity.
  - unfold Bot.modify, bind. rewrite reply_heard.
    eexists _, w, _. split; [apply frame_pending|].
    split; [reflexivity|]. split; [|reflexivity]. reflexivity.
Qed.


Lemma routed_answers (intent raw : string) (h : M Chatbot string)
      (b : Chatbot) (w : World) :
  String.eqb intent "complaint" = false ->
  answers eq h b w -> routed intent raw (h b w) b w.
Proof.
  intros Hc (b0 & w0 & r & F & K & P & E). exists b0, w0.
  split; [exact F|]. split; [intros _; exact K|].
  split; [rewrite Hc; symmetry; exact P|].
  split; [left; exists r; exact E | intros _; exists r; exact E].
Qed.

Lemma routed_settles (intent raw : string) (h : M Chatbot string)
      (b : Chatbot) (w : World) :
  String.eqb intent "complaint" = false ->
  existsb (String.eqb intent) ["set_name"; "load_csv"; "setname_cmd"; "export"] = true ->
  settles eq h b w -> routed intent raw (h b w) b w.
Proof.
  intros Hc Hx (b0 & w0 & F & K & P & O). exists b0, w0.
  split; [exact F|]. split; [intros _; exact K|].
  split; [rewrite Hc; symmetry; exact P|].
  split; [exact O | rewrite Hx; discriminate].
Qed.

Lemma dispatch_routed (intent : string) (m : option Re.Match)
      (user_text raw : string) (b : Chatbot) (w : World) :
  routed intent raw (Bot.dispatch intent m user_text raw b w) b w.
Proof.
  unfold Bot.dispatch. cbv zeta.
  destruct (String.eqb intent "greet") eqn:E1.
  { apply String.eqb_eq in E1. subst intent.
    apply routed_answers; [reflexivity | apply greet_answers]. }
  destruct (String.eqb intent "goodbye") eqn:E2.
  { apply String.eqb_eq in E2. subst intent.
    apply routed_answers; [reflexivity | apply goodbye_replies]. }
  destruct (String.eqb intent "set_name") eqn:E3.
  { apply String.eqb_eq in E3. subst intent. destruct m as [m'|].
    - apply routed_settles; [reflexivity | reflexivity | apply set_name_settles].
    - cbn [String.eqb Ascii.eqb Bool.eqb].
      apply routed_answers; [reflexivity | apply smalltalk_answers]. }
  destruct (String.eqb intent "ask_time") eqn:E4.
  { apply String.eqb_eq in E4. subst intent.
    apply routed_answers; [reflexivity | apply time_answers]. }
  destruct (String.eqb intent "ask_date") eqn:E5.
  { apply String.eqb_eq in E5. subst intent.
    apply routed_answers; [reflexivity | apply date_answers]. }
  destruct (String.eqb intent "calculator") eqn:E6.
  { apply String.eqb_eq in E6. subst intent.
    apply routed_answers; [reflexivity | apply calculator_answers]. }
  destruct (String.eqb intent "faq") eqn:E7.
  { apply String.eqb_eq in E7. subst intent.
    apply routed_answers; [reflexivity | apply faq_answers]. }
  destruct (String.eqb intent "load_csv") eqn:E8.
  { apply String.eqb_eq in E8. subst intent. destruct m as [m'|].
    - apply routed_settles; [reflexivity | reflexivity | apply load_csv_settles].
    - cbn [String.eqb Ascii.eqb Bool.eqb].
      apply routed_answers; [reflexivity | apply smalltalk_answers]. }
  destruct (String.eqb intent "setname_cmd") eqn:E9.
  { apply String.eqb_eq in E9. subst intent. destruct m as [m'|].
    - apply routed_settles; [reflexivity | reflexivity | apply setname_cmd_settles].
    - cbn [String.eqb Ascii.eqb Bool.eqb].
      apply routed_answers; [reflexivity | apply smalltalk_answers]. }
  destruct (String.eqb intent "help") eqn:E10.
  { apply String.eqb_eq in E10. subst intent.
    apply routed_answers; [reflexivity | apply help_answers]. }
  destruct (String.eqb intent "reset") eqn:E11.
  { apply String.eqb_eq in E11. subst intent.
    destruct (reset_answers b w) as (b0 & w0 & F & P & _ & E).
    exists b0, w0. split; [exact F|]. split; [intros N; now elim N|].
    split; [exact P|]. rewrite E.
    split; [left; eexists; reflexivity | intros _; eexists; reflexivity]. }
  destruct (String.eqb intent "export") eqn:E12.
  { apply String.eqb_eq in E12. subst intent.
    apply routed_settles; [reflexivity | reflexivity | apply export_settles]. }
  destruct (String.eqb intent "summary") eqn:E13.
  { apply String.eqb_eq in E13. subst intent.
    apply routed_answers; [reflexivity | apply summary_answers]. }
  destruct (String.eqb intent "complaint") eqn:E14.
  { apply String.eqb_eq in E14. subst intent.
    destruct (complaint_answers raw b w) as (b0 & w0 & r & F & K & P & E).
    exists b0, w0. split; [exact F|]. split; [intros _; exact K|].
    split; [exact P|]. rewrite E.
    split; [left; eexists; reflexivity | intros _; eexists; reflexivity]. }
  apply routed_answers; [exact E14 | apply smalltalk_answers].
Qed.


(** A turn, from the state after the user's text is logged. *)
Lemma handle_turn (t : string) (b : Chatbot) (w : World) :
  exists b0 w0,
    frame (fst (heard "user" t b w)) (snd (heard "user" t b w)) b0 w0 /\
    (fst (detect_intent (normalize t)) <> "reset" ->
     kept (fst (heard "user" t b w)) b0) /\
    (pending_task b0 = pending_task b \/
     complaint_step t (pending_task b) (pending_task b0)) /\
    outcome (Bot.handle t b w) b0 w0 /\
    (existsb (String.eqb (fst (detect_intent (normalize t))))
       ["set_name"; "load_csv"; "setname_cmd"; "export"] = false ->
     exists r, Bot.handle t b w
               = (Ok r, fst (heard "assistant" r b0 w0),
                        snd (heard "assistant" r b0 w0))).
Proof.
  destruct (heard_frame "user" t b w) as (Hf & _).
  assert (Hclass :
    exists b0 w0,
      frame (fst (heard "user" t b w)) (snd (heard "user" t b w)) b0 w0 /\
      (fst (detect_intent (normalize t)) <> "reset" ->
       kept (fst (heard "user" t b w)) b0) /\
      (pending_task b0 = pending_task b \/
       complaint_step t (pending_task b) (pending_task b0)) /\
      outcome (Bot.classify_and_dispatch (normalize t) t
                 (fst (heard "user" t b w)) (snd (heard "user" t b w))) b0 w0 /\
      (existsb (String.eqb (fst (detect_intent (normalize t))))
         ["set_name"; "load_csv"; "setname_cmd"; "export"] = false ->
       exists r, Bot.classify_and_dispatch (normalize t) t
                   (fst (heard "user" t b w)) (snd (heard "user" t b w))
                 = (Ok r, fst (heard "assistant" r b0 w0),
                          snd (heard "assistant" r b0 w0)))).
  { unfold Bot.classify_and_dispatch.
    destruct (detect_intent (normalize t)) as [intent m]. cbn [fst].
    destruct (dispatch_routed intent m (normalize t) t
                (fst (heard "user" t b w)) (snd (heard "user" t b w)))
      as (b0 & w0 & F & K & P & O & A).
    exists b0, w0. repeat (split; [assumption|]). split; [|split; assumption].
    rewrite Hf in P. destruct (String.eqb intent "complaint"); [right|left]; exact P. }
  unfold Bot.handle, bind. rewrite on_mem_add_history. unfold get. cbv beta iota.
  destruct (pending_task (fst (heard "user" t b w))) as [task|] eqn:Hp;
    [|exact Hclass].
  destruct (Str.startswith (normalize t) "/"); cbn [negb]; [exact Hclass|].
  destruct (String.eqb (task_type task) "complaint") eqn:Ht; [|exact Hclass].
  destruct (complaint_answers t (fst (heard "user" t b w)) (snd (heard "user" t b w)))
    as (b0 & w0 & r & F & K & P & E).
  exists b0, w0. split; [exact F|]. split; [intros _; exact K|].
  split; [right; rewrite <- Hf; rewrite Hp in P; exact P|]. rewrite E.
  split; [left; eexists; reflexivity | intros _; eexists; reflexivity].
Qed.

(** X4. After any turn, whether it replied or raised, the history holds
    at most 400 entries. *)
Theorem handle_history_cap :
  forall (t : string) (b : Chatbot) (w : World),
    List.length (history (data (mem (snd (fst (Bot.handle t b w)))))) <= 400.
Proof.
  intros t b w.
  destruct (handle_turn t b w) as (b0 & w0 & _ & K & _ & O & A).
  destruct O as [(r & E)|(e & E)].
  - rewrite E. cbn [fst snd].
    destruct (heard_mem "assistant" r b0 w0) as (_ & _ & _ & _ & Hh).
    rewrite Hh. apply length_last_n.
  - assert (Hi : fst (detect_intent (normalize t)) <> "reset").
    { intros Hi. rewrite Hi in A. destruct (A eq_refl) as (r & E').
      rewrite E in E'. discriminate E'. }
    rewrite E. cbn [fst snd]. rewrite (K Hi).
    destruct (heard_mem "user" t b w) as (_ & _ & _ & _ & Hh).
    rewrite Hh. apply length_last_n.
Qed.

Lemma heard_synced (role text : string) (b : Chatbot) (w : World) :
  writable w (path (mem b)) = true ->
  storable (data (mem (fst (heard role text b w)))) = true ->
  data (fst (Mem.init (path (mem (fst (heard role text b w))))
                      (snd (heard role text b w))))
  = data (mem (fst (heard role text b w))).
Proof.
  intros Hw Hst.
  pose proof (persist_reload_same (fst (logged role text (mem b) w)) (tick w)) as Hs.
  unfold persist_reload in Hs. rewrite save_persisted in Hs.
  unfold heard in *. cbn [fst snd Bot.set_mem mem] in *.
  apply Hs.
  - unfold logged. cbn [fst path tick writable]. exact Hw.
  - exact Hst.
Qed.

(** X5. After a turn that replied, what the file of the memory holds is
    the record as it stands, when the file can be opened for writing and
    the record can be stored (its texts can be encoded in UTF-8, its
    preferences are a document with no key twice, no integer of more
    than 4300 digits and a nesting of at most 100): a chatbot started
    again on this world finds the same name, preferences and history.
    The path of the memory is never changed. *)
Theorem handle_writes_through :
  forall (t : string) (b : Chatbot) (w : World) (r : string) (b' : Chatbot) (w' : World),
    writable w (path (mem b)) = true ->
    Bot.handle t b w = (Ok r, b', w') ->
    storable (data (mem b')) = true ->
    path (mem b') = path (mem b) /\
    data (fst (Mem.init (path (mem b')) w')) = data (mem b').
Proof.
  intros t b w r b' w' Hw E Hst.
  destruct (handle_turn t b w) as (b0 & w0 & F & _ & _ & O & _).
  destruct (frame_trans _ _ _ _ _ _ (frame_heard "user" t b w) F) as (Fp & Fw & Ff).
  destruct O as [(r0 & E0)|(e & E0)]; rewrite E in E0; [|discriminate E0].
  assert (Er : r = r0) by congruence.
  assert (Eb : b' = fst (heard "assistant" r0 b0 w0)) by congruence.
  assert (Ew : w' = snd (heard "assistant" r0 b0 w0)) by congruence.
  subst r b' w'. clear E E0.
  destruct (heard_mem "assistant" r0 b0 w0) as (Hp & _).
  split; [congruence|].
  apply heard_synced; [|exact Hst].
  rewrite Fw, Fp. exact Hw.
Qed.

(** X6. A turn that replied has logged the text as typed and then the
    reply: they are the two newest entries of the history, which keeps
    its 400 most recent entries; after a turn detected as reset the
    reply may be alone. *)
Theorem handle_logs_turn :
  forall (t : string) (b : Chatbot) (w : World) (r : string) (b' : Chatbot) (w' : World),
    Bot.handle t b w = (Ok r, b', w') ->
    exists time,
      (fst (detect_intent (normalize t)) <> "reset" ->
       history (data (mem b'))
       = Mem.last_n 400
           (history (data (mem b))
            ++ [ {| h_time := clock w (ticks w); h_role := "user"; h_text := t |};
                 {| h_time := time; h_role := "assistant"; h_text := r |} ])%list) /\
      exists older,
        history (data (mem b'))
        = (older ++ [{| h_time := time; h_role := "assistant"; h_text := r |}])%list.
Proof.
  intros t b w r b' w' E.
  destruct (handle_turn t b w) as (b0 & w0 & _ & K & _ & O & _).
  destruct O as [(r0 & E0)|(e & E0)]; rewrite E in E0; [|discriminate E0].
  assert (Er : r = r0) by congruence.
  assert (Eb : b' = fst (heard "assistant" r0 b0 w0)) by congruence.
  assert (Ew : w' = snd (heard "assistant" r0 b0 w0)) by congruence.
  subst r b' w'. clear E E0.
  destruct (heard_mem "assistant" r0 b0 w0) as (_ & _ & _ & _ & Hh).
  exists (clock w0 (ticks w0)). split.
  - intros Hi. rewrite Hh, (K Hi).
    destruct (heard_mem "user" t b w) as (_ & _ & _ & _ & Hu).
    rewrite Hu, last_n_app, <- app_assoc. reflexivity.
  - rewrite Hh. set (h := history (data (mem b0))).
    unfold Mem.last_n. rewrite length_app. cbn [List.length].
    rewrite skipn_app.
    replace (List.length h + 1 - 400 - List.length h) with 0 by lia.
    eexists. reflexivity.
Qed.

Lemma outcome_pending (res : Result string * Chatbot * World)
      (b0 : Chatbot) (w0 : World) :
  outcome res b0 w0 -> pending_task (snd (fst res)) = pending_task b0.
Proof.
  intros [(r & E)|(e & E)]; rewrite E; cbn [fst snd]; [|reflexivity].
  apply heard_frame.
Qed.

(** ** Slot filling against commands *)

Lemma dispatch_handler_of (intent : string) (m : option Re.Match)
      (user_text raw : string) :
  Bot.dispatch intent m user_text raw = handler_of intent m user_text raw.
Proof.
  unfold Bot.dispatch, handler_of, handlers. cbv zeta. cbn [List.find fst].
  repeat match goal with
         | |- context [String.eqb intent ?name] =>
             destruct (String.eqb intent name) eqn:E;
             [apply String.eqb_eq in E; subst intent; destruct m; reflexivity | clear E]
         end.
  reflexivity.
Qed.

Lemma heard_today (role text : string) (b : Chatbot) (w : World) :
  today (snd (heard role text b w)) = today w.
Proof.
  unfold heard, logged. cbn [fst snd].
  match goal with |- context [persisted ?m ?w'] =>
    destruct (persisted_frame m w') as (_ & _ & _ & _ & Pt & _) end.
  rewrite Pt. reflexivity.
Qed.

(** A turn that reaches the complaint handler while a complaint is
    pending fills the next slot. *)
Lemma handle_fills (t : string) (b : Chatbot) (w : World) (task : Task) :
  pending_task b = Some task ->
  task_type task = "complaint" ->
  Bot.handle t b w
  = Bot.handle_complaint t (fst (heard "user" t b w)) (snd (heard "user" t b w)) ->
  exists r b' w',
    Bot.handle t b w = (Ok r, b', w') /\
    pending_task b' = next_task t task /\
    r = match product (slots task), issue (slots task), order_id (slots task) with
        | None, _, _ => "Got it. Briefly describe the issue."
        | Some _, None, _ => "Please share your order ID (or say 'none')."
        | Some p, Some i, None =>
            "Thanks! Ticket TKT-" ++ Str.of_N (ticket_number w) ++ " created. Product: "
            ++ p ++ ". Issue: " ++ i ++ ". Order ID: "
            ++ (if String.eqb (Str.lower (Str.strip t)) "none"
                   || String.eqb (Str.strip t) ""
                then "N/A" else Str.strip t)
            ++ ". Our team will follow up."
        | Some _, Some _, Some _ => "Your ticket is already created. Anything else?"
        end.
Proof.
  intros Hp Ht Eh. rewrite Eh.
  destruct (heard_frame "user" t b w) as (Hf & Hd & Hr & _).
  rewrite <- Hf in Hp.
  destruct (complaint_continue t _ (snd (heard "user" t b w)) task Hp Ht)
    as (r & b' & w' & E & P & _ & _ & Hr').
  exists r, b', w'. split; [exact E|]. split; [exact P|].
  rewrite Hr'. unfold ticket_number. rewrite Hd, Hr.
  destruct (product (slots task)) as [p|]; [|reflexivity].
  destruct (issue (slots task)) as [i|]; [|reflexivity].
  destruct (order_id (slots task)) as [o|]; [reflexivity|].
  unfold Bot.ticket_text. cbn [product issue order_id Bot.shown].
  rewrite or_na_captured, !append_assoc. reflexivity.
Qed.

(** C4. While a complaint task is pending, an input whose normalized
    form does not start with / is taken by the complaint handler for the
    next slot, whatever intent it would match: the reply is the next
    question, or the confirmation, and the task moves on. An input that
    starts with / goes by the intent the classifier gives it: the turn
    is that of the handler of that intent on the text as logged. For an
    intent other than complaint the task and its slots stay as they
    are, and the help, the reset, the date and the time get their
    replies; a command that the classifier takes for a complaint
    (/refund) reaches the complaint handler by this way, which takes it
    for the next slot like any other text. *)
Theorem slot_filling_priority :
  forall (b : Chatbot) (w : World) (t : string) (task : Task),
    pending_task b = Some task ->
    task_type task = "complaint" ->
    (Str.startswith (normalize t) "/" = false \/
     fst (detect_intent (normalize t)) = "complaint" ->
     exists r b' w',
       Bot.handle t b w = (Ok r, b', w') /\
       pending_task b' = next_task t task /\
       r = match product (slots task), issue (slots task), order_id (slots task) with
           | None, _, _ => "Got it. Briefly describe the issue."
           | Some _, None, _ => "Please share your order ID (or say 'none')."
           | Some p, Some i, None =>
               "Thanks! Ticket TKT-" ++ Str.of_N (ticket_number w) ++ " created. Product: "
               ++ p ++ ". Issue: " ++ i ++ ". Order ID: "
               ++ (if String.eqb (Str.lower (Str.strip t)) "none"
                      || String.eqb (Str.strip t) ""
                   then "N/A" else Str.strip t)
               ++ ". Our team will follow up."
           | Some _, Some _, Some _ => "Your ticket is already created. Anything else?"
           end) /\
    (Str.startswith (normalize t) "/" = true ->
     Bot.handle t b w
     = handler_of (fst (detect_intent (normalize t))) (snd (detect_intent (normalize t)))
         (normalize t) t (fst (heard "user" t b w)) (snd (heard "user" t b w)) /\
     (fst (detect_intent (normalize t)) <> "complaint" ->
      pending_task (snd (fst (Bot.handle t b w))) = Some task /\
      (fst (detect_intent (normalize t)) = "help" ->
       fst (fst (Bot.handle t b w))
       = Ok ("Commands:" ++ Bot.nl ++
             "  /help                Show this help" ++ Bot.nl ++
             "  /setname Name        Save your name" ++ Bot.nl ++
             "  /loadcsv path.csv    Load a CSV and get insights" ++ Bot.nl ++
             "  /summary             Summarize our recent chat" ++ Bot.nl ++
             "  /export_history      Save conversation to chat_history.txt" ++ Bot.nl ++
             "  /reset               Clear memory (name & history)" ++ Bot.nl ++ Bot.nl ++
             "Other features:" ++ Bot.nl ++
             "- Type 'sunk cost', 'NPV', 'CAPM', etc. for quick BBA FAQs" ++ Bot.nl ++
             "- Start a complaint (say 'I have a problem...') to open a support ticket" ++ Bot.nl ++
             "- Calculator: start with '=' or type 'calculate 2*(10+5)'" ++ Bot.nl ++
             "- Ask date/time, casual chat, and more!")) /\
      (fst (detect_intent (normalize t)) = "reset" ->
       fst (fst (Bot.handle t b w)) = Ok "Memory cleared. Fresh start!") /\
      (fst (detect_intent (normalize t)) = "ask_date" ->
       fst (fst (Bot.handle t b w)) = Ok ("Today is " ++ today w ++ ".")) /\
      (fst (detect_intent (normalize t)) = "ask_time" ->
       fst (fst (Bot.handle t b w)) = Ok ("Current time: " ++ clock w (S (ticks w)))))).
Proof.
  intros b w t task Hp Ht.
  assert (Ec : Str.startswith (normalize t) "/" = true ->
               Bot.handle t b w
               = Bot.dispatch (fst (detect_intent (normalize t)))
                   (snd (detect_intent (normalize t))) (normalize t) t
                   (fst (heard "user" t b w)) (snd (heard "user" t b w))).
  { intros Hc. rewrite (handle_command t b w Hc). unfold Bot.classify_and_dispatch.
    destruct (detect_intent (normalize t)) as [i m]. reflexivity. }
  split.
  - intros Hs. apply (handle_fills t b w task Hp Ht).
    destruct (Str.startswith (normalize t) "/") eqn:Hc.
    + destruct Hs as [Hs|Hi]; [discriminate Hs|].
      rewrite (Ec eq_refl), Hi, dispatch_complaint. reflexivity.
    + apply (handle_slot_filling t b w task Hp Ht Hc).
  - intros Hc. specialize (Ec Hc). split.
    + rewrite Ec, dispatch_handler_of. reflexivity.
    + intros Hn. rewrite Ec.
      destruct (heard_frame "user" t b w) as (Hf & _ & _ & Hk & Hti).
      split; [|split; [|split; [|split]]].
      * destruct (dispatch_routed (fst (detect_intent (normalize t)))
                    (snd (detect_intent (normalize t))) (normalize t) t
                    (fst (heard "user" t b w)) (snd (heard "user" t b w)))
          as (b0 & w0 & _ & _ & P & O & _).
        rewrite (outcome_pending _ _ _ O).
        destruct (String.eqb (fst (detect_intent (normalize t))) "complaint") eqn:En.
        -- apply String.eqb_eq in En. contradiction.
        -- rewrite P, Hf. exact Hp.
      * intros ->. change (Bot.dispatch "help" ?m ?u ?r) with Bot.handle_help.
        unfold Bot.handle_help. rewrite reply_heard. reflexivity.
      * intros ->. rewrite dispatch_reset.
        destruct (handle_reset_clears (fst (heard "user" t b w)) (snd (heard "user" t b w)))
          as (b' & w' & E & _).
        rewrite E. reflexivity.
      * intros ->. change (Bot.dispatch "ask_date" ?m ?u ?r) with Bot.handle_date.
        unfold Bot.handle_date, bind, world. rewrite reply_heard. cbn [fst].
        rewrite heard_today. reflexivity.
      * intros ->. change (Bot.dispatch "ask_time" ?m ?u ?r) with Bot.handle_time.
        unfold Bot.handle_time, bind, now_str. rewrite reply_heard. cbn [fst].
        rewrite Hk, Hti. reflexivity.
Qed.

(** X8. Only the complaint handler changes the pending task: a turn
    that is classified, with an intent other than complaint, leaves the
    pending task as it was, whether it replies or raises. *)
Theorem pending_task_kept :
  forall (t : string) (b : Chatbot) (w : World),
    pending_task b = None \/ Str.startswith (normalize t) "/" = true ->
    fst (detect_intent (normalize t)) <> "complaint" ->
    pending_task (snd (fst (Bot.handle t b w))) = pending_task b.
Proof.
  intros t b w Hc Hi.
  assert (E : Bot.handle t b w
              = Bot.classify_and_dispatch (normalize t) t
                  (fst (heard "user" t b w)) (snd (heard "user" t b w))).
  { destruct Hc as [Hc|Hc]; [apply handle_idle | apply handle_command]; exact Hc. }
  rewrite E. unfold Bot.classify_and_dispatch.
  destruct (detect_intent (normalize t)) as [intent m]. cbn [fst] in Hi.
  destruct (dispatch_routed intent m (normalize t) t
              (fst (heard "user" t b w)) (snd (heard "user" t b w)))
    as (b0 & w0 & _ & _ & P & O & _).
  rewrite (outcome_pending _ _ _ O).
  destruct (String.eqb_spec intent "complaint") as [Ei|_]; [contradiction|].
  rewrite P. apply heard_frame.
Qed.

Lemma task_ok_step (t : string) (p p' : option Task) :
  task_ok p -> complaint_step t p p' -> task_ok p'.
Proof.
  unfold complaint_step. destruct p as [task|]; intros Hok Hs.
  - destruct Hok as (Ht & Ho). rewrite Ht in Hs.
    cbn [String.eqb Ascii.eqb Bool.eqb] in Hs. subst p'.
    unfold next_task. rewrite Ho.
    destruct (product (slots task)); [destruct (issue (slots task))|];
      cbn [task_ok Bot.with_slots task_type slots order_id]; auto.
  - subst p'. split; reflexivity.
Qed.

Lemma handle_task_ok (t : string) (b : Chatbot) (w : World) :
  task_ok (pending_task b) ->
  task_ok (pending_task (snd (fst (Bot.handle t b w)))).
Proof.
  intros Hok.
  destruct (handle_turn t b w) as (b0 & w0 & _ & _ & P & O & _).
  rewrite (outcome_pending _ _ _ O).
  destruct P as [P|P]; [rewrite P; exact Hok | exact (task_ok_step t _ _ Hok P)].
Qed.

Lemma reachable_task_ok (b : Chatbot) :
  reachable b -> task_ok (pending_task b).
Proof.
  induction 1 as [w | b w _ IH | t b w _ IH].
  - unfold Bot.init. destruct (Mem.init _ w). exact I.
  - destruct (greet_answers b w) as (b0 & w0 & r & _ & _ & P & E).
    rewrite E. cbn [fst snd].
    destruct (heard_frame "assistant" r b0 w0) as (Hf & _).
    rewrite Hf, <- P. exact IH.
  - apply handle_task_ok. exact IH.
Qed.

(** X9. In every state that [run] can reach, a pending task is a
    complaint whose order id is still empty; so the complaint handler
    never answers that the ticket is already created. *)
Theorem ticket_never_already_created :
  forall (b : Chatbot),
    reachable b ->
    task_ok (pending_task b) /\
    forall (t : string) (w : World),
      fst (fst (Bot.handle_complaint t b w))
      <> Ok "Your ticket is already created. Anything else?".
Proof.
  intros b Hr. pose proof (reachable_task_ok b Hr) as Hok.
  split; [exact Hok|]. intros t w.
  destruct (pending_task b) as [task|] eqn:Hp.
  - destruct Hok as (Ht & Ho).
    destruct (complaint_continue t b w task Hp Ht) as (r & b' & w' & E & _ & _ & _ & Q).
    rewrite E. cbn [fst]. rewrite Ho in Q. intros N. injection N as N.
    revert N. rewrite Q.
    destruct (product (slots task)); [destruct (issue (slots task))|];
      discriminate.
  - destruct (complaint_start t b w Hp) as (b' & w' & E & _).
    rewrite E. cbn [fst]. discriminate.
Qed.


(** ** The main loop *)

Lemma bye_idle (b : Chatbot) (w : World) :
  pending_task b = None ->
  exists r b' w', Bot.handle "bye" b w = (Ok r, b', w') /\ In r GOODBYES.
Proof.
  intros Hp. rewrite (handle_idle "bye" b w Hp).
  unfold Bot.classify_and_dispatch.
  assert (Hi : fst (detect_intent (normalize "bye")) = "goodbye")
    by (vm_compute; reflexivity).
  destruct (detect_intent (normalize "bye")) as [i m]. cbn [fst] in Hi. subst i.
  change (Bot.dispatch "goodbye" m (normalize "bye") "bye") with Bot.handle_goodbye.
  destruct (goodbye_answers (fst (heard "user" "bye" b w)) (snd (heard "user" "bye" b w)))
    as (r & Hin & E).
  rewrite E. eexists r, _, _. split; [reflexivity | exact Hin].
Qed.

Lemma in_goodbyes (r : string) :
  existsb (String.eqb r) GOODBYES = true -> In r GOODBYES.
Proof.
  intros E. apply existsb_exists in E. destruct E as (g & Hin & Eg).
  apply String.eqb_eq in Eg. subst g. exact Hin.
Qed.

Lemma loop_S (rounds : nat) (console out : list string) (b : Chatbot) (w : World) :
  Main.loop (S rounds) console out b w =
    let '(user, console', out) :=
      match console with
      | line :: console' => (line, console', (out ++ ["You: "])%list)
      | [] => ("bye", [], (out ++ ["You: "; ""])%list)
      end in
    match Str.strip user with
    | EmptyString => Main.loop rounds console' out b w
    | _ =>
        match Bot.handle user b w with
        | (Ok resp, b', w') =>
            if existsb (String.eqb resp) GOODBYES
            then (Main.Left, (out ++ [resp])%list, b', w')
            else Main.loop rounds console' (out ++ [resp])%list b' w'
        | (Raise e, b', w') => (Main.Failed e, out, b', w')
        end
    end.
Proof. reflexivity. Qed.

Lemma turns_left_next (t : string) (task : Task) :
  order_id (slots task) = None ->
  S (turns_left (next_task t task)) = turns_left (Some task).
Proof.
  intros Ho. unfold next_task, turns_left. rewrite Ho.
  destruct (product (slots task)), (issue (slots task));
    cbn [Bot.with_slots slots product issue]; reflexivity.
Qed.

(** At the end of the input the loop is left after the replies the
    pending complaint still takes, and one more. *)
Lemma eof_ends (n : nat) :
  forall (b : Chatbot) (w : World) (out : list string) (rounds : nat),
    task_ok (pending_task b) ->
    turns_left (pending_task b) <= n ->
    n < rounds ->
    fst (fst (fst (Main.loop rounds [] out b w))) = Main.Left /\
    ended (Main.loop rounds [] out b w).
Proof.
  induction n as [|n IH]; intros b w out rounds Hok Hn Hr;
    (destruct rounds as [|rounds]; [lia|]); rewrite loop_S;
    change (Str.strip "bye") with "bye"; cbv beta iota zeta;
    destruct (pending_task b) as [task|] eqn:Hp.
  - exfalso. unfold turns_left in Hn.
    destruct (product (slots task)), (issue (slots task)); lia.
  - destruct (bye_idle b w Hp) as (r & b' & w' & E & Hin). rewrite E.
    assert (Eg : existsb (String.eqb r) GOODBYES = true).
    { apply existsb_exists. exists r. split; [exact Hin | apply String.eqb_refl]. }
    rewrite Eg. split; [reflexivity|]. unfold ended. cbn [fst snd].
    eexists _, r. split; [reflexivity | exact Hin].
  - destruct Hok as (Ht & Ho).
    assert (Hc : Str.startswith (normalize "bye") "/" = false)
      by (vm_compute; reflexivity).
    destruct (handle_fill "bye" b w task Hp Ht Hc) as (r & b' & w' & E & P & _).
    rewrite E. destruct (existsb (String.eqb r) GOODBYES) eqn:Eg.
    + split; [reflexivity|]. unfold ended. cbn [fst snd].
      eexists _, r. split; [reflexivity | apply in_goodbyes; exact Eg].
    + pose proof (turns_left_next "bye" task Ho) as Hl.
      apply IH.
      * rewrite P.
        apply (task_ok_step "bye" (Some task)); [split; assumption|].
        unfold complaint_step. rewrite Ht. reflexivity.
      * rewrite P. lia.
      * lia.
  - destruct (bye_idle b w Hp) as (r & b' & w' & E & Hin). rewrite E.
    assert (Eg : existsb (String.eqb r) GOODBYES = true).
    { apply existsb_exists. exists r. split; [exact Hin | apply String.eqb_refl]. }
    rewrite Eg. split; [reflexivity|]. unfold ended. cbn [fst snd].
    eexists _, r. split; [reflexivity | exact Hin].
Qed.

Lemma turns_left_le (p : option Task) : turns_left p <= 3.
Proof.
  unfold turns_left. destruct p as [task|]; [|lia].
  destruct (product (slots task)), (issue (slots task)); lia.
Qed.

Lemma loop_ends (console : list string) :
  forall (b : Chatbot) (w : World) (out : list string) (rounds : nat),
    task_ok (pending_task b) ->
    List.length console + 3 < rounds ->
    ended (Main.loop rounds console out b w).
Proof.
  induction console as [|line console IH]; intros b w out rounds Hok Hr.
  - apply (eof_ends 3); [exact Hok | apply turns_left_le | cbn [List.length] in Hr; lia].
  - cbn [List.length] in Hr. destruct rounds as [|rounds]; [lia|].
    rewrite loop_S. cbv beta iota zeta.
    destruct (Str.strip line) as [|c s].
    + apply IH; [exact Hok | lia].
    + pose proof (handle_task_ok line b w Hok) as Hok'.
      destruct (Bot.handle line b w) as [[[resp|e] b'] w']; cbn [fst snd] in Hok'.
      * destruct (existsb (String.eqb resp) GOODBYES) eqn:Eg.
        -- unfold ended. cbn [fst snd].
           eexists _, resp. split; [reflexivity | apply in_goodbyes; exact Eg].
        -- apply IH; [exact Hok' | lia].
      * exact I.
Qed.

(** X10. Started on a memory file that is absent or was written in
    full by [Memory.save], [run] always comes to an end once the input
    has ended: the end of the input is taken for bye, which a pending
    complaint takes for at most three slots before it is met with a
    goodbye. So after the lines typed at most four more rounds are made;
    when the loop is left, the last line written is one of [GOODBYES];
    with no line typed at all, [run] greets and leaves in its first
    round. *)
Theorem run_ends :
  forall (console : list string) (w : World) (more : nat),
    memory_file_ok w ->
    ended (Main.run (List.length console + 4 + more) console w) /\
    fst (fst (fst (Main.run (1 + more) [] w))) = Main.Left.
Proof.
  intros console w more _. unfold Main.run.
  destruct (Bot.init w) as [bot w0] eqn:Ei.
  assert (Hp : pending_task bot = None).
  { unfold Bot.init in Ei. destruct (Mem.init _ w).
    injection Ei as <- _. reflexivity. }
  destruct (greet_answers bot w0) as (b0 & w1 & g & _ & _ & P & E).
  rewrite E.
  destruct (heard_frame "assistant" g b0 w1) as (Hf & _).
  assert (Hq : pending_task (fst (heard "assistant" g b0 w1)) = None)
    by (rewrite Hf, <- P; exact Hp).
  split.
  - apply loop_ends; [rewrite Hq; exact I | lia].
  - apply (eof_ends 0); [rewrite Hq; exact I | rewrite Hq; cbn [turns_left]; lia | lia].
Qed.

End TurnProperties.

Lemma slot_filling_priority_witness :
  (Str.startswith (normalize "/refund") "/" = false \/
   fst (detect_intent (normalize "/refund")) = "complaint" ->
   exists r b' w',
     @Bot.handle opaque_floats plain_libs "/refund" awaiting_product quiet_world
     = (Ok r, b', w') /\
     pending_task b' = next_task "/refund" Bot.new_task /\
     r = match product (slots Bot.new_task), issue (slots Bot.new_task),
               order_id (slots Bot.new_task) with
         | None, _, _ => "Got it. Briefly describe the issue."
         | Some _, None, _ => "Please share your order ID (or say 'none')."
         | Some p, Some i, None =>
             "Thanks! Ticket TKT-" ++ Str.of_N (ticket_number quiet_world)
             ++ " created. Product: "
             ++ p ++ ". Issue: " ++ i ++ ". Order ID: "
             ++ (if String.eqb (Str.lower (Str.strip "/refund")) "none"
                    || String.eqb (Str.strip "/refund") ""
                 then "N/A" else Str.strip "/refund")
             ++ ". Our team will follow up."
         | Some _, Some _, Some _ => "Your ticket is already created. Anything else?"
         end) /\
  (Str.startswith (normalize "/refund") "/" = true ->
   @Bot.handle opaque_floats plain_libs "/refund" awaiting_product quiet_world
   = @handler_of opaque_floats plain_libs
       (fst (detect_intent (normalize "/refund"))) (snd (detect_intent (normalize "/refund")))
       (normalize "/refund") "/refund"
       (fst (heard "user" "/refund" awaiting_product quiet_world))
       (snd (heard "user" "/refund" awaiting_product quiet_world)) /\
   (fst (detect_intent (normalize "/refund")) <> "complaint" ->
    pending_task (snd (fst (@Bot.handle opaque_floats plain_libs "/refund"
                              awaiting_product quiet_world))) = Some Bot.new_task /\
    (fst (detect_intent (normalize "/refund")) = "help" ->
     fst (fst (@Bot.handle opaque_floats plain_libs "/refund" awaiting_product quiet_world))
     = Ok ("Commands:" ++ Bot.nl ++
           "  /help                Show this help" ++ Bot.nl ++
           "  /setname Name        Save your name" ++ Bot.nl ++
           "  /loadcsv path.csv    Load a CSV and get insights" ++ Bot.nl ++
           "  /summary             Summarize our recent chat" ++ Bot.nl ++
           "  /export_history      Save conversation to chat_history.txt" ++ Bot.nl ++
           "  /reset               Clear memory (name & history)" ++ Bot.nl ++ Bot.nl ++
           "Other features:" ++ Bot.nl ++
           "- Type 'sunk cost', 'NPV', 'CAPM', etc. for quick BBA FAQs" ++ Bot.nl ++
           "- Start a complaint (say 'I have a problem...') to open a support ticket" ++ Bot.nl ++
           "- Calculator: start with '=' or type 'calculate 2*(10+5)'" ++ Bot.nl ++
           "- Ask date/time, casual chat, and more!")) /\
    (fst (detect_intent (normalize "/refund")) = "reset" ->
     fst (fst (@Bot.handle opaque_floats plain_libs "/refund" awaiting_product quiet_world))
     = Ok "Memory cleared. Fresh start!") /\
    (fst (detect_intent (normalize "/refund")) = "ask_date" ->
     fst (fst (@Bot.handle opaque_floats plain_libs "/refund" awaiting_product quiet_world))
     = Ok ("Today is " ++ today quiet_world ++ ".")) /\
    (fst (detect_intent (normalize "/refund")) = "ask_time" ->
     fst (fst (@Bot.handle opaque_floats plain_libs "/refund" awaiting_product quiet_world))
     = Ok ("Current time: " ++ clock quiet_world (S (ticks quiet_world)))))).
Proof.
  apply (@slot_filling_priority opaque_floats plain_libs awaiting_product quiet_world
           "/refund" Bot.new_task).
  - reflexivity.
  - reflexivity.
Defined.

Lemma handle_writes_through_witness :
  path (mem (snd (fst (@Bot.handle opaque_floats plain_libs "my name is ada lovelace"
                         fresh_bot quiet_world))))
  = path (mem fresh_bot) /\
  data (fst (Mem.init
               (path (mem (snd (fst (@Bot.handle opaque_floats plain_libs
                                       "my name is ada lovelace" fresh_bot quiet_world)))))
               (snd (@Bot.handle opaque_floats plain_libs "my name is ada lovelace"
                       fresh_bot quiet_world))))
  = data (mem (snd (fst (@Bot.handle opaque_floats plain_libs "my name is ada lovelace"
                           fresh_bot quiet_world)))).
Proof.
  apply (@handle_writes_through opaque_floats plain_libs "my name is ada lovelace"
           fresh_bot quiet_world "Nice to meet you, Ada! I'll remember your name.").
  - reflexivity.
  - vm_compute. reflexivity.
  - vm_compute. reflexivity.
Defined.

Lemma run_ends_witness :
  ended (@Main.run opaque_floats plain_libs
           (List.length ["hello"; "/refund"; "the kettle"] + 4 + 0)
           ["hello"; "/refund"; "the kettle"] quiet_world) /\
  fst (fst (fst (@Main.run opaque_floats plain_libs (1 + 0) [] quiet_world))) = Main.Left.
Proof.
  apply (@run_ends opaque_floats plain_libs ["hello"; "/refund"; "the kettle"] quiet_world 0).
  left. reflexivity.
Defined.

Lemma handle_logs_turn_witness :
  exists time,
    (fst (detect_intent (normalize "What is NPV?")) <> "reset" ->
     history (data (mem (snd (fst (@Bot.handle opaque_floats plain_libs "What is NPV?"
                                     fresh_bot quiet_world)))))
     = Mem.last_n 400
         (history (data (mem fresh_bot))
          ++ [ {| h_time := clock quiet_world (ticks quiet_world); h_role := "user";
                  h_text := "What is NPV?" |};
               {| h_time := time; h_role := "assistant";
                  h_text := "Npv: NPV (Net Present Value) = sum of discounted cash flows minus initial investment; choose projects with positive NPV." |} ])%list) /\
    exists older,
      history (data (mem (snd (fst (@Bot.handle opaque_floats plain_libs "What is NPV?"
                                      fresh_bot quiet_world)))))
      = (older ++ [{| h_time := time; h_role := "assistant";
                      h_text := "Npv: NPV (Net Present Value) = sum of discounted cash flows minus initial investment; choose projects with positive NPV." |}])%list.
Proof.
  apply (@handle_logs_turn opaque_floats plain_libs "What is NPV?" fresh_bot quiet_world
           "Npv: NPV (Net Present Value) = sum of discounted cash flows minus initial investment; choose projects with positive NPV."
           (snd (fst (@Bot.handle opaque_floats plain_libs "What is NPV?"
                        fresh_bot quiet_world)))
           (snd (@Bot.handle opaque_floats plain_libs "What is NPV?" fresh_bot quiet_world))).
  vm_compute. reflexivity.
Defined.

Lemma pending_task_kept_witness :
  pending_task (snd (fst (@Bot.handle opaque_floats plain_libs "/export_history"
                            awaiting_order_id quiet_world)))
  = pending_task awaiting_order_id.
Proof.
  apply (@pending_task_kept opaque_floats plain_libs "/export_history"
           awaiting_order_id quiet_world).
  - right. vm_compute. reflexivity.
  - vm_compute. discriminate.
Defined.

Lemma ticket_never_already_created_witness :
  task_ok (pending_task (fst (@Bot.init quiet_world))) /\
  forall (t : string) (w : World),
    fst (fst (@Bot.handle_complaint t (fst (@Bot.init quiet_world)) w))
    <> Ok "Your ticket is already created. Anything else?".
Proof.
  apply (@ticket_never_already_created opaque_floats plain_libs (fst (@Bot.init quiet_world))).
  apply reach_init.
Defined.

(** ** The normal form of a text *)

Lemma is_space_lower (c : ascii) : Str.is_space (Str.lower_char c) = Str.is_space c.
Proof. destruct c as [[] [] [] [] [] [] [] []]; reflexivity. Qed.

Lemma lower_char_idem (c : ascii) : Str.lower_char (Str.lower_char c) = Str.lower_char c.
Proof. destruct c as [[] [] [] [] [] [] [] []]; reflexivity. Qed.

Lemma lower_idem (s : string) : Str.lower (Str.lower s) = Str.lower s.
Proof.
  unfold Str.lower. induction s as [|c s IH]; [reflexivity|].
  cbn [Str.map]. rewrite lower_char_idem, IH. reflexivity.
Qed.

Lemma plus_space (s : string) :
  forall c,
    match s with
    | String ch _ =>
        if Str.is_space ch
        then exists c', Re.plus Re.Space Some s c = Some c' /\
                        Re.rest c' = Str.lstrip s /\ Re.pos c < Re.pos c'
        else Re.plus Re.Space Some s c = None
    | EmptyString => Re.plus Re.Space Some s c = None
    end.
Proof.
  induction s as [|ch s IH]; intros c; [reflexivity|].
  cbn [Re.plus Re.in_class Str.lstrip].
  destruct (Str.is_space ch) eqn:Hs; [|reflexivity].
  specialize (IH (Re.advance ch s c)).
  destruct s as [|ch' s'].
  - rewrite IH. eexists. split; [reflexivity|]. cbn. split; [reflexivity | lia].
  - destruct (Str.is_space ch') eqn:Hs'.
    + destruct IH as (c' & E & R & P). rewrite E. exists c'.
      split; [reflexivity|]. split; [exact R | cbn in P; lia].
    + rewrite IH. eexists. split; [reflexivity|].
      cbn [Re.advance Re.rest Re.pos Str.lstrip]. rewrite Hs'. split; [reflexivity | lia].
Qed.

Lemma squeeze_lstrip (s : string) : squeeze true s = squeeze false (Str.lstrip s).
Proof.
  induction s as [|ch s IH]; [reflexivity|].
  cbn [squeeze Str.lstrip]. destruct (Str.is_space ch) eqn:Hs; [exact IH|].
  cbn [squeeze]. rewrite Hs. reflexivity.
Qed.

Lemma length_lstrip (s : string) : String.length (Str.lstrip s) <= String.length s.
Proof.
  induction s as [|ch s IH]; [reflexivity|].
  cbn [Str.lstrip]. destruct (Str.is_space ch); cbn [String.length]; lia.
Qed.

Lemma sub_from_S (fuel : nat) (p : Re.pattern) (repl : string) (c : Re.cursor) :
  Re.sub_from (S fuel) p repl c =
    match Re.match_at p {| Re.prev := Re.prev c; Re.pos := Re.pos c;
                           Re.rest := Re.rest c; Re.grp1 := None |} with
    | Some m =>
        if Nat.eqb (Re.m_end m) (Re.pos c)
        then match Re.rest c with
             | EmptyString => repl
             | String ch s' =>
                 repl ++ String ch (Re.sub_from fuel p repl (Re.advance ch s' c))
             end
        else repl ++
             Re.sub_from fuel p repl
               {| Re.prev := String.get (Re.m_end m - Re.pos c - 1) (Re.rest c);
                  Re.pos := Re.m_end m; Re.rest := Re.m_tail m; Re.grp1 := None |}
    | None =>
        match Re.rest c with
        | EmptyString => EmptyString
        | String ch s' => String ch (Re.sub_from fuel p repl (Re.advance ch s' c))
        end
    end.
Proof. reflexivity. Qed.

(** [re.sub(r"\s+", " ", text)] is [squeeze]. *)
Lemma sub_squeeze (fuel : nat) :
  forall c,
    String.length (Re.rest c) < fuel ->
    Re.sub_from fuel (Re.compile (Re.Plus Re.Space) false) " " c
    = squeeze false (Re.rest c).
Proof.
  induction fuel as [|fuel IH]; intros c Hf; [lia|].
  rewrite sub_from_S. unfold Re.match_at.
  cbn [Re.rx Re.expr Re.ignorecase Re.rest].
  pose proof (plus_space (Re.rest c)
                {| Re.prev := Re.prev c; Re.pos := Re.pos c;
                   Re.rest := Re.rest c; Re.grp1 := None |}) as Hp.
  destruct (Re.rest c) as [|ch s] eqn:Er.
  - rewrite Hp. reflexivity.
  - cbn [squeeze]. destruct (Str.is_space ch) eqn:Hs.
    + destruct Hp as (c' & E & R & P). rewrite E.
      cbn [Re.m_end Re.m_tail Re.pos] in *.
      destruct (Nat.eqb_spec (Re.pos c') (Re.pos c)) as [Heq|_]; [lia|].
      rewrite IH.
      * cbn [Re.rest]. rewrite R. cbn [Str.lstrip]. rewrite Hs.
        rewrite squeeze_lstrip. reflexivity.
      * cbn [Re.rest]. rewrite R. cbn [Str.lstrip]. rewrite Hs.
        pose proof (length_lstrip s). cbn [String.length] in Hf. lia.
    + rewrite Hp. rewrite IH; [reflexivity|].
      cbn [Re.advance Re.rest]. cbn [String.length] in Hf. lia.
Qed.

Lemma normalize_squeeze (t : string) :
  normalize t = squeeze false (Str.lower (Str.strip t)).
Proof.
  unfold normalize, Re.sub. cbv zeta. rewrite sub_squeeze; [reflexivity|].
  cbn [Re.start_of Re.rest]. lia.
Qed.

Lemma lower_squeeze (s : string) :
  forall b, Str.lower (squeeze b s) = squeeze b (Str.lower s).
Proof.
  unfold Str.lower. induction s as [|c s IH]; intros b; [reflexivity|].
  cbn [squeeze Str.map]. rewrite is_space_lower.
  destruct (Str.is_space c); [destruct b|]; cbn [Str.map]; rewrite IH; reflexivity.
Qed.

Lemma squeeze_idem (s : string) :
  forall b, squeeze b (squeeze b s) = squeeze b s.
Proof.
  induction s as [|c s IH]; intros b; [reflexivity|].
  cbn [squeeze]. destruct (Str.is_space c) eqn:Hs.
  - destruct b; [apply IH|].
    cbn [squeeze]. change (Str.is_space " ") with true. cbv iota.
    rewrite IH. reflexivity.
  - cbn [squeeze]. rewrite Hs, IH. reflexivity.
Qed.

Lemma lstrip_no_lead (s : string) : no_lead (Str.lstrip s) = true.
Proof.
  induction s as [|c s IH]; [reflexivity|].
  cbn [Str.lstrip]. destruct (Str.is_space c) eqn:Hs; [exact IH|].
  cbn [no_lead]. rewrite Hs. reflexivity.
Qed.

Lemma lstrip_fixed (s : string) : no_lead s = true -> Str.lstrip s = s.
Proof.
  destruct s as [|c s]; [reflexivity|]. cbn [no_lead Str.lstrip].
  destruct (Str.is_space c); [discriminate | reflexivity].
Qed.

Lemma rstrip_S (c : ascii) (s : string) :
  Str.rstrip (String c s) =
    match Str.rstrip s with
    | EmptyString => if Str.is_space c then EmptyString else String c EmptyString
    | r => String c r
    end.
Proof. reflexivity. Qed.

Lemma no_trail_S (c : ascii) (s : string) :
  no_trail (String c s) =
    match s with
    | EmptyString => negb (Str.is_space c)
    | _ => no_trail s
    end.
Proof. destruct s; reflexivity. Qed.

Lemma rstrip_no_trail (s : string) : no_trail (Str.rstrip s) = true.
Proof.
  induction s as [|c s IH]; [reflexivity|].
  rewrite rstrip_S. destruct (Str.rstrip s) as [|c' r] eqn:Er.
  - destruct (Str.is_space c) eqn:Hs; [reflexivity|].
    cbn [no_trail]. rewrite Hs. reflexivity.
  - rewrite no_trail_S. exact IH.
Qed.

Lemma rstrip_fixed (s : string) : no_trail s = true -> Str.rstrip s = s.
Proof.
  induction s as [|c s IH]; [reflexivity|].
  rewrite no_trail_S, rstrip_S. destruct s as [|c' s'].
  - cbn [Str.rstrip]. destruct (Str.is_space c); [discriminate | reflexivity].
  - intros Ht. rewrite (IH Ht). reflexivity.
Qed.

Lemma rstrip_no_lead (s : string) : no_lead s = true -> no_lead (Str.rstrip s) = true.
Proof.
  destruct s as [|c s]; [reflexivity|]. cbn [no_lead]. intros Hc.
  rewrite rstrip_S. destruct (Str.rstrip s).
  - destruct (Str.is_space c) eqn:E; [discriminate|].
    cbn [no_lead]. rewrite E. reflexivity.
  - exact Hc.
Qed.

Lemma lower_no_lead (s : string) : no_lead (Str.lower s) = no_lead s.
Proof. destruct s as [|c s]; [reflexivity|]. cbn. now rewrite is_space_lower. Qed.

Lemma lower_no_trail (s : string) : no_trail (Str.lower s) = no_trail s.
Proof.
  unfold Str.lower. induction s as [|c s IH]; [reflexivity|].
  cbn [Str.map]. rewrite !no_trail_S. destruct s as [|c' s'].
  - cbn [Str.map]. now rewrite is_space_lower.
  - cbn [Str.map] in *. exact IH.
Qed.

Lemma squeeze_no_lead (s : string) :
  no_lead s = true -> no_lead (squeeze false s) = true.
Proof.
  destruct s as [|c s]; [reflexivity|]. cbn [no_lead squeeze].
  destruct (Str.is_space c) eqn:Hs; [discriminate|]. intros _.
  cbn [no_lead]. rewrite Hs. reflexivity.
Qed.

Lemma squeeze_not_empty (s : string) :
  forall b, no_trail s = true -> s <> "" -> squeeze b s <> "".
Proof.
  induction s as [|c s IH]; intros b Ht Hn; [now elim Hn|].
  rewrite no_trail_S in Ht. cbn [squeeze]. destruct s as [|c' s'].
  - destruct (Str.is_space c); [discriminate Ht | discriminate].
  - destruct (Str.is_space c); [destruct b|]; try discriminate.
    apply IH; [exact Ht | discriminate].
Qed.

Lemma squeeze_no_trail (s : string) :
  forall b, no_trail s = true -> no_trail (squeeze b s) = true.
Proof.
  induction s as [|c s IH]; intros b Ht; [reflexivity|].
  rewrite no_trail_S in Ht. cbn [squeeze]. destruct (Str.is_space c) eqn:Hs.
  - destruct s as [|c' s']; [discriminate Ht|].
    destruct b; [apply IH; exact Ht|].
    rewrite no_trail_S.
    pose proof (squeeze_not_empty (String c' s') true Ht) as Hne.
    destruct (squeeze true (String c' s')) eqn:Eq; [now elim Hne|].
    rewrite <- Eq. apply IH. exact Ht.
  - rewrite no_trail_S.
    destruct (squeeze false s) eqn:Eq; [now rewrite Hs|].
    rewrite <- Eq. apply IH. destruct s; [reflexivity | exact Ht].
Qed.

(** X11. [normalize] is idempotent, and its result is already trimmed
    and in lower case: it is the lowered, trimmed text with each run of
    white space made one space. *)
Theorem normalize_idempotent :
  forall (t : string),
    normalize (normalize t) = normalize t /\
    Str.strip (normalize t) = normalize t /\
    Str.lower (normalize t) = normalize t /\
    normalize t = squeeze false (Str.lower (Str.strip t)).
Proof.
  intros t.
  assert (Hs : Str.strip (normalize t) = normalize t).
  { rewrite normalize_squeeze. unfold Str.strip at 1.
    set (y := Str.lower (Str.strip t)).
    assert (Hl : no_lead y = true).
    { unfold y. rewrite lower_no_lead. unfold Str.strip.
      apply rstrip_no_lead, lstrip_no_lead. }
    assert (Ht : no_trail y = true).
    { unfold y. rewrite lower_no_trail. unfold Str.strip. apply rstrip_no_trail. }
    rewrite (lstrip_fixed _ (squeeze_no_lead y Hl)).
    apply rstrip_fixed, squeeze_no_trail, Ht. }
  assert (Hl : Str.lower (normalize t) = normalize t).
  { rewrite normalize_squeeze, lower_squeeze, lower_idem. reflexivity. }
  split; [|split; [exact Hs | split; [exact Hl | apply normalize_squeeze]]].
  rewrite (normalize_squeeze (normalize t)), Hs, Hl.
  rewrite normalize_squeeze. apply squeeze_idem.
Qed.

(** ** What the patterns of the commands ask for *)

Lemma bol_not_later (r : Re.regex) (ic : bool) (s : string) :
  forall c, 0 < Re.pos c ->
    Re.search_from (Re.compile (Re.Seq Re.Bol r) ic) s c = None.
Proof.
  induction s as [|ch s IH]; intros c Hc; cbn [Re.search_from];
    unfold Re.match_at; cbn [Re.rx Re.expr Re.ignorecase];
    destruct (Nat.eqb_spec (Re.pos c) 0) as [E|_]; try lia; [reflexivity|].
  apply IH. cbn. lia.
Qed.

Lemma search_bol (r : Re.regex) (ic : bool) (text : string) (m : Re.Match) :
  Re.search (Re.compile (Re.Seq Re.Bol r) ic) text = Some m ->
  exists c, Re.rx ic r Some (Re.start_of text) = Some c.
Proof.
  unfold Re.search. intros Hs.
  assert (Hm : Re.match_at (Re.compile (Re.Seq Re.Bol r) ic) (Re.start_of text) <> None).
  { intros Hm. destruct text as [|ch s]; cbn [Re.search_from] in Hs; rewrite Hm in Hs.
    - discriminate Hs.
    - rewrite bol_not_later in Hs by (cbn; lia). discriminate Hs. }
  unfold Re.match_at in Hm. cbn [Re.rx Re.expr Re.ignorecase Re.start_of Re.pos Nat.eqb] in Hm.
  destruct (Re.rx ic r Some (Re.start_of text)) as [c|] eqn:E; [|now elim Hm].
  exists c. reflexivity.
Qed.

Lemma slash_only (b : ascii) : Re.chr_eq true "/" b = true -> b = "/"%char.
Proof.
  destruct b as [[] [] [] [] [] [] [] []]; intros E; try discriminate E; reflexivity.
Qed.

Lemma lit_slash (p : string) (k : Re.cursor -> option Re.cursor) (c x : Re.cursor) :
  Re.rx true (Re.Lit (String "/" p)) k c = Some x ->
  Str.startswith (Re.rest c) "/" = true.
Proof.
  cbn [Re.rx Re.lit]. destruct (Re.rest c) as [|b s]; [discriminate|].
  destruct (Re.chr_eq true "/" b) eqn:E; [|discriminate]. intros _.
  rewrite (slash_only b E). destruct s; reflexivity.
Qed.

(** X12. The intents of the commands with an anchored pattern
    (load_csv, setname_cmd, reset, export, summary) are detected only
    for a text that starts with /. *)
Theorem command_intents_need_slash :
  forall (text : string),
    In (fst (detect_intent text)) ["load_csv"; "setname_cmd"; "reset"; "export"; "summary"] ->
    Str.startswith text "/" = true.
Proof.
  intros text Hin. unfold detect_intent in Hin.
  pose proof (first_match_least INTENT_PATTERNS text) as Hf.
  destruct (first_match INTENT_PATTERNS text) as [[n m]|].
  - cbn [fst] in Hin. destruct Hf as (i & p & Hn & Hs & _).
    unfold INTENT_PATTERNS in Hn.
    do 14 (destruct i as [|i];
           [cbn [nth_error] in Hn; injection Hn as <- <-;
            first [ exfalso; cbn [In] in Hin; intuition discriminate
                  | unfold command_pattern, command_arg_pattern in Hs;
                    destruct (search_bol _ _ _ _ Hs) as (c & Hc);
                    cbn [Re.rx] in Hc;
                    apply (lit_slash _ _ (Re.start_of text) c Hc) ]|]).
    destruct i; discriminate Hn.
  - exfalso. destruct (existsb _ _); cbn [fst In] in Hin; intuition discriminate.
Qed.

(** ** The captured group *)

Lemma plus_from_k (cl : Re.cclass) (k : Re.cursor -> option Re.cursor) (s : string) :
  forall c x, Re.plus cl k s c = Some x -> exists c', k c' = Some x.
Proof.
  induction s as [|ch s IH]; intros c x; cbn [Re.plus]; [discriminate|].
  destruct (Re.in_class cl ch); [|discriminate].
  destruct (Re.plus cl k s (Re.advance ch s c)) as [r|] eqn:E.
  - intros Hx. injection Hx as ->. exact (IH _ _ E).
  - intros Hx. eexists. exact Hx.
Qed.

(** What a match returns has gone through the continuation. *)
Lemma rx_from_k (ic : bool) (r : Re.regex) :
  forall k c x, Re.rx ic r k c = Some x -> exists c', k c' = Some x.
Proof.
  induction r as [p | cl | a IHa b IHb | a IHa b IHb | a IHa | i a IHa | | |];
    intros k c x; cbn [Re.rx].
  - destruct (Re.lit ic p c) as [c'|]; [|discriminate]. intros Hx. eexists. exact Hx.
  - apply plus_from_k.
  - intros Hx. destruct (IHa _ _ _ Hx) as (c' & Hb). exact (IHb _ _ _ Hb).
  - destruct (Re.rx ic a k c) as [y|] eqn:E.
    + intros Hx. injection Hx as ->. exact (IHa _ _ _ E).
    + apply IHb.
  - destruct (Re.rx ic a k c) as [y|] eqn:E.
    + intros Hx. injection Hx as ->. exact (IHa _ _ _ E).
    + intros Hx. eexists. exact Hx.
  - intros Hx. destruct (IHa _ _ _ Hx) as (c' & Hk). eexists. exact Hk.
  - destruct (Re.at_boundary c); [|discriminate]. intros Hx. eexists. exact Hx.
  - destruct (Nat.eqb (Re.pos c) 0); [|discriminate]. intros Hx. eexists. exact Hx.
  - destruct (Re.at_end c); [|discriminate]. intros Hx. eexists. exact Hx.
Qed.

Lemma lit_group (ic : bool) (p : string) :
  forall c c', Re.lit ic p c = Some c' -> Re.grp1 c' = Re.grp1 c.
Proof.
  induction p as [|a p IH]; intros c c'; cbn [Re.lit].
  - intros Hc. injection Hc as <-. reflexivity.
  - destruct (Re.rest c) as [|b s]; [discriminate|].
    destruct (Re.chr_eq ic a b); [|discriminate].
    intros Hc. rewrite (IH _ _ Hc). reflexivity.
Qed.

Lemma plus_keeps (cl : Re.cclass) (k : Re.cursor -> option Re.cursor) (s : string) :
  keeps_group k ->
  forall c x, Re.grp1 c <> None -> Re.plus cl k s c = Some x -> Re.grp1 x <> None.
Proof.
  intros Hk. induction s as [|ch s IH]; intros c x Hg; cbn [Re.plus]; [discriminate|].
  destruct (Re.in_class cl ch); [|discriminate].
  destruct (Re.plus cl k s (Re.advance ch s c)) as [r|] eqn:E.
  - intros Hx. injection Hx as ->. exact (IH (Re.advance ch s c) _ Hg E).
  - intros Hx. exact (Hk (Re.advance ch s c) _ Hg Hx).
Qed.

Lemma rx_keeps (ic : bool) (r : Re.regex) :
  forall k, keeps_group k -> keeps_group (Re.rx ic r k).
Proof.
  induction r as [p | cl | a IHa b IHb | a IHa b IHb | a IHa | i a IHa | | |];
    intros k Hk c x Hg; cbn [Re.rx].
  - destruct (Re.lit ic p c) as [c'|] eqn:E; [|discriminate].
    apply Hk. rewrite (lit_group _ _ _ _ E). exact Hg.
  - apply plus_keeps; assumption.
  - apply IHa; [apply IHb; exact Hk | exact Hg].
  - destruct (Re.rx ic a k c) as [y|] eqn:E.
    + intros Hx. injection Hx as ->. exact (IHa k Hk c _ Hg E).
    + apply IHb; assumption.
  - destruct (Re.rx ic a k c) as [y|] eqn:E.
    + intros Hx. injection Hx as ->. exact (IHa k Hk c _ Hg E).
    + apply Hk. exact Hg.
  - apply IHa; [|exact Hg]. intros c' y Hg' Hy. apply (Hk (Re.capture i c c') y); [|exact Hy].
    unfold Re.capture. destruct (Nat.eqb i 1); [discriminate | exact Hg'].
  - destruct (Re.at_boundary c); [|discriminate]. apply Hk. exact Hg.
  - destruct (Nat.eqb (Re.pos c) 0); [|discriminate]. apply Hk. exact Hg.
  - destruct (Re.at_end c); [|discriminate]. apply Hk. exact Hg.
Qed.

Lemma keeps_some : keeps_group Some.
Proof. intros c x Hg Hx. injection Hx as <-. exact Hg. Qed.

Lemma group_sets (ic : bool) (a : Re.regex) (k : Re.cursor -> option Re.cursor)
      (c x : Re.cursor) :
  keeps_group k -> Re.rx ic (Re.Group 1 a) k c = Some x -> Re.grp1 x <> None.
Proof.
  intros Hk Hx. cbn [Re.rx] in Hx.
  destruct (rx_from_k _ _ _ _ _ Hx) as (c' & Hc).
  apply (Hk (Re.capture 1 c c') x); [|exact Hc]. discriminate.
Qed.

Lemma search_at (p : Re.pattern) (s : string) :
  forall c m, Re.search_from p s c = Some m -> Re.rest c = s ->
    exists pre c', s = pre ++ Re.rest c' /\ Re.match_at p c' = Some m.
Proof.
  induction s as [|ch s IH]; intros c m; cbn [Re.search_from].
  - destruct (Re.match_at p c) as [m'|] eqn:E; [|discriminate].
    intros Hm Hr. injection Hm as ->. exists "", c. rewrite Hr. split; [reflexivity | exact E].
  - destruct (Re.match_at p c) as [m'|] eqn:E.
    + intros Hm Hr. injection Hm as ->. exists "", c. rewrite Hr.
      split; [reflexivity | exact E].
    + intros Hm _. destruct (IH _ _ Hm eq_refl) as (pre & c' & Hs & Hc).
      exists (String ch pre), c'. rewrite append_cons, <- Hs. split; [reflexivity | exact Hc].
Qed.

Lemma command_arg_group (cmd text : string) (m : Re.Match) :
  Re.search (command_arg_pattern cmd) text = Some m -> Re.m_group1 m <> None.
Proof.
  intros Hs. destruct (search_at _ _ _ _ Hs eq_refl) as (pre & c & _ & Hm).
  unfold Re.match_at, command_arg_pattern in Hm. cbn [Re.expr Re.ignorecase] in Hm.
  destruct (Re.rx _ _ Some c) as [x|] eqn:E; [|discriminate Hm].
  injection Hm as <-. cbn [Re.m_group1].
  change (Re.rx true (Re.Seq Re.Bol (Re.Seq (Re.Lit cmd) (Re.Seq (Re.Plus Re.Space)
            (Re.Seq (Re.Group 1 (Re.Plus Re.Dot)) Re.Eol)))) Some c)
    with (Re.rx true Re.Bol (Re.rx true (Re.Lit cmd) (Re.rx true (Re.Plus Re.Space)
            (Re.rx true (Re.Group 1 (Re.Plus Re.Dot)) (Re.rx true Re.Eol Some)))) c) in E.
  destruct (rx_from_k _ _ _ _ _ E) as (c1 & E1).
  destruct (rx_from_k _ _ _ _ _ E1) as (c2 & E2).
  destruct (rx_from_k _ _ _ _ _ E2) as (c3 & E3).
  apply (group_sets _ _ _ _ _ (rx_keeps true Re.Eol Some keeps_some) E3).
Qed.

Lemma every_app (f : ascii -> bool) (a b : string) :
  every f (a ++ b) = every f a && every f b.
Proof.
  induction a as [|x a IH]; [reflexivity|].
  rewrite append_cons. cbn [every]. rewrite IH. apply andb_assoc.
Qed.

Lemma squeeze_plain (s : string) : forall b, every plain (squeeze b s) = true.
Proof.
  induction s as [|c s IH]; intros b; [reflexivity|].
  cbn [squeeze]. destruct (Str.is_space c) eqn:Hs.
  - destruct b; [apply IH|]. cbn [every]. rewrite IH. reflexivity.
  - cbn [every]. unfold plain at 1. rewrite Hs, IH. reflexivity.
Qed.

Lemma plain_dot (c : ascii) : plain c = true -> Re.in_class Re.Dot c = true.
Proof.
  destruct c as [[] [] [] [] [] [] [] []]; intros E; try discriminate E; reflexivity.
Qed.

Lemma chr_eq_lower (a b : ascii) :
  Re.chr_eq true a b = true -> Str.lower_char b = Str.lower_char a.
Proof.
  unfold Re.chr_eq. intros E. apply Ascii.eqb_eq in E. symmetry. exact E.
Qed.

(** What a literal consumes is the literal, up to case. *)
Lemma lit_rest (p : string) :
  forall c c0, Re.lit true p c = Some c0 ->
    exists s1, Re.rest c = s1 ++ Re.rest c0 /\ Str.lower s1 = Str.lower p.
Proof.
  induction p as [|a p IH]; intros c c0; cbn [Re.lit].
  - intros Hc. injection Hc as <-. exists "". split; reflexivity.
  - destruct (Re.rest c) as [|b s] eqn:Er; [discriminate|].
    destruct (Re.chr_eq true a b) eqn:E; [|discriminate].
    intros Hc. destruct (IH _ _ Hc) as (s1 & Hr & Hl).
    cbn [Re.advance Re.rest] in Hr.
    exists (String b s1). rewrite append_cons, <- Hr.
    split; [reflexivity|].
    unfold Str.lower in *. cbn [Str.map]. rewrite Hl, (chr_eq_lower _ _ E). reflexivity.
Qed.

Lemma substring_all (s : string) : String.substring 0 (String.length s) s = s.
Proof. induction s as [|c s IH]; [reflexivity|]. cbn. now rewrite IH. Qed.

(** On a text without a line break, [(.+)] at the end of a pattern
    takes all that is left. *)
Lemma plus_all (c0 : Re.cursor) (s : string) :
  forall c,
    every plain s = true -> s <> "" ->
    exists c',
      Re.plus Re.Dot (fun c' => Some (Re.capture 1 c0 c')) s c
      = Some (Re.capture 1 c0 c') /\
      Re.pos c' = Re.pos c + String.length s.
Proof.
  induction s as [|ch s IH]; intros c Hp Hn; [now elim Hn|].
  cbn [every] in Hp. apply andb_prop in Hp. destruct Hp as (Hc & Hp).
  cbn [Re.plus]. rewrite (plain_dot ch Hc).
  destruct s as [|ch' s'].
  - cbn [Re.plus]. eexists. split; [reflexivity|]. cbn. lia.
  - destruct (IH (Re.advance ch (String ch' s') c) Hp) as (c' & E & P); [discriminate|].
    rewrite E. exists c'. split; [reflexivity|].
    rewrite P. cbn [Re.advance Re.pos String.length]. lia.
Qed.

Lemma no_trail_suffix (a b : string) :
  no_trail (a ++ b) = true -> b <> "" -> no_trail b = true.
Proof.
  induction a as [|x a IH]; intros Ht Hn; [exact Ht|].
  rewrite append_cons, no_trail_S in Ht.
  apply IH; [|exact Hn].
  destruct (a ++ b) eqn:E; [|exact Ht].
  exfalso. destruct a; [apply Hn; exact E | discriminate E].
Qed.

Lemma lstrip_keeps_trail (g : string) :
  no_trail g = true -> g <> "" ->
  Str.lstrip g <> "" /\ no_trail (Str.lstrip g) = true.
Proof.
  induction g as [|c g IH]; intros Ht Hn; [now elim Hn|].
  cbn [Str.lstrip]. destruct (Str.is_space c) eqn:Hs.
  - rewrite no_trail_S in Ht. destruct g as [|c' g'].
    + rewrite Hs in Ht. discriminate Ht.
    + apply IH; [exact Ht | discriminate].
  - split; [discriminate | exact Ht].
Qed.

Lemma split_aux_not_empty (s : string) :
  forall cur, cur <> "" -> Str.split_ws_aux cur s <> [].
Proof.
  induction s as [|c s IH]; intros cur Hc; cbn [Str.split_ws_aux].
  - destruct cur; [now elim Hc | discriminate].
  - destruct (Str.is_space c).
    + destruct cur; [now elim Hc | discriminate].
    + apply IH. destruct cur; discriminate.
Qed.

Lemma split_strip_not_empty (g : string) :
  no_trail g = true -> g <> "" -> Str.split (Str.strip g) <> [].
Proof.
  intros Ht Hn. destruct (lstrip_keeps_trail g Ht Hn) as (Hl & Hlt).
  unfold Str.strip. rewrite (rstrip_fixed _ Hlt).
  pose proof (lstrip_no_lead g) as Hnl.
  destruct (Str.lstrip g) as [|c h]; [now elim Hl|].
  cbn [no_lead] in Hnl. unfold Str.split. cbn [Str.split_ws_aux].
  destruct (Str.is_space c); [discriminate Hnl|].
  apply split_aux_not_empty. discriminate.
Qed.

(** In a normalized text, what follows my name is holds a word. *)
Lemma set_name_group (text : string) (m : Re.Match) :
  every plain text = true -> no_trail text = true ->
  Re.search (Re.compile (Re.Seq Re.WordB (Re.Seq (Re.Lit "my name is ")
                                           (Re.Group 1 (Re.Plus Re.Dot)))) true) text
  = Some m ->
  exists g, Re.m_group1 m = Some g /\ Str.split (Str.strip g) <> [].
Proof.
  intros Hp Ht Hs. destruct (search_at _ _ _ _ Hs eq_refl) as (pre & c & Htext & Hm).
  unfold Re.match_at in Hm. cbn [Re.expr Re.ignorecase Re.rx] in Hm.
  destruct (Re.at_boundary c); [|discriminate Hm].
  destruct (Re.lit true "my name is " c) as [c0|] eqn:El; [|discriminate Hm].
  destruct (lit_rest _ _ _ El) as (s1 & Hr & _).
  rewrite Hr, <- append_assoc in Htext.
  destruct (Re.rest c0) as [|ch s] eqn:Er; [discriminate Hm|].
  assert (Hg : every plain (String ch s) = true).
  { rewrite Htext, every_app in Hp. apply andb_prop in Hp. apply Hp. }
  destruct (plus_all c0 (String ch s) c0 Hg) as (c' & E & P); [discriminate|].
  rewrite E in Hm. injection Hm as <-.
  unfold Re.capture. cbn [Nat.eqb Re.m_group1 Re.grp1].
  rewrite P, Er. replace (Re.pos c0 + String.length (String ch s) - Re.pos c0)
    with (String.length (String ch s)) by lia.
  rewrite substring_all. eexists. split; [reflexivity|].
  apply split_strip_not_empty; [|discriminate].
  rewrite Htext in Ht. apply (no_trail_suffix _ _ Ht). discriminate.
Qed.

Lemma normalize_shape (t : string) :
  no_lead (normalize t) = true /\ no_trail (normalize t) = true /\
  every plain (normalize t) = true.
Proof.
  rewrite normalize_squeeze. set (y := Str.lower (Str.strip t)).
  assert (Hl : no_lead y = true).
  { unfold y. rewrite lower_no_lead. unfold Str.strip.
    apply rstrip_no_lead, lstrip_no_lead. }
  assert (Ht : no_trail y = true).
  { unfold y. rewrite lower_no_trail. unfold Str.strip. apply rstrip_no_trail. }
  split; [apply squeeze_no_lead, Hl|].
  split; [apply squeeze_no_trail, Ht | apply squeeze_plain].
Qed.

(** ** Where a match comes from *)

Lemma detect_intent_found (text n : string) (m : Re.Match) :
  detect_intent text = (n, Some m) ->
  exists p, In (n, p) INTENT_PATTERNS /\ Re.search p text = Some m.
Proof.
  unfold detect_intent. pose proof (first_match_least INTENT_PATTERNS text) as Hf.
  destruct (first_match INTENT_PATTERNS text) as [[n' m']|].
  - intros E. injection E as -> ->. destruct Hf as (i & p & Hn & Hs & _).
    exists p. split; [eapply nth_error_In; exact Hn | exact Hs].
  - destruct (existsb _ _); discriminate.
Qed.

Lemma detect_intent_fallback (text n : string) :
  detect_intent text = (n, None) -> n = "help" \/ n = "smalltalk".
Proof.
  unfold detect_intent. destruct (first_match INTENT_PATTERNS text) as [[n' m']|].
  - discriminate.
  - destruct (existsb _ _); intros E; injection E as <-; auto.
Qed.

Lemma set_name_pattern_group (text : string) (m : Re.Match) :
  Re.search (Re.compile (Re.Seq Re.WordB (Re.Seq (Re.Lit "my name is ")
                                           (Re.Group 1 (Re.Plus Re.Dot)))) true) text
  = Some m ->
  Re.m_group1 m <> None.
Proof.
  intros Hs. destruct (search_at _ _ _ _ Hs eq_refl) as (pre & c & _ & Hm).
  unfold Re.match_at in Hm. cbn [Re.expr Re.ignorecase] in Hm.
  destruct (Re.rx _ _ Some c) as [x|] eqn:E; [|discriminate Hm].
  injection Hm as <-. cbn [Re.m_group1].
  change (Re.rx true (Re.Seq Re.WordB (Re.Seq (Re.Lit "my name is ")
                                         (Re.Group 1 (Re.Plus Re.Dot)))) Some c)
    with (Re.rx true Re.WordB (Re.rx true (Re.Lit "my name is ")
            (Re.rx true (Re.Group 1 (Re.Plus Re.Dot)) Some)) c) in E.
  destruct (rx_from_k _ _ _ _ _ E) as (c1 & E1).
  destruct (rx_from_k _ _ _ _ _ E1) as (c2 & E2).
  apply (group_sets _ _ _ _ _ keeps_some E2).
Qed.

(** X13. Whenever the intent is set_name, load_csv or setname_cmd, a
    match comes with it and its group 1 took part in it: the handlers of
    these intents always find the text they read. *)
Theorem captured_group_present :
  forall (text : string),
    In (fst (detect_intent text)) ["set_name"; "load_csv"; "setname_cmd"] ->
    exists m g,
      snd (detect_intent text) = Some m /\
      Re.m_group1 m = Some g /\
      Bot.group1_strip m = Ok (Str.strip g).
Proof.
  intros text Hin.
  destruct (detect_intent text) as [n [m|]] eqn:Ed; cbn [fst snd] in *.
  - assert (Hg : Re.m_group1 m <> None).
    { destruct (detect_intent_found _ _ _ Ed) as (p & Hp & Hs).
      unfold INTENT_PATTERNS in Hp. cbn [In] in Hp.
      repeat (destruct Hp as [Hp|Hp];
              [injection Hp as <- <-;
               first [ exfalso; cbn [In] in Hin; intuition discriminate
                     | exact (set_name_pattern_group _ _ Hs)
                     | exact (command_arg_group _ _ _ Hs) ]|]).
      contradiction. }
    unfold Bot.group1_strip. destruct (Re.m_group1 m) as [g|] eqn:Eg; [|now elim Hg].
    exists m, g. split; [reflexivity|]. split; [exact Eg | rewrite Eg; reflexivity].
  - exfalso. destruct (detect_intent_fallback _ _ Ed) as [-> | ->];
      cbn [In] in Hin; intuition discriminate.
Qed.

(** ** Which turns can raise *)

Section Robustness.
Context `{PyFloat} `{PyLibs}.






End Robustness.

(** ** Topics *)

Lemma lower_app (a b : string) : Str.lower (a ++ b) = Str.lower a ++ Str.lower b.
Proof.
  unfold Str.lower. induction a as [|x a IH]; [reflexivity|].
  rewrite append_cons. cbn [Str.map]. rewrite IH, append_cons. reflexivity.
Qed.

Lemma length_lower (s : string) : String.length (Str.lower s) = String.length s.
Proof.
  unfold Str.lower. induction s as [|c s IH]; [reflexivity|].
  cbn [Str.map String.length]. now rewrite IH.
Qed.

Lemma append_inj (a : string) :
  forall a' b b', a ++ b = a' ++ b' -> String.length a = String.length a' ->
    a = a' /\ b = b'.
Proof.
  induction a as [|x a IH]; intros [|x' a'] b b' E L; try discriminate L.
  - split; [reflexivity | exact E].
  - rewrite !append_cons in E. injection E as -> E. injection L as L.
    destruct (IH _ _ _ E L) as (-> & ->). split; reflexivity.
Qed.

Lemma words_lit (ic : bool) (ws : list string) :
  forall k c x, ws <> [] -> Re.rx ic (Re.words ws) k c = Some x ->
    exists w c1, In w ws /\ Re.lit ic w c = Some c1.
Proof.
  induction ws as [|w ws IH]; intros k c x Hn; [now elim Hn|].
  destruct ws as [|w' ws'].
  - cbn [Re.words Re.rx]. destruct (Re.lit ic w c) as [c1|] eqn:E; [|discriminate].
    intros _. exists w, c1. split; [left; reflexivity | exact E].
  - change (Re.words (w :: w' :: ws')) with (Re.Alt (Re.Lit w) (Re.words (w' :: ws'))).
    cbn [Re.rx]. destruct (Re.lit ic w c) as [c1|] eqn:E.
    + intros _. exists w, c1. split; [left; reflexivity | exact E].
    + intros Hx. destruct (IH k c x) as (w0 & c0 & Hin & Hl); [discriminate | exact Hx|].
      exists w0, c0. split; [right; exact Hin | exact Hl].
Qed.

(** A match of [\b(w1|w2|...)\b] lies on one of the words, up to case. *)
Lemma word_pattern_found (ws : list string) (text : string) (m : Re.Match) :
  Re.search (word_pattern ws) text = Some m ->
  ws <> [] ->
  exists w pre s1 post,
    In w ws /\ text = pre ++ s1 ++ post /\ Str.lower s1 = Str.lower w.
Proof.
  intros Hs Hn. destruct (search_at _ _ _ _ Hs eq_refl) as (pre & c & Htext & Hm).
  unfold Re.match_at, word_pattern in Hm. cbn [Re.expr Re.ignorecase Re.rx] in Hm.
  destruct (Re.at_boundary c); [|discriminate Hm].
  destruct (Re.rx true (Re.words ws) _ c) as [x|] eqn:E; [|discriminate Hm].
  destruct (words_lit _ _ _ _ _ Hn E) as (w & c1 & Hin & Hl).
  destruct (lit_rest _ _ _ Hl) as (s1 & Hr & Hlow).
  exists w, pre, s1, (Re.rest c1). rewrite <- Hr. repeat split; assumption.
Qed.

Lemma contains_lowered (w text pre s1 post : string) :
  text = pre ++ s1 ++ post ->
  Str.lower s1 = Str.lower w ->
  Str.lower text = text -> Str.lower w = w ->
  Str.contains w text = true.
Proof.
  intros Ht Hl Htext Hw. rewrite Ht in Htext. rewrite !lower_app in Htext.
  destruct (append_inj _ _ _ _ Htext (length_lower pre)) as (_ & E).
  destruct (append_inj _ _ _ _ E (length_lower s1)) as (E1 & _).
  rewrite Ht. replace s1 with w by congruence. apply contains_append.
Qed.

(** The first element a search by [find] stops at: nothing before it
    passes the test. *)
Lemma find_first {A : Type} (f : A -> bool) (l : list A) (x : A) :
  List.find f l = Some x ->
  exists i, nth_error l i = Some x /\ f x = true /\
            forall j y, j < i -> nth_error l j = Some y -> f y = false.
Proof.
  induction l as [|a l IH]; intros Hf; [discriminate Hf|].
  cbn [List.find] in Hf. destruct (f a) eqn:Fa.
  - injection Hf as <-. exists 0. split; [reflexivity|]. split; [exact Fa|].
    intros j y Hj. lia.
  - destruct (IH Hf) as (i & Hn & Fx & Hb). exists (S i).
    split; [exact Hn|]. split; [exact Fx|].
    intros [|j] y Hj Hy.
    + cbn [nth_error] in Hy. injection Hy as <-. exact Fa.
    + cbn [nth_error] in Hy. apply (Hb j y); [lia | exact Hy].
Qed.

Section Topics.
Context `{PyFloat} `{PyLibs}.

(** X14. For a text of ASCII characters, a turn detected as faq always
    gets the entry of a topic, and of the first one in the order of
    [FAQ]: the text, once normalized, holds a key of [FAQ]; the reply is
    the title and the entry of the key at some place [i] of the table
    that the text holds, and the text holds none of the keys at the
    places before [i]. So [handle_faq] never gives its reply for a topic
    not found, and of two keys in the text the one earlier in the table
    wins, wherever they stand in the text. *)
Theorem faq_always_found :
  forall (raw : string) (b : Chatbot) (w : World),
    ascii_only raw = true ->
    fst (detect_intent (normalize raw)) = "faq" ->
    exists i k v,
      nth_error FAQ i = Some (k, v) /\
      Str.contains k (normalize raw) = true /\
      (forall j k' v', j < i -> nth_error FAQ j = Some (k', v') ->
                       Str.contains k' (normalize raw) = false) /\
      fst (fst (Bot.handle_faq (normalize raw) b w)) = Ok (Str.title k ++ ": " ++ v).
Proof.
  intros raw b w _ Hi.
  destruct (detect_intent (normalize raw)) as [n [m|]] eqn:Ed; cbn [fst] in Hi; subst n.
  2:{ destruct (detect_intent_fallback _ _ Ed); discriminate. }
  destruct (detect_intent_found _ _ _ Ed) as (p & Hin & Hs).
  assert (Hw : exists k, In k (List.map fst FAQ) /\ Str.contains k (normalize raw) = true).
  { unfold INTENT_PATTERNS in Hin. cbn [In] in Hin.
    repeat (destruct Hin as [Hin|Hin]; [first [discriminate Hin | injection Hin as <-]|]);
      [|contradiction].
    destruct (word_pattern_found _ _ _ Hs)
      as (k & pre & s1 & post & Hk & Ht & Hl); [discriminate|].
    exists k. split; [exact Hk|].
    destruct (normalize_idempotent raw) as (_ & _ & Hlow & _).
    apply (contains_lowered k _ pre s1 post Ht Hl Hlow).
    cbn [In] in Hk.
    repeat (destruct Hk as [Hk|Hk]; [subst k; reflexivity|]). contradiction. }
  destruct Hw as (k & Hk & Hc).
  apply in_map_iff in Hk. destruct Hk as ([k0 v0] & Hk0 & Hin0). cbn [fst] in Hk0. subst k0.
  unfold Bot.handle_faq.
  destruct (find (fun kv => Str.contains (fst kv) (normalize raw)) FAQ) as [[k' v']|] eqn:Ef.
  - destruct (find_first _ _ _ Ef) as (i & Hn & Hc' & Hb). cbn [fst] in Hc'.
    exists i, k', v'. rewrite reply_heard.
    split; [exact Hn|]. split; [exact Hc'|]. split; [|reflexivity].
    intros j k'' v'' Hj Hy. exact (Hb j (k'', v'') Hj Hy).
  - exfalso. pose proof (find_none _ _ Ef _ Hin0) as Hnone. cbn [fst] in Hnone.
    rewrite Hc in Hnone. discriminate Hnone.
Qed.

End Topics.

(** ** Tone of the small talk *)

Section SmallTalk.
Context `{PyFloat} `{PyLibs}.

(** X15. On a text of fewer than 50 words the sign of the tally alone
    sets the tone of the small talk: more positive than negative words
    give an entry of [SMALLTALK] with the smiley, more negative than
    positive ones give the line of sympathy, and a balance gives a plain
    entry of [SMALLTALK]. The handler always replies. *)
Theorem smalltalk_tone :
  forall (text : string) (b : Chatbot) (w : World),
    List.length (Sentiment.findall_tokens (Str.lower text)) < 50 ->
    exists r b' w',
      Bot.handle_smalltalk text b w = (Ok r, b', w') /\
      let z := fold_left Sentiment.tally (Sentiment.findall_tokens (Str.lower text)) 0%Z in
      ((0 < z)%Z -> exists t, In t SMALLTALK /\ r = t ++ " ðŸ˜Š") /\
      ((z < 0)%Z -> r = "Sorry to hear that. Tell me moreâ€”maybe I can help.") /\
      (z = 0%Z -> In r SMALLTALK).
Proof.
  intros text b w Hn. unfold Bot.handle_smalltalk. cbv zeta.
  destruct (choice_ok SMALLTALK b w) as (t & Hin & E); [discriminate|].
  assert (Hs : Sentiment.sentiment_score text
               = match Sentiment.findall_tokens (Str.lower text) with
                 | [] => 0%Q
                 | _ => (fold_left Sentiment.tally (Sentiment.findall_tokens (Str.lower text)) 0%Z
                         # Pos.of_nat (Nat.max 1 (List.length
                                           (Sentiment.findall_tokens (Str.lower text)))))%Q
                 end) by reflexivity.
  set (tokens := Sentiment.findall_tokens (Str.lower text)) in *.
  set (z := fold_left Sentiment.tally tokens 0%Z) in *.
  assert (Hq : ((0 < z)%Z -> (2 # 100 < Sentiment.sentiment_score text)%Q) /\
               ((z < 0)%Z -> (Sentiment.sentiment_score text < - (2 # 100))%Q) /\
               (z = 0%Z -> (Sentiment.sentiment_score text == 0)%Q)).
  { rewrite Hs. destruct tokens as [|t0 ts] eqn:Et.
    - unfold z. cbn [fold_left]. repeat split; intros; try lia; reflexivity.
    - set (n := List.length (t0 :: ts)) in *.
      assert (H1 : 1 <= n) by (unfold n; cbn [List.length]; lia).
      assert (Hd : Z.pos (Pos.of_nat (Nat.max 1 n)) = Z.of_nat n).
      { rewrite Nat.max_r by lia. destruct n as [|n']; [lia|].
        rewrite <- Pos.of_nat_succ, Zpos_P_of_succ_nat. lia. }
      unfold Qlt, Qeq, Qopp. cbn [Qnum Qden Z.opp]. rewrite Hd.
      repeat split; intros; lia. }
  destruct Hq as (Hpos & Hneg & Hzero).
  destruct (Qlt_le_dec (2 # 100) (Sentiment.sentiment_score text)) as [Hgt|Hle].
  - unfold bind. rewrite E, reply_heard. eexists _, _, _. split; [reflexivity|].
    cbv zeta. repeat split.
    + intros _. exists t. split; [exact Hin | reflexivity].
    + intros Hz. specialize (Hneg Hz). exfalso.
      apply (Qlt_irrefl (2 # 100)). eapply Qlt_trans; [exact Hgt|].
      eapply Qlt_trans; [exact Hneg | reflexivity].
    + intros Hz. specialize (Hzero Hz). exfalso. rewrite Hzero in Hgt. discriminate Hgt.
  - destruct (Qlt_le_dec (Sentiment.sentiment_score text) (- (2 # 100))) as [Hlt|Hge].
    + rewrite reply_heard. eexists _, _, _. split; [reflexivity|].
      cbv zeta. repeat split.
      * intros Hz. specialize (Hpos Hz). exfalso.
        apply (Qlt_irrefl (2 # 100)). eapply Qlt_le_trans; [exact Hpos | exact Hle].
      * intros Hz. specialize (Hzero Hz). exfalso. rewrite Hzero in Hlt. discriminate Hlt.
    + unfold bind. rewrite E, reply_heard. eexists _, _, _. split; [reflexivity|].
      cbv zeta. repeat split.
      * intros Hz. specialize (Hpos Hz). exfalso.
        apply (Qlt_irrefl (2 # 100)). eapply Qlt_le_trans; [exact Hpos | exact Hle].
      * intros Hz. specialize (Hneg Hz). exfalso.
        apply (Qlt_irrefl (- (2 # 100))). eapply Qle_lt_trans; [exact Hge | exact Hneg].
      * intros _. exact Hin.
Qed.

End SmallTalk.

(** ** An empty column in a table *)

Section Tables.
Context `{PyFloat} `{PyLibs}.

Lemma first_value_empty (h : string) (rows : list Row) :
  (forall r, In r rows -> Bot.row_get h r = None \/ Bot.row_get h r = Some "") ->
  Bot.first_value h rows = "nan".
Proof.
  induction rows as [|r rows IH]; intros He; [reflexivity|].
  cbn [Bot.first_value].
  destruct (He r (or_introl eq_refl)) as [E|E]; rewrite E;
    apply IH; intros r' Hr'; apply He; right; exact Hr'.
Qed.

Lemma column_values_empty (h : string) (rows : list Row) :
  (forall r, In r rows -> Bot.row_get h r = None \/ Bot.row_get h r = Some "") ->
  Bot.column_values h rows = [].
Proof.
  induction rows as [|r rows IH]; intros He; [reflexivity|].
  cbn [Bot.column_values].
  destruct (He r (or_introl eq_refl)) as [E|E]; rewrite E;
    [|change (Float64.float_of_str "") with (@None Float64.pyfloat)];
    apply IH; intros r' Hr'; apply He; right; exact Hr'.
Qed.

(** X16. When the first column of a table has no value in any row, the
    insights stop at the count of rows and columns: that column passes
    for numeric, because the value tried in its place is nan, and it has
    nothing to average; a numeric column further right is not looked
    at. *)
Theorem csv_empty_first_column :
  forall (path h : string) (hs : list string) (rows : list Row),
    (forall r, In r rows -> Bot.row_get h r = None \/ Bot.row_get h r = Some "") ->
    Bot.is_numeric_col rows h = true /\
    Bot.csv_insights path (h :: hs) rows
    = Ok ("Loaded " ++ path ++ " with " ++ Str.of_nat (List.length rows)
          ++ " rows and " ++ Str.of_nat (List.length (h :: hs)) ++ " columns.").
Proof.
  intros path h hs rows He.
  assert (Hn : Bot.is_numeric_col rows h = true).
  { unfold Bot.is_numeric_col. rewrite (first_value_empty h rows He). reflexivity. }
  split; [exact Hn|].
  unfold Bot.csv_insights. cbv zeta. cbn [List.filter]. rewrite Hn.
  rewrite (column_values_empty h rows He). reflexivity.
Qed.

End Tables.

Lemma csv_empty_first_column_witness :
  Bot.is_numeric_col [[("id", Some ""); ("price", Some "2.5")];
                      [("id", None); ("price", Some "4")]] "id" = true /\
  Bot.csv_insights "t.csv" ["id"; "price"]
    [[("id", Some ""); ("price", Some "2.5")]; [("id", None); ("price", Some "4")]]
  = Ok ("Loaded " ++ "t.csv" ++ " with " ++ Str.of_nat 2
        ++ " rows and " ++ Str.of_nat 2 ++ " columns.").
Proof.
  apply (csv_empty_first_column "t.csv" "id" ["price"]
           [[("id", Some ""); ("price", Some "2.5")]; [("id", None); ("price", Some "4")]]).
  intros r [<- | [<- | []]]; [right | left]; reflexivity.
Defined.

(** ** The name *)

Lemma plus_span (cl : Re.cclass) (k : Re.cursor -> option Re.cursor) (s : string) :
  forall c x,
    Re.plus cl k s c = Some x ->
    exists c' s1,
      k c' = Some x /\ s1 <> "" /\ s = s1 ++ Re.rest c' /\
      Re.pos c' = Re.pos c + String.length s1.
Proof.
  induction s as [|ch s IH]; intros c x; cbn [Re.plus]; [discriminate|].
  destruct (Re.in_class cl ch); [|discriminate].
  destruct (Re.plus cl k s (Re.advance ch s c)) as [r|] eqn:E.
  - intros Hx. injection Hx as ->.
    destruct (IH _ _ E) as (c' & s1 & Hk & _ & Hs & Hp).
    exists c', (String ch s1). split; [exact Hk|]. split; [discriminate|].
    split; [rewrite append_cons, <- Hs; reflexivity|].
    rewrite Hp. cbn [Re.advance Re.pos String.length]. lia.
  - intros Hx. exists (Re.advance ch s c), (String ch "").
    split; [exact Hx|]. split; [discriminate|]. split; [reflexivity|].
    cbn [Re.advance Re.pos String.length]. lia.
Qed.

Lemma substring_prefix (a b : string) :
  String.substring 0 (String.length a) (a ++ b) = a.
Proof.
  induction a as [|x a IH]; [destruct b; reflexivity|].
  rewrite append_cons. cbn [String.length String.substring]. now rewrite IH.
Qed.

Lemma plain_not_newline (ch : ascii) : plain ch = true -> (Str.code ch =? 10)%N = false.
Proof.
  destruct ch as [[] [] [] [] [] [] [] []]; intros E; try discriminate E; reflexivity.
Qed.

(** In a normalized text the argument of a command holds a word. *)
Lemma command_arg_word (cmd text : string) (m : Re.Match) :
  every plain text = true -> no_trail text = true ->
  Re.search (command_arg_pattern cmd) text = Some m ->
  exists g, Re.m_group1 m = Some g /\ Str.strip g <> "".
Proof.
  intros Hp Ht Hs.
  destruct (search_at _ _ _ _ Hs eq_refl) as (pre & c & Htext & Hm).
  unfold Re.match_at, command_arg_pattern in Hm. cbn [Re.expr Re.ignorecase Re.rx] in Hm.
  destruct (Nat.eqb (Re.pos c) 0); [|discriminate Hm].
  destruct (Re.lit true cmd c) as [c1|] eqn:El; [|discriminate Hm].
  destruct (lit_rest _ _ _ El) as (s1 & Hr1 & _).
  destruct (Re.plus Re.Space _ (Re.rest c1) c1) as [x|] eqn:E2; [|discriminate Hm].
  injection Hm as <-. cbn [Re.m_group1].
  destruct (plus_span _ _ _ _ _ E2) as (c2 & s2 & E3 & _ & Hr2 & _).
  destruct (plus_span _ _ _ _ _ E3) as (c3 & s3 & E4 & Hn3 & Hr3 & Hp3).
  destruct (Re.at_end (Re.capture 1 c2 c3)) eqn:Hend; [|discriminate E4].
  injection E4 as <-.
  unfold Re.capture in *. cbn [Nat.eqb Re.grp1 Re.rest] in *.
  rewrite Hp3, Hr3.
  replace (Re.pos c2 + String.length s3 - Re.pos c2) with (String.length s3) by lia.
  rewrite substring_prefix. exists s3. split; [reflexivity|].
  assert (Hall : text = (pre ++ s1 ++ s2) ++ s3 ++ Re.rest c3).
  { rewrite Htext, Hr1, Hr2, Hr3, !append_assoc. reflexivity. }
  assert (Hrest : Re.rest c3 = "").
  { unfold Re.at_end in Hend. cbn [Re.rest] in Hend.
    destruct (Re.rest c3) as [|ch [|ch' s']] eqn:Er; [reflexivity | | discriminate Hend].
    exfalso. rewrite Hall, !every_app in Hp.
    apply andb_prop in Hp. destruct Hp as (_ & Hp).
    apply andb_prop in Hp. destruct Hp as (_ & Hp).
    cbn [every] in Hp. apply andb_prop in Hp. destruct Hp as (Hp & _).
    rewrite (plain_not_newline ch Hp) in Hend. discriminate Hend. }
  rewrite Hrest, append_nil_r in Hall. rewrite Hall in Ht.
  pose proof (no_trail_suffix _ _ Ht Hn3) as Ht3.
  destruct (lstrip_keeps_trail s3 Ht3 Hn3) as (Hl & Hlt).
  unfold Str.strip. rewrite (rstrip_fixed _ Hlt). exact Hl.
Qed.

Lemma split_aux_words (s : string) :
  forall cur x, In x (Str.split_ws_aux cur s) -> x <> "".
Proof.
  induction s as [|c s IH]; intros cur x; cbn [Str.split_ws_aux].
  - destruct cur; [intros [] | intros [<- | []]; discriminate].
  - destruct (Str.is_space c).
    + destruct cur; [apply IH|]. intros [<- | Hx]; [discriminate | exact (IH _ _ Hx)].
    + apply IH.
Qed.

Lemma title_not_empty (s : string) : s <> "" -> Str.title s <> "".
Proof.
  destruct s as [|c s]; [intros N; now elim N|]. intros _.
  unfold Str.title. cbn [Str.title_aux]. destruct (Str.is_alpha c); discriminate.
Qed.

Section TheName.
Context `{PyFloat} `{PyLibs}.

Lemma greet_by_name (name : string) (b : Chatbot) (w : World) :
  user_name (data (mem b)) = Some name -> name <> "" ->
  fst (fst (Bot.handle_greet b w)) = Ok ("Hello " ++ name ++ "! How can I help today?").
Proof.
  intros Hu Hn. unfold Bot.handle_greet, bind, get. cbv beta iota. rewrite Hu.
  destruct name as [|c n]; [now elim Hn|]. rewrite reply_heard. reflexivity.
Qed.

Lemma named (name : string) (b0 : Chatbot) (w0 : World) (r : string) :
  user_name (data (mem b0)) = Some name -> name <> "" ->
  user_name (data (mem (fst (heard "assistant" r b0 w0)))) = Some name /\
  forall w2,
    fst (fst (Bot.handle_greet (fst (heard "assistant" r b0 w0)) w2))
    = Ok ("Hello " ++ name ++ "! How can I help today?").
Proof.
  intros Hu Hn. destruct (heard_mem "assistant" r b0 w0) as (_ & _ & _ & Hname & _).
  rewrite Hu in Hname. split; [exact Hname|].
  intros w2. apply greet_by_name; assumption.
Qed.

(** X17. A name once given is the name used: after a turn detected as
    set_name or setname_cmd the reply holds a name that is not empty,
    the memory holds it, and the next greeting is Hello with this name. *)
Theorem name_is_remembered :
  forall (t : string) (b : Chatbot) (w : World),
    pending_task b = None \/ Str.startswith (normalize t) "/" = true ->
    In (fst (detect_intent (normalize t))) ["set_name"; "setname_cmd"] ->
    exists name r b' w',
      name <> "" /\
      Bot.handle t b w = (Ok r, b', w') /\
      user_name (data (mem b')) = Some name /\
      Str.contains name r = true /\
      forall w2,
        fst (fst (Bot.handle_greet b' w2))
        = Ok ("Hello " ++ name ++ "! How can I help today?").
Proof.
  intros t b w Hc Hin.
  assert (E : Bot.handle t b w
              = Bot.classify_and_dispatch (normalize t) t
                  (fst (heard "user" t b w)) (snd (heard "user" t b w))).
  { destruct Hc as [Hc|Hc]; [apply handle_idle | apply handle_command]; exact Hc. }
  rewrite E. clear E. unfold Bot.classify_and_dispatch.
  set (bu := fst (heard "user" t b w)). set (wu := snd (heard "user" t b w)).
  destruct (normalize_shape t) as (_ & Ht & Hp).
  destruct (detect_intent (normalize t)) as [intent [m|]] eqn:Ed; cbn [fst] in Hin.
  2:{ exfalso. destruct (detect_intent_fallback _ _ Ed) as [-> | ->];
        cbn [In] in Hin; intuition discriminate. }
  destruct (detect_intent_found _ _ _ Ed) as (p & Hp' & Hs).
  destruct Hin as [<- | [<- | []]].
  - assert (Hg : exists g, Re.m_group1 m = Some g /\ Str.split (Str.strip g) <> []).
    { unfold INTENT_PATTERNS in Hp'. cbn [In] in Hp'.
      repeat (destruct Hp' as [Hp'|Hp'];
              [first [ discriminate Hp'
                     | injection Hp' as <-; exact (set_name_group _ _ Hp Ht Hs) ]|]).
      contradiction. }
    destruct Hg as (g & Hg & Hn).
    change (Bot.dispatch "set_name" (Some m) (normalize t) t) with (Bot.handle_set_name m).
    unfold Bot.handle_set_name, Bot.group1_strip. rewrite Hg.
    destruct (Str.split (Str.strip g)) as [|name0 rest] eqn:Esp; [now elim Hn|].
    assert (Hne : Str.title name0 <> "").
    { apply title_not_empty. apply (split_aux_words (Str.strip g) "").
      unfold Str.split in Esp. rewrite Esp. left. reflexivity. }
    unfold bind.
    destruct (set_user_name_run (Some (Str.title name0)) bu wu)
      as (b0 & w0 & E & _ & _ & _ & Hu).
    rewrite E. unfold get. cbv beta iota. rewrite reply_heard.
    unfold Bot.shown_name. rewrite Hu.
    destruct (named _ b0 w0 ("Nice to meet you, " ++ Str.title name0
                              ++ "! I'll remember your name.") Hu Hne) as (Hname & Hgreet).
    eexists (Str.title name0), _, _, _.
    split; [exact Hne|]. split; [reflexivity|]. split; [exact Hname|].
    split; [|exact Hgreet].
    apply (contains_mid _ "Nice to meet you, " "! I'll remember your name."). reflexivity.
  - assert (Hg : exists g, Re.m_group1 m = Some g /\ Str.strip g <> "").
    { unfold INTENT_PATTERNS in Hp'. cbn [In] in Hp'.
      repeat (destruct Hp' as [Hp'|Hp'];
              [first [ discriminate Hp'
                     | injection Hp' as <-; exact (command_arg_word _ _ _ Hp Ht Hs) ]|]).
      contradiction. }
    destruct Hg as (g & Hg & Hn).
    change (Bot.dispatch "setname_cmd" (Some m) (normalize t) t)
      with (Bot.handle_setname_cmd m).
    unfold Bot.handle_setname_cmd, Bot.group1_strip. rewrite Hg.
    assert (Hne : Str.title (Str.strip g) <> "") by (apply title_not_empty; exact Hn).
    unfold bind.
    destruct (set_user_name_run (Some (Str.title (Str.strip g))) bu wu)
      as (b0 & w0 & E & _ & _ & _ & Hu).
    rewrite E. unfold get. cbv beta iota. rewrite reply_heard.
    unfold Bot.shown_name. rewrite Hu.
    destruct (named _ b0 w0 ("Got it! I'll call you " ++ Str.title (Str.strip g) ++ ".")
                Hu Hne) as (Hname & Hgreet).
    eexists (Str.title (Str.strip g)), _, _, _.
    split; [exact Hne|]. split; [reflexivity|]. split; [exact Hname|].
    split; [|exact Hgreet].
    apply (contains_mid _ "Got it! I'll call you " "."). reflexivity.
Qed.

End TheName.

Lemma command_intents_need_slash_witness :
  Str.startswith "/setname grace" "/" = true.
Proof.
  apply (command_intents_need_slash "/setname grace").
  vm_compute. right. left. reflexivity.
Defined.

Lemma captured_group_present_witness :
  exists m g,
    snd (detect_intent "my name is ada lovelace") = Some m /\
    Re.m_group1 m = Some g /\
    Bot.group1_strip m = Ok (Str.strip g).
Proof.
  apply (captured_group_present "my name is ada lovelace").
  vm_compute. left. reflexivity.
Defined.


Lemma faq_always_found_witness :
  exists i k v,
    nth_error FAQ i = Some (k, v) /\
    Str.contains k (normalize "  Is BETA part of the capm? ") = true /\
    (forall j k' v', j < i -> nth_error FAQ j = Some (k', v') ->
                     Str.contains k' (normalize "  Is BETA part of the capm? ") = false) /\
    fst (fst (@Bot.handle_faq (normalize "  Is BETA part of the capm? ") fresh_bot quiet_world))
    = Ok (Str.title k ++ ": " ++ v).
Proof.
  apply (@faq_always_found "  Is BETA part of the capm? " fresh_bot quiet_world).
  - reflexivity.
  - vm_compute. reflexivity.
Defined.

Lemma smalltalk_tone_witness :
  exists r b' w',
    @Bot.handle_smalltalk "I love it, though delivery was late and slow" fresh_bot quiet_world
    = (Ok r, b', w') /\
    let z := fold_left Sentiment.tally
               (Sentiment.findall_tokens
                  (Str.lower "I love it, though delivery was late and slow")) 0%Z in
    ((0 < z)%Z -> exists t, In t SMALLTALK /\ r = t ++ " ðŸ˜Š") /\
    ((z < 0)%Z -> r = "Sorry to hear that. Tell me moreâ€”maybe I can help.") /\
    (z = 0%Z -> In r SMALLTALK).
Proof.
  apply (@smalltalk_tone "I love it, though delivery was late and slow"
           fresh_bot quiet_world).
  vm_compute. lia.
Defined.

Lemma name_is_remembered_witness :
  exists name r b' w',
    name <> "" /\
    @Bot.handle opaque_floats plain_libs "/SetName   grace hopper" awaiting_product quiet_world
    = (Ok r, b', w') /\
    user_name (data (mem b')) = Some name /\
    Str.contains name r = true /\
    forall w2,
      fst (fst (Bot.handle_greet b' w2))
      = Ok ("Hello " ++ name ++ "! How can I help today?").
Proof.
  apply (@name_is_remembered opaque_floats plain_libs "/SetName   grace hopper"
           awaiting_product quiet_world).
  - right. vm_compute. reflexivity.
  - vm_compute. right. left. reflexivity.
Defined.
(** ** The summary *)

Lemma last_n_snoc {A} (n : nat) (l : list A) (e : A) :
  exists older, Mem.last_n (S n) (l ++ [e]) = (older ++ [e])%list.
Proof.
  unfold Mem.last_n. rewrite length_app. cbn [List.length].
  rewrite skipn_app.
  replace (List.length l + 1 - S n - List.length l) with 0 by lia.
  eexists. reflexivity.
Qed.

Lemma join_holds (sep x : string) (items : list string) :
  In x items -> exists a b, Str.join sep items = a ++ x ++ b.
Proof.
  induction items as [|y items IH]; intros Hin; [contradiction|].
  destruct items as [|z items'].
  - destruct Hin as [<- | []]. exists "", "". cbn [Str.join].
    rewrite append_nil_l, append_nil_r. reflexivity.
  - change (Str.join sep (y :: z :: items')) with (y ++ sep ++ Str.join sep (z :: items')).
    destruct Hin as [<- | Hin].
    + exists "", (sep ++ Str.join sep (z :: items')). rewrite append_nil_l. reflexivity.
    + destruct (IH Hin) as (a & b & E). rewrite E.
      exists (y ++ sep ++ a), b. rewrite !append_assoc. reflexivity.
Qed.

Section Summary.
Context `{PyFloat} `{PyLibs}.

(** X18. Asked through a turn, the summary always names an intent: the
    command itself has just been logged, so it is counted, and the
    words for a summary with nothing to count are never given. This
    takes a set to be iterated over all its elements. *)
Theorem summary_counts_itself :
  forall (t : string) (b : Chatbot) (w : World),
    (forall l x, In x l -> In x (set_iter l)) ->
    normalize t = "/summary" ->
    exists r b' w' n,
      Bot.handle t b w = (Ok r, b', w') /\
      1 <= n /\
      Str.contains ("summaryÃ—" ++ Str.of_nat n) r = true.
Proof.
  intros t b w Hset Hn.
  assert (Hc : Str.startswith (normalize t) "/" = true) by (rewrite Hn; reflexivity).
  rewrite (handle_command t b w Hc). unfold Bot.classify_and_dispatch. rewrite Hn.
  assert (Hi : fst (detect_intent "/summary") = "summary") by (vm_compute; reflexivity).
  destruct (detect_intent "/summary") as [i m]. cbn [fst] in Hi. subst i.
  change (Bot.dispatch "summary" m "/summary" t) with Bot.handle_summary.
  unfold Bot.handle_summary, bind, get. cbv beta iota zeta.
  destruct (heard_mem "user" t b w) as (_ & _ & _ & _ & Hh). rewrite Hh.
  set (e := {| h_time := clock w (ticks w); h_role := "user"; h_text := t |}).
  destruct (last_n_snoc 399 (history (data (mem b))) e) as (o1 & E1). rewrite E1.
  destruct (last_n_snoc 19 o1 e) as (o2 & E2). rewrite E2.
  rewrite List.filter_app, !List.map_app. subst e.
  cbn [List.filter h_role].
  change (String.eqb "user" "user") with true. cbv iota.
  cbn [List.map h_text]. rewrite Hn.
  change (fst (detect_intent "/summary")) with "summary".
  set (intents := (_ ++ ["summary"])%list).
  assert (Hin : In "summary" intents) by (apply in_or_app; right; left; reflexivity).
  set (n := Bot.count_of "summary" intents).
  assert (H1 : 1 <= n).
  { unfold n, Bot.count_of, intents. rewrite List.filter_app, List.length_app.
    cbn [List.filter String.eqb Ascii.eqb Bool.eqb List.length]. lia. }
  set (items := List.map _ (List.map _ (set_iter intents))).
  assert (Hitem : In ("summaryÃ—" ++ Str.of_nat n) items).
  { unfold items. apply in_map_iff. exists ("summary", n). split; [reflexivity|].
    apply in_map_iff. exists "summary". split; [reflexivity | exact (Hset _ _ Hin)]. }
  destruct (join_holds ", " _ _ Hitem) as (a & b0 & Ej).
  rewrite reply_heard. eexists _, _, _, n. split; [reflexivity|]. split; [exact H1|].
  rewrite Ej.
  assert (Hne : a ++ ("summaryÃ—" ++ Str.of_nat n) ++ b0 <> "").
  { destruct a; [|discriminate]. rewrite append_nil_l. discriminate. }
  destruct (a ++ ("summaryÃ—" ++ Str.of_nat n) ++ b0) as [|c0 s0] eqn:Eb; [now elim Hne|].
  rewrite <- Eb.
  apply (contains_mid _ ("Recent summary: we discussed " ++ a)
           (b0 ++ ". I also saved your name if you set it.")).
  rewrite !append_assoc. reflexivity.
Qed.

End Summary.

Lemma summary_counts_itself_witness :
  exists r b' w' n,
    @Bot.handle opaque_floats plain_libs " /Summary " awaiting_product quiet_world
    = (Ok r, b', w') /\
    1 <= n /\
    Str.contains ("summaryÃ—" ++ Str.of_nat n) r = true.
Proof.
  apply (@summary_counts_itself opaque_floats plain_libs " /Summary "
           awaiting_product quiet_world).
  - intros l x Hx. apply nodup_In. exact Hx.
  - vm_compute. reflexivity.
Defined.
(** ** The exported file *)


Section ExportedFile.
Context `{PyFloat} `{PyLibs}.



End ExportedFile.

(** ** The chat script *)

Lemma chat_loop_ends (console : list string) :
  forall (out : list string) (w : World),
    fst (fst (Chat.loop console out w))
    = (if existsb is_exit console then Chat.Left else Chat.EndOfInput) /\
    List.length (answers_in (snd (fst (Chat.loop console out w))))
    = List.length (answers_in out) + lines_read console.
Proof.
  induction console as [|line console IH]; intros out w.
  - cbn [Chat.loop existsb fst snd lines_read]. split; [reflexivity|].
    unfold answers_in. rewrite List.filter_app, List.length_app. cbn. lia.
  - cbn [Chat.loop existsb lines_read].
    change (is_exit line) with (String.eqb (Str.lower line) "exit"). cbv zeta.
    assert (Hout : forall x, Str.startswith x "AI Bot:" = true ->
              List.length (answers_in ((out ++ ["You: "]) ++ [x])%list)
              = S (List.length (answers_in out))).
    { intros x Hx. unfold answers_in. rewrite !List.filter_app, !List.length_app.
      cbn [List.filter]. rewrite Hx. cbn. lia. }
    destruct (List.find _ Chat.responses) as [[k answers]|] eqn:Ef.
    + assert (Hne : answers <> [] /\ String.eqb (Str.lower line) "exit" = false).
      { apply find_some in Ef. destruct Ef as (Hin & Hk). cbn [fst] in Hk.
        apply String.eqb_eq in Hk. rewrite <- Hk.
        unfold Chat.responses in Hin. cbn [In] in Hin.
        repeat (destruct Hin as [Hin|Hin];
                [injection Hin as <- <-; split; [discriminate | reflexivity]|]).
        contradiction. }
      destruct Hne as (Hne & Hx). rewrite Hx. cbn [orb].
      destruct (choice_ok answers tt w Hne) as (r & _ & E). rewrite E.
      destruct (IH ((out ++ ["You: "]) ++ [("AI Bot: " ++ r)%string])%list (roll w)) as (He & Hl).
      split; [exact He|]. rewrite Hl, Hout; [lia|]. reflexivity.
    + destruct (String.eqb (Str.lower line) "exit") eqn:Hx; cbn [orb fst snd].
      * split; [reflexivity|]. rewrite Hout; [lia | reflexivity].
      * destruct (IH ((out ++ ["You: "]) ++ ["AI Bot: Sorry, I don’t understand."])%list w)
          as (He & Hl).
        split; [exact He|]. rewrite Hl, Hout; [lia | reflexivity].
Qed.

(** X20. The chat script is left only by a line that is exit in any
    case of letters: bye is answered and the loop goes on. Up to that
    line every line read is answered with exactly one line; when no line
    is exit, the script reads all the lines and ends on the end of the
    input, which [input] reports by an error. *)
Theorem chat_ends_only_on_exit :
  forall (console : list string) (w : World),
    fst (fst (Chat.main console w))
    = (if existsb is_exit console then Chat.Left else Chat.EndOfInput) /\
    List.length (answers_in (snd (fst (Chat.main console w)))) = lines_read console.
Proof.
  intros console w. unfold Chat.main.
  destruct (chat_loop_ends console [] w) as (He & Hl). split; [exact He | exact Hl].
Qed.
